(** * Verified-action layer of the bot SDK (src/sdk/actions.ts)

    A shallow embedding of [BotActions]: every porcelain method is a
    computation in a small state-and-exception monad over an explicit
    session (a millisecond clock and the list of commands sent so far)
    and an explicit world (the snapshot that [getState()] returns at each
    instant, and the answers of the command channel).

    Conventions of the embedding.
    - JavaScript numbers that hold tile coordinates, tolerances, ids,
      slots, ticks, experience and milliseconds are [Z]; item counts are
      [N].
    - [Math.sqrt(dx*dx + dz*dz)] is never computed: every use of a distance
      in the source is a comparison, and each comparison is written on the
      radicand (the squared distance), which is its exact real-number
      reading.
    - Synchronous code takes no time; the clock advances at each [await]. *)

From Stdlib Require Import ZArith NArith List String Ascii Bool Lia.
From Stdlib Require Import DecimalString.
Import ListNotations.

Open Scope Z_scope.

Infix "+++" := String.append (right associativity, at level 60).

(** ** Strings and regular expressions *)

Module Text.

Definition lowerChar (c : ascii) : ascii :=
  let n := nat_of_ascii c in
  if ((65 <=? n) && (n <=? 90))%nat then ascii_of_nat (n + 32) else c.

Fixpoint toLowerCase (s : string) : string :=
  match s with
  | EmptyString => EmptyString
  | String c r => String (lowerChar c) (toLowerCase r)
  end.

(** [includes s needle] is [s.includes(needle)]. *)
Fixpoint includes (s needle : string) : bool :=
  String.prefix needle s ||
  match s with
  | EmptyString => false
  | String _ r => includes r needle
  end.

Definition showZ (z : Z) : string := NilZero.string_of_int (Z.to_int z).
Definition showN (n : N) : string := showZ (Z.of_N n).
Definition showBool (b : bool) : string := if b then "true"%string else "false"%string.

(** A [RegExp] is modelled by its [test] function together with the text
    that a template literal prints for it. *)
Record RegExp := { source : string; test : string -> bool }.

(** [/a|b|.../i] with literal alternatives: some alternative occurs,
    ignoring case. *)
Definition anyOfI (src : string) (alts : list string) : RegExp :=
  {| source := src;
     test := fun s => existsb (includes (toLowerCase s)) alts |}.

(** [/^word$/i]. *)
Definition wholeI (src word : string) : RegExp :=
  {| source := src; test := fun s => String.eqb (toLowerCase s) word |}.

(** [/./]: some character other than a line terminator. *)
Fixpoint hasChar (s : string) : bool :=
  match s with
  | EmptyString => false
  | String c r =>
      negb (Ascii.eqb c "010"%char || Ascii.eqb c "013"%char) || hasChar r
  end.
Definition anyChar : RegExp := {| source := "/./"; test := hasChar |}.

End Text.
Import Text.

(** ** Data model (the parts of src/sdk/types.ts that actions.ts reads) *)

Record Opt := { text : string; opIndex : Z }.

Module Player.
Record t := { worldX : Z; worldZ : Z }.
End Player.

Module InventoryItem.
Record t := { slot : Z; id : Z; name : string; count : N;
              optionsWithIndex : list Opt }.
End InventoryItem.

Module NearbyNpc.
Record t := { index : Z; name : string; distance : Z;
              optionsWithIndex : list Opt }.
End NearbyNpc.

Module NearbyLoc.
Record t := { x : Z; z : Z; id : Z; name : string; distance : Z;
              optionsWithIndex : list Opt; options : list string }.
End NearbyLoc.

Module GroundItem.
Record t := { x : Z; z : Z; id : Z; name : string }.
End GroundItem.

Module ShopItem.
Record t := { slot : Z; id : Z; name : string; count : N }.
End ShopItem.

Module Skill.
Record t := { name : string; level : Z; baseLevel : Z; experience : Z }.
End Skill.

Module Dialog.
Record option_t := { index : Z; text : string }.
Record t := { isOpen : bool; options : list option_t }.
End Dialog.

Module Shop.
Record t := { isOpen : bool; title : string;
              shopItems : list ShopItem.t; playerItems : list ShopItem.t }.
End Shop.

Module Interface.
Record t := { isOpen : bool; interfaceId : Z }.
End Interface.

Record GameMessage := { msgTick : Z; msgText : string }.

Record BotWorldState := {
  tick : Z;
  player : option Player.t;
  inventory : list InventoryItem.t;
  equipment : list InventoryItem.t;
  skills : list Skill.t;
  nearbyNpcs : list NearbyNpc.t;
  nearbyLocs : list NearbyLoc.t;
  groundItems : list GroundItem.t;
  dialog : Dialog.t;
  shop : Shop.t;
  interface : option Interface.t;
  gameMessages : list GameMessage
}.

(** [ActionResult] and the result types that extend it.  Every result
    literal of the source has [success] and [message]; [reason] and the
    payload fields are optional. *)
Record ActionResult := {
  success : bool;
  message : string;
  reason : option string
}.

Class Result (R : Type) := base : R -> ActionResult.

#[export] Instance Result_ActionResult : Result ActionResult := fun r => r.

Record OpenDoorResult := { door_base : ActionResult; door : option NearbyLoc.t }.
#[export] Instance Result_OpenDoor : Result OpenDoorResult := door_base.

Record ChopTreeResult := { chop_base : ActionResult; logs : option InventoryItem.t }.
#[export] Instance Result_ChopTree : Result ChopTreeResult := chop_base.

Record BurnLogsResult := { burn_base : ActionResult; burn_xpGained : Z }.
#[export] Instance Result_BurnLogs : Result BurnLogsResult := burn_base.

Record PickupResult := { pickup_base : ActionResult; pickup_item : option InventoryItem.t }.
#[export] Instance Result_Pickup : Result PickupResult := pickup_base.

Record TalkResult := { talk_base : ActionResult; talk_dialog : option Dialog.t }.
#[export] Instance Result_Talk : Result TalkResult := talk_base.

Record ShopResult := { buy_base : ActionResult; buy_item : option InventoryItem.t }.
#[export] Instance Result_Shop : Result ShopResult := buy_base.

Record ShopSellResult := { sell_base : ActionResult; amountSold : option Z; rejected : bool }.
#[export] Instance Result_ShopSell : Result ShopSellResult := sell_base.

Record BankDepositResult := { deposit_base : ActionResult; amountDeposited : option Z }.
#[export] Instance Result_BankDeposit : Result BankDepositResult := deposit_base.

Record BankWithdrawResult := { withdraw_base : ActionResult; withdraw_item : option InventoryItem.t }.
#[export] Instance Result_BankWithdraw : Result BankWithdrawResult := withdraw_base.

Record EquipResult := { equip_base : ActionResult }.
#[export] Instance Result_Equip : Result EquipResult := equip_base.

Record UnequipResult := { unequip_base : ActionResult; unequip_item : option InventoryItem.t }.
#[export] Instance Result_Unequip : Result UnequipResult := unequip_base.

Record EatResult := { eat_base : ActionResult; hpGained : Z }.
#[export] Instance Result_Eat : Result EatResult := eat_base.

Record AttackResult := { attack_base : ActionResult }.
#[export] Instance Result_Attack : Result AttackResult := attack_base.

Record CastSpellResult := { cast_base : ActionResult; hit : option bool; cast_xpGained : option Z }.
#[export] Instance Result_CastSpell : Result CastSpellResult := cast_base.

Definition failure (msg : string) : ActionResult :=
  {| success := false; message := msg; reason := None |}.
Definition failureBecause (msg why : string) : ActionResult :=
  {| success := false; message := msg; reason := Some why |}.
Definition succeeded (msg : string) : ActionResult :=
  {| success := true; message := msg; reason := None |}.

(** A caller-supplied target: an already resolved handle, or a pattern.
    A string pattern [s] stands for [new RegExp(s, 'i')]. *)
Inductive Target (A : Type) :=
| Handle (a : A)
| Pattern (r : RegExp).
Arguments Handle {A} a.
Arguments Pattern {A} r.

Definition showTarget {A} (t : Target A) : string :=
  match t with
  | Handle _ => "[object Object]"
  | Pattern r => source r
  end.

(** ** Commands, world and session *)

Inductive Command :=
| Walk (x z : Z) (running : bool)
| FindPath (x z maxWaypoints : Z)
| InteractNpc (index opIndex : Z)
| InteractLoc (x z id opIndex : Z)
| TalkToNpc (index : Z)
| UseItem (slot opIndex : Z)
| UseItemOnItem (sourceSlot targetSlot : Z)
| UseEquipmentItem (slot opIndex : Z)
| Pickup (x z id : Z)
| ClickDialog (index : Z)
| BankDeposit (slot amount : Z)
| BankWithdraw (slot amount : Z)
| ShopBuy (slot amount : Z)
| ShopSell (slot amount : Z)
| CloseShop
| CloseModal
| SpellOnNpc (index spellComponent : Z).

Record Waypoint := { wpX : Z; wpZ : Z }.
Record PathResult := { pathSuccess : bool; waypoints : option (list Waypoint) }.

(** The external collaborators: the polled-state producer and the command
    channel.  [snapshotAt t] is what [getState()] returns at clock [t];
    [respond t c] is the local-validation answer to command [c] sent at
    [t]; [rtt] is how long awaiting a command takes and [pollMs] how often
    the snapshot is refreshed.  [newRegExp source] is what the host's
    [new RegExp(source, 'i')] builds: the pattern, or nothing when [source]
    is not a valid regular expression and the constructor throws. *)
Record World := {
  snapshotAt : Z -> option BotWorldState;
  respond : Z -> Command -> ActionResult;
  pathQuery : Z -> Z -> Z -> PathResult;
  newRegExp : string -> option RegExp;
  rtt : N;
  pollMs : N
}.

(** [sent] lists the commands issued so far, newest first. *)
Record Session := { clock : Z; sent : list Command }.

Inductive Error := ConditionTimeout | SyntaxError.

(** [Unfinished] marks a loop of the model that ran out of unrolling; the
    theorems show it is never produced. *)
Inductive Outcome (A : Type) :=
| Returned (a : A)
| Thrown (e : Error)
| Unfinished.
Arguments Returned {A} a.
Arguments Thrown {A} e.
Arguments Unfinished {A}.

Definition M (A : Type) : Type := World -> Session -> Outcome A * Session.

Definition ret {A} (a : A) : M A := fun _ s => (Returned a, s).

Definition bind {A B} (c : M A) (k : A -> M B) : M B :=
  fun w s =>
    match c w s with
    | (Returned a, s') => k a w s'
    | (Thrown e, s') => (Thrown e, s')
    | (Unfinished, s') => (Unfinished, s')
    end.

(** [try { body } catch { handler }]. *)
Definition tryCatch {A} (body : M A) (handler : M A) : M A :=
  fun w s =>
    match body w s with
    | (Thrown _, s') => handler w s'
    | other => other
    end.

Notation "x <- c ;; k" := (bind c (fun x => k))
  (at level 61, c at next level, right associativity).
Notation "c ;;; k" := (bind c (fun _ => k))
  (at level 61, right associativity).

Definition advance (ms : Z) (s : Session) : Session :=
  {| clock := clock s + ms; sent := sent s |}.

Definition record (c : Command) (s : Session) : Session :=
  {| clock := clock s; sent := c :: sent s |}.

(** [Date.now()]. *)
Definition now : M Z := fun _ s => (Returned (clock s), s).

(** [new RegExp(source, 'i')]: the constructor throws a SyntaxError on a
    source that is not a regular expression. *)
Definition regExpOf (source : string) : M RegExp :=
  fun w s =>
    match newRegExp w source with
    | Some regex => (Returned regex, s)
    | None => (Thrown SyntaxError, s)
    end.

(** [await new Promise(resolve => setTimeout(resolve, ms))]. *)
Definition sleep (ms : Z) : M unit := fun _ s => (Returned tt, advance ms s).

(** [this.sdk.getState()]. *)
Definition getState : M (option BotWorldState) :=
  fun w s => (Returned (snapshotAt w (clock s)), s).

(** [await this.sdk.sendX(...)]: the answer is local validation only. *)
Definition send (c : Command) : M ActionResult :=
  fun w s => (Returned (respond w (clock s) c),
              advance (Z.of_N (rtt w)) (record c s)).

(** A command that is fired and not awaited. *)
Definition fire (c : Command) : M unit :=
  fun _ s => (Returned tt, record c s).

Definition sendFindPath (x z maxWaypoints : Z) : M PathResult :=
  fun w s => (Returned (pathQuery w (clock s) x z),
              advance (Z.of_N (rtt w)) (record (FindPath x z maxWaypoints) s)).

(** ** The SDK's read helpers and [waitForCondition] (src/sdk/index.ts) *)

Definition find {A} (p : A -> bool) (l : list A) : option A := List.find p l.

(** Modelled from the spec: [getInventory], [getNearbyLocs] and [getSkill]
    of src/sdk/index.ts, absent from src/.  They read the current snapshot;
    with no snapshot the collection is empty. *)
Definition getInventory : M (list InventoryItem.t) :=
  state <- getState ;;
  ret (match state with Some st => inventory st | None => [] end).

(** Modelled from the spec: [getNearbyLocs] of src/sdk/index.ts. *)
Definition getNearbyLocs : M (list NearbyLoc.t) :=
  state <- getState ;;
  ret (match state with Some st => nearbyLocs st | None => [] end).

(** Modelled from the spec: [getSkill] of src/sdk/index.ts. *)
Definition getSkill (skillName : string) : M (option Skill.t) :=
  state <- getState ;;
  ret (match state with
       | Some st => find (fun sk => String.eqb (Skill.name sk) skillName) (skills st)
       | None => None
       end).

(** Modelled from the spec: the [find...] queries of src/sdk/index.ts
    (section 4.4: query the live collection with the pattern and return the
    first match, or null; never broaden the pattern). *)
Definition findInventoryItem (pattern : RegExp) : M (option InventoryItem.t) :=
  inv <- getInventory ;;
  ret (find (fun i => test pattern (InventoryItem.name i)) inv).

(** Modelled from the spec: [findEquipmentItem] of src/sdk/index.ts. *)
Definition findEquipmentItem (pattern : RegExp) : M (option InventoryItem.t) :=
  state <- getState ;;
  ret (match state with
       | Some st => find (fun i => test pattern (InventoryItem.name i)) (equipment st)
       | None => None
       end).

(** Modelled from the spec: [findNearbyNpc] of src/sdk/index.ts. *)
Definition findNearbyNpc (pattern : RegExp) : M (option NearbyNpc.t) :=
  state <- getState ;;
  ret (match state with
       | Some st => find (fun n => test pattern (NearbyNpc.name n)) (nearbyNpcs st)
       | None => None
       end).

(** Modelled from the spec: [findNearbyLoc] of src/sdk/index.ts. *)
Definition findNearbyLoc (pattern : RegExp) : M (option NearbyLoc.t) :=
  locs <- getNearbyLocs ;;
  ret (find (fun l => test pattern (NearbyLoc.name l)) locs).

(** Modelled from the spec: [findGroundItem] of src/sdk/index.ts. *)
Definition findGroundItem (pattern : RegExp) : M (option GroundItem.t) :=
  state <- getState ;;
  ret (match state with
       | Some st => find (fun g => test pattern (GroundItem.name g)) (groundItems st)
       | None => None
       end).

(** One poll of the snapshot stream, then up to [polls] more, one every
    [pollMs]. *)
Fixpoint pollUntil (polls : nat) (predicate : BotWorldState -> bool)
  : M BotWorldState :=
  fun w s =>
    let again :=
      match polls with
      | O => (Thrown ConditionTimeout, s)
      | S n => pollUntil n predicate w (advance (Z.of_N (pollMs w)) s)
      end in
    match snapshotAt w (clock s) with
    | Some st => if predicate st then (Returned st, s) else again
    | None => again
    end.

(** Modelled from the spec: [waitForCondition(predicate, timeoutMs)] of
    src/sdk/index.ts, absent from src/ (section 4.1): it polls the snapshot
    stream until [predicate(snapshot)] is true and fails with
    [ConditionTimeout] otherwise; a null snapshot counts as "not satisfied".
    It leaves no command behind, and when it times out [timeout]
    milliseconds have passed. *)
Definition waitForCondition (predicate : BotWorldState -> bool) (timeout : Z)
  : M BotWorldState :=
  fun w s =>
    match pollUntil (Z.to_nat (timeout / Z.of_N (pollMs w))) predicate w s with
    | (Thrown e, _) => (Thrown e, advance (Z.max 0 timeout) s)
    | other => other
    end.

(** The same wait for a predicate with side effects (section 4.1: "the
    predicate may have side effects"): the predicate threads a local value
    of type [A] and names the commands it fires without awaiting them. *)
Fixpoint pollUntilFx {A} (polls : nat)
  (predicate : A -> BotWorldState -> bool * A * list Command) (a : A)
  : M BotWorldState :=
  fun w s =>
    let again a' s' :=
      match polls with
      | O => (Thrown ConditionTimeout, s')
      | S n => pollUntilFx n predicate a' w (advance (Z.of_N (pollMs w)) s')
      end in
    match snapshotAt w (clock s) with
    | Some st =>
        let '(holds, a', fired) := predicate a st in
        let s' := fold_left (fun acc c => record c acc) fired s in
        if holds then (Returned st, s') else again a' s'
    | None => again a s
    end.

Definition waitForConditionFx {A}
  (predicate : A -> BotWorldState -> bool * A * list Command) (a : A)
  (timeout : Z) : M BotWorldState :=
  fun w s =>
    match pollUntilFx (Z.to_nat (timeout / Z.of_N (pollMs w))) predicate a w s with
    | (Thrown e, s') =>
        (Thrown e, {| clock := clock s + Z.max 0 timeout; sent := sent s' |})
    | other => other
    end.

(** The same wait for a predicate that changes a local value without
    sending anything, handing back that value with the snapshot. *)
Fixpoint pollUntilSt {A} (polls : nat)
  (predicate : A -> BotWorldState -> bool * A) (a : A)
  : M (BotWorldState * A) :=
  fun w s =>
    let again a' :=
      match polls with
      | O => (Thrown ConditionTimeout, s)
      | S n => pollUntilSt n predicate a' w (advance (Z.of_N (pollMs w)) s)
      end in
    match snapshotAt w (clock s) with
    | Some st =>
        let '(holds, a') := predicate a st in
        if holds then (Returned (st, a'), s) else again a'
    | None => again a
    end.

Definition waitForConditionSt {A}
  (predicate : A -> BotWorldState -> bool * A) (a : A) (timeout : Z)
  : M (BotWorldState * A) :=
  fun w s =>
    match pollUntilSt (Z.to_nat (timeout / Z.of_N (pollMs w))) predicate a w s with
    | (Thrown e, _) => (Thrown e, advance (Z.max 0 timeout) s)
    | other => other
    end.

(** ** Distances *)

(** The radicand of [Math.sqrt(Math.pow(x - px, 2) + Math.pow(z - pz, 2))]. *)
Definition dist2 (x z px pz : Z) : Z := (x - px) * (x - px) + (z - pz) * (z - pz).

(** [Math.sqrt(d2) <= tolerance]. *)
Definition within (d2 tolerance : Z) : bool :=
  (0 <=? tolerance) && (d2 <=? tolerance * tolerance).

(** ** waitForMovementComplete *)

(** [state?.player] *)
Definition hasPlayer (state : option BotWorldState) : option Player.t :=
  match state with Some st => player st | None => None end.

Definition POLL_INTERVAL : Z := 150.
Definition STUCK_THRESHOLD : Z := 600.
Definition MIN_TIMEOUT : Z := 2000.

Record MoveResult := { arrived : bool; stoppedMoving : bool; endX : Z; endZ : Z }.

(** [elapsed < maxTimeout], where
    [maxTimeout = Math.max(MIN_TIMEOUT, (distance / 4.5) * 1000 * 1.5)] and
    [distance] is the square root of [d2]: the second bound is
    [elapsed < distance * 1000 / 3]. *)
Definition beforeMaxTimeout (elapsed d2 : Z) : bool :=
  (elapsed <? MIN_TIMEOUT) || (9 * elapsed * elapsed <? 1000000 * d2).

(** The [while (Date.now() - startTime < maxTimeout)] loop and the code
    after it; [fuel] bounds the number of polls. *)
Fixpoint moveLoop (fuel : nat) (targetX targetZ tolerance d2 startTime : Z)
  (lastX lastZ lastMoveTime : Z) : M MoveResult :=
  t <- now ;;
  if beforeMaxTimeout (t - startTime) d2 then
    match fuel with
    | O => fun _ s => (Unfinished, s)
    | S fuel' =>
        sleep POLL_INTERVAL ;;;
        state <- getState ;;
        match hasPlayer state with
        | Some p =>
            let currentX := Player.worldX p in
            let currentZ := Player.worldZ p in
            if within (dist2 targetX targetZ currentX currentZ) tolerance then
              ret {| arrived := true; stoppedMoving := false;
                     endX := currentX; endZ := currentZ |}
            else if negb (currentX =? lastX) || negb (currentZ =? lastZ) then
              t' <- now ;;
              moveLoop fuel' targetX targetZ tolerance d2 startTime
                       currentX currentZ t'
            else
              t' <- now ;;
              if t' - lastMoveTime >? STUCK_THRESHOLD then
                ret {| arrived := false; stoppedMoving := true;
                       endX := currentX; endZ := currentZ |}
              else
                moveLoop fuel' targetX targetZ tolerance d2 startTime
                         lastX lastZ lastMoveTime
        | None =>
            ret {| arrived := false; stoppedMoving := true;
                   endX := lastX; endZ := lastZ |}
        end
    end
  else
    finalState <- getState ;;
    let finalX := match hasPlayer finalState with
                  | Some p => Player.worldX p | None => lastX end in
    let finalZ := match hasPlayer finalState with
                  | Some p => Player.worldZ p | None => lastZ end in
    ret {| arrived := within (dist2 targetX targetZ finalX finalZ) tolerance;
           stoppedMoving := true; endX := finalX; endZ := finalZ |}.

(** Polls that fit before [maxTimeout]: the loop's guard fails once
    [150 * k] is at least 2000 and at least [1000 * distance / 3]. *)
Definition movePolls (d2 : Z) : nat :=
  Z.to_nat (Z.max 14 ((334 * (Z.sqrt d2 + 1)) / 150 + 1)).

Definition waitForMovementComplete (targetX targetZ tolerance : Z) : M MoveResult :=
  startState <- getState ;;
  match hasPlayer startState with
  | Some p =>
      let startX := Player.worldX p in
      let startZ := Player.worldZ p in
      let d2 := dist2 targetX targetZ startX startZ in
      startTime <- now ;;
      moveLoop (movePolls d2) targetX targetZ tolerance d2 startTime
               startX startZ startTime
  | None => ret {| arrived := false; stoppedMoving := true; endX := 0; endZ := 0 |}
  end.

(** ** walkTo *)

Definition MAX_PATH_QUERIES : nat := 80.
Definition WAYPOINT_STEP : nat := 5.
Definition INTERMEDIATE_DISTANCES : list Z := [60; 40; 25].
Definition PERPENDICULAR_OFFSETS : list Z := [0; 15; -15; 30; -30].

Definition showPoint (x z : Z) : string :=
  "(" +++ showZ x +++ ", " +++ showZ z +++ ")".

Definition noWaypoints (p : PathResult) : bool :=
  match waypoints p with
  | None | Some [] => true
  | Some (_ :: _) => false
  end.

(** The least [k >= 0] with [k * k * b >= a], for [a >= 0] and [b > 0]. *)
Definition ceilSqrtRatio (a b : Z) : Z :=
  let r := Z.sqrt (a / b) in
  if a <=? r * r * b then r else r + 1.

(** [Math.round(n / Math.sqrt(d2))], read over the reals: the floor of
    twice the quotient, plus one, halved. *)
Definition roundQuotient (n d2 : Z) : Z :=
  let floorTwice :=
    if 0 <=? n then Z.sqrt (4 * n * n / d2) else - ceilSqrtRatio (4 * n * n) d2 in
  (floorTwice + 1) / 2.

(** The search points of the [intermediateSearch] loops, in the order the
    loops visit them: [dirX = (x - currentX) / distToGoal],
    [perpX = -dirZ], [perpZ = dirX]. *)
Definition intermediatePoints (x z currentX currentZ d2 : Z) : list (Z * Z) :=
  flat_map
    (fun dist =>
       if d2 <=? dist * dist then []
       else
         map (fun offset =>
                (currentX + roundQuotient ((x - currentX) * dist - (z - currentZ) * offset) d2,
                 currentZ + roundQuotient ((z - currentZ) * dist + (x - currentX) * offset) d2))
             PERPENDICULAR_OFFSETS)
    INTERMEDIATE_DISTANCES.

(** Path-query the points in turn; stop at the first answer that has
    waypoints, otherwise keep the last answer. *)
Fixpoint intermediateSearch (points : list (Z * Z)) (pathResult : PathResult)
  : M PathResult :=
  match points with
  | [] => ret pathResult
  | (ix, iz) :: rest =>
      found <- sendFindPath ix iz 500 ;;
      if noWaypoints found then intermediateSearch rest found else ret found
  end.

(** The values [wpIndex] takes in
    [for (wpIndex = Math.min(WAYPOINT_STEP - 1, length - 1); wpIndex < length;
          wpIndex += WAYPOINT_STEP)]. *)
Fixpoint stridesFrom (fuel wpIndex length : nat) : list nat :=
  match fuel with
  | O => []
  | S fuel' =>
      if (wpIndex <? length)%nat
      then wpIndex :: stridesFrom fuel' (wpIndex + WAYPOINT_STEP) length
      else []
  end.

Definition strideIndices (length : nat) : list nat :=
  stridesFrom length (Nat.min (WAYPOINT_STEP - 1) (length - 1)) length.

Inductive StrideExit :=
| Exit (result : ActionResult)   (* [return] inside the stride loop *)
| Fallthrough.                   (* the loop ended or hit [break] *)

Fixpoint strideLoop (indices : list nat) (wps : list Waypoint)
  (x z tolerance : Z) : M StrideExit :=
  match indices with
  | [] => ret Fallthrough
  | wpIndex :: rest =>
      match nth_error wps wpIndex with
      | None => strideLoop rest wps x z tolerance
      | Some wp =>
          send (Walk (wpX wp) (wpZ wp) true) ;;;
          moveResult <- waitForMovementComplete (wpX wp) (wpZ wp) 3 ;;
          state <- getState ;;
          match hasPlayer state with
          | None => ret (Exit (failure "Lost connection during walk"))
          | Some _ =>
              if within (dist2 x z (endX moveResult) (endZ moveResult)) tolerance then
                ret (Exit (succeeded
                  ("Arrived at " +++ showPoint (endX moveResult) (endZ moveResult))))
              else if stoppedMoving moveResult && negb (arrived moveResult) then
                ret Fallthrough
              else strideLoop rest wps x z tolerance
          end
      end
  end.

(** [distToGoal - newDistToGoal < 5] on the radicands: with [a] and [b]
    the squared distances, [sqrt a < 5 + sqrt b] iff [a - b - 25 < 10 * sqrt b]. *)
Definition progressBelow5 (a b : Z) : bool :=
  (a - b - 25 <? 0) || ((a - b - 25) * (a - b - 25) <? 100 * b).

(** One pass of the body of the [for (query ...)] loop, up to the progress
    bookkeeping: it either returns from [walkTo] or reports the squared
    distances before and after the attempt and the position reached. *)
Inductive Attempt :=
| Finished (result : ActionResult)
| Replan (distToGoal2 newDistToGoal2 afterX afterZ : Z).

(** The predicate of the direct-walk fallback. *)
Definition arrivedCondition (x z tolerance : Z) (s : BotWorldState) : bool :=
  match player s with
  | None => false
  | Some sp => within (dist2 x z (Player.worldX sp) (Player.worldZ sp)) tolerance
  end.

Definition pathAttempt (x z tolerance : Z) : M Attempt :=
  currentState <- getState ;;
  match hasPlayer currentState with
  | None => ret (Finished (failure "Lost player state"))
  | Some p =>
      let currentX := Player.worldX p in
      let currentZ := Player.worldZ p in
      let distToGoal2 := dist2 x z currentX currentZ in
      if within distToGoal2 tolerance then
        ret (Finished (succeeded ("Arrived at " +++ showPoint currentX currentZ)))
      else
        first <- sendFindPath x z 500 ;;
        pathResult <-
          (if noWaypoints first && (1600 <? distToGoal2)
           then intermediateSearch
                  (intermediatePoints x z currentX currentZ distToGoal2) first
           else ret first) ;;
        if negb (pathSuccess pathResult) || noWaypoints pathResult then
          send (Walk x z true) ;;;
          tryCatch
            (waitForCondition (arrivedCondition x z tolerance) 10000 ;;;
             ret (Finished (succeeded ("Arrived at " +++ showPoint x z))))
            (ret (Finished (failure ("No path found to " +++ showPoint x z))))
        else
          let wps := match waypoints pathResult with Some l => l | None => [] end in
          strides <- strideLoop (strideIndices (List.length wps)) wps x z tolerance ;;
          match strides with
          | Exit result => ret (Finished result)
          | Fallthrough =>
              match nth_error wps (List.length wps - 1) with
              | Some lastWp =>
                  send (Walk (wpX lastWp) (wpZ lastWp) true) ;;;
                  waitForMovementComplete (wpX lastWp) (wpZ lastWp) 3 ;;;
                  ret tt
              | None => ret tt
              end ;;;
              afterState <- getState ;;
              let afterX := match hasPlayer afterState with
                            | Some ap => Player.worldX ap | None => currentX end in
              let afterZ := match hasPlayer afterState with
                            | Some ap => Player.worldZ ap | None => currentZ end in
              let newDistToGoal2 := dist2 x z afterX afterZ in
              if within newDistToGoal2 tolerance then
                ret (Finished (succeeded ("Arrived at " +++ showPoint afterX afterZ)))
              else ret (Replan distToGoal2 newDistToGoal2 afterX afterZ)
          end
  end.

(** The [for (let query = 0; query < MAX_PATH_QUERIES; query++)] loop with
    [remaining] passes to go, and the code after it. *)
Fixpoint walkQueries (remaining : nat) (stuckCount : Z)
  (x z tolerance startX startZ : Z) : M ActionResult :=
  match remaining with
  | S remaining' =>
      attempt <- pathAttempt x z tolerance ;;
      match attempt with
      | Finished result => ret result
      | Replan distToGoal2 newDistToGoal2 afterX afterZ =>
          if progressBelow5 distToGoal2 newDistToGoal2 then
            if 3 <=? stuckCount + 1 then
              ret (failure ("Stuck at " +++ showPoint afterX afterZ
                            +++ " - cannot reach " +++ showPoint x z))
            else walkQueries remaining' (stuckCount + 1) x z tolerance startX startZ
          else walkQueries remaining' 0 x z tolerance startX startZ
      end
  | O =>
      finalState <- getState ;;
      let finalX := match hasPlayer finalState with
                    | Some p => Player.worldX p | None => startX end in
      let finalZ := match hasPlayer finalState with
                    | Some p => Player.worldZ p | None => startZ end in
      let finalDist2 := dist2 x z finalX finalZ in
      ret {| success := within finalDist2 tolerance;
             message := if within finalDist2 tolerance
                        then "Arrived at " +++ showPoint finalX finalZ
                        else "Could not reach " +++ showPoint x z
                             +++ " - stopped at " +++ showPoint finalX finalZ;
             reason := None |}
  end.

Definition walkTo (x z tolerance : Z) : M ActionResult :=
  startState <- getState ;;
  match hasPlayer startState with
  | None => ret (failure "No player state")
  | Some p =>
      let startX := Player.worldX p in
      let startZ := Player.worldZ p in
      if within (dist2 x z startX startZ) tolerance then
        ret (succeeded ("Already at " +++ showPoint x z))
      else walkQueries MAX_PATH_QUERIES 0 x z tolerance startX startZ
  end.

(** ** Chat messages and option tests *)

(** [msg.tick > startTick] *)
Definition newer (startTick : Z) (m : GameMessage) : bool := msgTick m >? startTick.

(** Some message newer than [startTick] whose lower-cased text satisfies [p]. *)
Definition anyMessage (startTick : Z) (p : string -> bool)
  (msgs : list GameMessage) : bool :=
  existsb (fun m => newer startTick m && p (toLowerCase (msgText m))) msgs.

(** [for (const msg of messages) if (msg.tick > startTick) { ...return... }]:
    the first newer message that [classify] gives a result for decides. *)
Fixpoint scanMessages {R} (startTick : Z) (classify : string -> option R)
  (msgs : list GameMessage) : option R :=
  match msgs with
  | [] => None
  | m :: rest =>
      if newer startTick m then
        match classify (toLowerCase (msgText m)) with
        | Some r => Some r
        | None => scanMessages startTick classify rest
        end
      else scanMessages startTick classify rest
  end.

Definition cantReach (t : string) : bool :=
  includes t "can't reach" || includes t "cannot reach".
Definition inventoryFull (t : string) : bool :=
  includes t "inventory" && includes t "full".
Definition inCombat (t : string) : bool :=
  includes t "someone else is fighting" || includes t "already under attack".
Definition notEnough (t : string) : bool :=
  includes t "do not have enough" || includes t "don't have enough".
Definition cantSell (t : string) : bool := includes t "can't sell this item".

Definition doorPattern : RegExp := anyOfI "/door|gate/i" ["door"; "gate"]%string.
Definition isOpenOption (o : Opt) : bool := test (wholeI "/^open$/i" "open") (text o).
Definition isCloseOption (o : Opt) : bool := test (wholeI "/^close$/i" "close") (text o).

(** [state?.tick || 0] *)
Definition tickOf (state : option BotWorldState) : Z :=
  match state with Some st => tick st | None => 0 end.

Definition interfaceOpen (st : BotWorldState) : bool :=
  match interface st with Some i => Interface.isOpen i | None => false end.

(** [state?.interface?.isOpen], read as a condition. *)
Definition interfaceIsOpen (state : option BotWorldState) : bool :=
  match state with Some st => interfaceOpen st | None => false end.

(** [state?.shop.isOpen], read as a condition. *)
Definition shopIsOpen (state : option BotWorldState) : bool :=
  match state with Some st => Shop.isOpen (shop st) | None => false end.

(** ** Resolution helpers *)

Definition resolveLocation (target : option (Target NearbyLoc.t))
  (defaultPattern : RegExp) : M (option NearbyLoc.t) :=
  match target with
  | None => findNearbyLoc defaultPattern
  | Some (Handle loc) => ret (Some loc)
  | Some (Pattern r) => findNearbyLoc r
  end.

Definition resolveInventoryItem (target : option (Target InventoryItem.t))
  (defaultPattern : RegExp) : M (option InventoryItem.t) :=
  match target with
  | None => findInventoryItem defaultPattern
  | Some (Handle item) => ret (Some item)
  | Some (Pattern r) => findInventoryItem r
  end.

Definition resolveGroundItem (target : Target GroundItem.t)
  : M (option GroundItem.t) :=
  match target with
  | Handle item => ret (Some item)
  | Pattern r => findGroundItem r
  end.

Definition resolveNpc (target : Target NearbyNpc.t) : M (option NearbyNpc.t) :=
  match target with
  | Handle npc => ret (Some npc)
  | Pattern r => findNearbyNpc r
  end.

(** A shop target with [id] and [name] is looked up by id among [items]. *)
Inductive ShopTarget :=
| ShopHandle (item : ShopItem.t)
| InventoryHandle (item : InventoryItem.t)
| ShopPattern (r : RegExp).

Definition showShopTarget (t : ShopTarget) : string :=
  match t with
  | ShopPattern r => source r
  | _ => "[object Object]"
  end.

Definition resolveShopItem (target : ShopTarget) (items : list ShopItem.t)
  : option ShopItem.t :=
  match target with
  | ShopHandle h => find (fun i => ShopItem.id i =? ShopItem.id h) items
  | InventoryHandle h => find (fun i => ShopItem.id i =? InventoryItem.id h) items
  | ShopPattern r => find (fun i => test r (ShopItem.name i)) items
  end.

(** ** UI helper *)

(** Modelled from the spec: [waitForStateChange(timeoutMs)] of
    src/sdk/index.ts (section 6): it resolves at the next refresh of the
    snapshot and rejects after [timeoutMs]. *)
Definition waitForStateChange (timeout : Z) : M unit :=
  fun w s =>
    if Z.of_N (pollMs w) <=? timeout
    then (Returned tt, advance (Z.of_N (pollMs w)) s)
    else (Thrown ConditionTimeout, advance (Z.max 0 timeout) s).

Fixpoint dismissLoop (attempts : nat) : M unit :=
  match attempts with
  | O => ret tt
  | S attempts' =>
      state <- getState ;;
      match state with
      | None => ret tt
      | Some st =>
          if Dialog.isOpen (dialog st) then
            send (ClickDialog 0) ;;;
            tryCatch (waitForStateChange 2000) (ret tt) ;;;
            dismissLoop attempts'
          else ret tt
      end
  end.

Definition dismissBlockingUI : M unit := dismissLoop 10.

(** ** openDoor *)

Definition sameDoor (doorX doorZ : Z) (l : NearbyLoc.t) : bool :=
  (NearbyLoc.x l =? doorX) && (NearbyLoc.z l =? doorZ)
  && test doorPattern (NearbyLoc.name l).

Definition openDoorCondition (doorX doorZ startTick : Z) (state : BotWorldState) : bool :=
  anyMessage startTick cantReach (gameMessages state)
  || match find (sameDoor doorX doorZ) (nearbyLocs state) with
     | None => true
     | Some doorNow =>
         existsb isCloseOption (NearbyLoc.optionsWithIndex doorNow)
         && negb (existsb isOpenOption (NearbyLoc.optionsWithIndex doorNow))
     end.

(** The [try { ... } catch { ... }] that ends [openDoor]. *)
Definition openDoorAwait (door : NearbyLoc.t) (startTick : Z) : M OpenDoorResult :=
  let doorX := NearbyLoc.x door in
  let doorZ := NearbyLoc.z door in
  let dname := NearbyLoc.name door in
  tryCatch
    (waitForCondition (openDoorCondition doorX doorZ startTick) 5000 ;;;
     finalState <- getState ;;
     let msgs := match finalState with Some st => gameMessages st | None => [] end in
     if anyMessage startTick cantReach msgs then
       ret {| door_base := failureBecause ("Cannot reach " +++ dname +++ " - still blocked")
                                          "open_failed";
              door := Some door |}
     else
       match match finalState with
             | Some st => find (sameDoor doorX doorZ) (nearbyLocs st)
             | None => None
             end with
       | None => ret {| door_base := succeeded ("Opened " +++ dname); door := Some door |}
       | Some doorAfter =>
           if existsb isCloseOption (NearbyLoc.optionsWithIndex doorAfter) then
             ret {| door_base := succeeded ("Opened " +++ dname); door := Some doorAfter |}
           else
             ret {| door_base := failureBecause (dname +++ " did not open") "open_failed";
                    door := Some doorAfter |}
       end)
    (ret {| door_base := failureBecause ("Timeout waiting for " +++ dname +++ " to open")
                                        "timeout";
            door := Some door |}).

Definition alreadyOpen (dname : string) (d : NearbyLoc.t) : OpenDoorResult :=
  {| door_base := {| success := true; message := dname +++ " is already open";
                     reason := Some "already_open"%string |};
     door := Some d |}.

Definition openDoor (target : option (Target NearbyLoc.t)) : M OpenDoorResult :=
  found <- resolveLocation target doorPattern ;;
  match found with
  | None =>
      ret {| door_base := failureBecause "No door found nearby" "door_not_found";
             door := None |}
  | Some door =>
      let dname := NearbyLoc.name door in
      match find isOpenOption (NearbyLoc.optionsWithIndex door) with
      | None =>
          match find isCloseOption (NearbyLoc.optionsWithIndex door) with
          | Some _ => ret (alreadyOpen dname door)
          | None =>
              ret {| door_base :=
                       failureBecause
                         (dname +++ " has no Open option (options: "
                          +++ String.concat ", " (NearbyLoc.options door) +++ ")")
                         "no_open_option";
                     door := Some door |}
          end
      | Some openOpt =>
          let verify : M OpenDoorResult :=
            state <- getState ;;
            openDoorAwait door (tickOf state) in
          if NearbyLoc.distance door >? 2 then
            walkResult <- walkTo (NearbyLoc.x door) (NearbyLoc.z door) 3 ;;
            if negb (success walkResult) then
              ret {| door_base :=
                       failureBecause ("Could not walk to " +++ dname +++ ": "
                                       +++ message walkResult) "walk_failed";
                     door := Some door |}
            else
              locs <- getNearbyLocs ;;
              match filter (sameDoor (NearbyLoc.x door) (NearbyLoc.z door)) locs with
              | [] =>
                  ret {| door_base := succeeded (dname
                           +++ " is no longer visible (may have been opened)");
                         door := Some door |}
              | refreshedDoor :: _ =>
                  match find isOpenOption (NearbyLoc.optionsWithIndex refreshedDoor) with
                  | None =>
                      if existsb isCloseOption (NearbyLoc.optionsWithIndex refreshedDoor)
                      then ret (alreadyOpen dname refreshedDoor)
                      else
                        ret {| door_base := failureBecause
                                 (dname +++ " no longer has Open option") "no_open_option";
                               door := Some refreshedDoor |}
                  | Some refreshedOpenOpt =>
                      send (InteractLoc (NearbyLoc.x refreshedDoor) (NearbyLoc.z refreshedDoor)
                                        (NearbyLoc.id refreshedDoor) (opIndex refreshedOpenOpt)) ;;;
                      verify
                  end
              end
          else
            send (InteractLoc (NearbyLoc.x door) (NearbyLoc.z door)
                              (NearbyLoc.id door) (opIndex openOpt)) ;;;
            verify
      end
  end.

(** ** chopTree, burnLogs, pickupItem, talkTo *)

Definition treePattern : RegExp := wholeI "/^tree$/i" "tree".
Definition logsPattern : RegExp := anyOfI "/logs/i" ["logs"]%string.
Definition tinderboxPattern : RegExp := anyOfI "/tinderbox/i" ["tinderbox"]%string.

Definition chopCondition (tree : NearbyLoc.t) (invCountBefore : nat)
  (state : BotWorldState) : bool :=
  (invCountBefore <? List.length (inventory state))%nat
  || match find (fun l => (NearbyLoc.x l =? NearbyLoc.x tree)
                          && (NearbyLoc.z l =? NearbyLoc.z tree)
                          && (NearbyLoc.id l =? NearbyLoc.id tree))
                (nearbyLocs state) with
     | None => true
     | Some _ => false
     end.

Definition chopTreeAwait (tree : NearbyLoc.t) (invCountBefore : nat)
  : M ChopTreeResult :=
  tryCatch
    (waitForCondition (chopCondition tree invCountBefore) 30000 ;;;
     found <- findInventoryItem logsPattern ;;
     ret {| chop_base := succeeded "Chopped tree"; logs := found |})
    (ret {| chop_base := failure "Timed out waiting for tree chop"; logs := None |}).

Definition chopTree (target : option (Target NearbyLoc.t)) : M ChopTreeResult :=
  dismissBlockingUI ;;;
  found <- resolveLocation target treePattern ;;
  match found with
  | None => ret {| chop_base := failure "No tree found"; logs := None |}
  | Some tree =>
      inv <- getInventory ;;
      let invCountBefore := List.length inv in
      result <- send (InteractLoc (NearbyLoc.x tree) (NearbyLoc.z tree)
                                  (NearbyLoc.id tree) 1) ;;
      if negb (success result) then
        ret {| chop_base := failure (message result); logs := None |}
      else chopTreeAwait tree invCountBefore
  end.

(** [skills.find(s => s.name === n)?.experience || 0] *)
Definition experienceOf (n : string) (sk : list Skill.t) : Z :=
  match find (fun s => String.eqb (Skill.name s) n) sk with
  | Some s => Skill.experience s
  | None => 0
  end.

Definition burnFailureMessages : list string :=
  ["can't light a fire"; "you need to move"; "can't do that here"]%string.

(** The predicate of [burnLogs]: it clicks through a dialog at most once
    every three ticks, remembering the tick of its last click. *)
Definition burnCondition (fmBefore startTick : Z) (lastDialogClickTick : Z)
  (state : BotWorldState) : bool * Z * list Command :=
  if experienceOf "Firemaking" (skills state) >? fmBefore then
    (true, lastDialogClickTick, [])
  else
    let click := Dialog.isOpen (dialog state)
                 && (tick state - lastDialogClickTick >=? 3) in
    (anyMessage startTick (fun t => existsb (includes t) burnFailureMessages)
                (gameMessages state),
     if click then tick state else lastDialogClickTick,
     if click then [ClickDialog 0] else []).

Definition skillExperience (n : string) : M Z :=
  sk <- getSkill n ;;
  ret (match sk with Some s => Skill.experience s | None => 0 end).

Definition burnLogsAwait (fmBefore startTick : Z) : M BurnLogsResult :=
  tryCatch
    (waitForConditionFx (burnCondition fmBefore startTick) 0 30000 ;;;
     fmAfter <- skillExperience "Firemaking" ;;
     let xpGained := fmAfter - fmBefore in
     ret {| burn_base :=
              {| success := xpGained >? 0;
                 message := if xpGained >? 0 then "Burned logs"
                            else "Failed to light fire (possibly bad location)";
                 reason := None |};
            burn_xpGained := xpGained |})
    (ret {| burn_base := failure "Timed out waiting for fire"; burn_xpGained := 0 |}).

Definition burnLogs (logsTarget : option (Target InventoryItem.t)) : M BurnLogsResult :=
  dismissBlockingUI ;;;
  tinderbox <- findInventoryItem tinderboxPattern ;;
  match tinderbox with
  | None => ret {| burn_base := failure "No tinderbox in inventory"; burn_xpGained := 0 |}
  | Some tinderbox =>
      found <- resolveInventoryItem logsTarget logsPattern ;;
      match found with
      | None => ret {| burn_base := failure "No logs in inventory"; burn_xpGained := 0 |}
      | Some logsItem =>
          fmBefore <- skillExperience "Firemaking" ;;
          result <- send (UseItemOnItem (InventoryItem.slot tinderbox)
                                        (InventoryItem.slot logsItem)) ;;
          if negb (success result) then
            ret {| burn_base := failure (message result); burn_xpGained := 0 |}
          else
            state <- getState ;;
            burnLogsAwait fmBefore (tickOf state)
      end
  end.

Definition pickupCondition (startTick : Z) (invCountBefore : nat)
  (state : BotWorldState) : bool :=
  anyMessage startTick (fun t => cantReach t || inventoryFull t) (gameMessages state)
  || (invCountBefore <? List.length (inventory state))%nat.

Definition pickupFailure (item : GroundItem.t) (t : string) : option PickupResult :=
  if cantReach t then
    Some {| pickup_base :=
              failureBecause ("Cannot reach " +++ GroundItem.name item +++ " at "
                              +++ showPoint (GroundItem.x item) (GroundItem.z item)
                              +++ " - path blocked") "cant_reach";
            pickup_item := None |}
  else if inventoryFull t then
    Some {| pickup_base := failureBecause "Inventory is full" "inventory_full";
            pickup_item := None |}
  else None.

Definition pickupItemAwait (item : GroundItem.t) (startTick : Z)
  (invCountBefore : nat) : M PickupResult :=
  tryCatch
    (finalState <- waitForCondition (pickupCondition startTick invCountBefore) 10000 ;;
     match scanMessages startTick (pickupFailure item) (gameMessages finalState) with
     | Some failed => ret failed
     | None =>
         inv <- getInventory ;;
         ret {| pickup_base := succeeded ("Picked up " +++ GroundItem.name item);
                pickup_item :=
                  find (fun i => InventoryItem.id i =? GroundItem.id item) inv |}
     end)
    (ret {| pickup_base := failureBecause "Timed out waiting for pickup" "timeout";
            pickup_item := None |}).

Definition pickupItem (target : Target GroundItem.t) : M PickupResult :=
  found <- resolveGroundItem target ;;
  match found with
  | None =>
      ret {| pickup_base := failureBecause "Item not found on ground" "item_not_found";
             pickup_item := None |}
  | Some item =>
      inv <- getInventory ;;
      let invCountBefore := List.length inv in
      state <- getState ;;
      let startTick := tickOf state in
      result <- send (Pickup (GroundItem.x item) (GroundItem.z item) (GroundItem.id item)) ;;
      if negb (success result) then
        ret {| pickup_base := failure (message result); pickup_item := None |}
      else pickupItemAwait item startTick invCountBefore
  end.

Definition dialogOpenCondition (s : BotWorldState) : bool := Dialog.isOpen (dialog s).

Definition talkToAwait (npc : NearbyNpc.t) : M TalkResult :=
  tryCatch
    (state <- waitForCondition dialogOpenCondition 10000 ;;
     ret {| talk_base := succeeded ("Talking to " +++ NearbyNpc.name npc);
            talk_dialog := Some (dialog state) |})
    (ret {| talk_base := failure "Timed out waiting for dialog"; talk_dialog := None |}).

Definition talkTo (target : Target NearbyNpc.t) : M TalkResult :=
  found <- resolveNpc target ;;
  match found with
  | None => ret {| talk_base := failure "NPC not found"; talk_dialog := None |}
  | Some npc =>
      result <- send (TalkToNpc (NearbyNpc.index npc)) ;;
      if negb (success result) then
        ret {| talk_base := failure (message result); talk_dialog := None |}
      else talkToAwait npc
  end.

(** ** Shop actions *)

Definition showOpen (known : bool) (isOpen : bool) : string :=
  if known then showBool isOpen else "undefined".

Definition closedCondition (s : BotWorldState) : bool :=
  negb (Shop.isOpen (shop s)) && negb (interfaceOpen s).

Definition closeShop (timeout : Z) : M ActionResult :=
  state <- getState ;;
  if negb (shopIsOpen state) && negb (interfaceIsOpen state) then
    ret (succeeded "Shop already closed")
  else
    send CloseShop ;;;
    tryCatch
      (waitForCondition closedCondition timeout ;;;
       ret (succeeded "Shop closed"))
      (send CloseShop ;;;
       sleep 500 ;;;
       finalState <- getState ;;
       if negb (shopIsOpen finalState) && negb (interfaceIsOpen finalState) then
         ret (succeeded "Shop closed (second attempt)")
       else
         ret (failure
           ("Shop close timeout - shop.isOpen="
            +++ showOpen (match finalState with Some _ => true | None => false end)
                         (shopIsOpen finalState)
            +++ ", interface.isOpen="
            +++ showOpen (match finalState with
                          | Some st => match interface st with Some _ => true | None => false end
                          | None => false
                          end)
                         (interfaceIsOpen finalState)))).

(** [/shop\s*keeper/i], the default target of [openShop]. *)
Definition isSpace (c : ascii) : bool :=
  Ascii.eqb c " "%char || Ascii.eqb c "009"%char
  || Ascii.eqb c "010"%char || Ascii.eqb c "013"%char.

Fixpoint skipSpaces (s : string) : string :=
  match s with
  | String c r => if isSpace c then skipSpaces r else s
  | EmptyString => s
  end.

Fixpoint shopKeeperIn (s : string) : bool :=
  (String.prefix "shop" s
   && String.prefix "keeper" (skipSpaces (String.substring 4 (String.length s - 4) s)))
  || match s with
     | EmptyString => false
     | String _ r => shopKeeperIn r
     end.

Definition shopKeeperPattern : RegExp :=
  {| source := "/shop\s*keeper/i"; test := fun s => shopKeeperIn (toLowerCase s) |}.

Definition tradePattern : RegExp := anyOfI "/trade/i" ["trade"]%string.

Definition shopOpenCondition (state : BotWorldState) : bool := Shop.isOpen (shop state).

Definition openShopAwait : M ActionResult :=
  tryCatch
    (waitForCondition shopOpenCondition 10000 ;;;
     state <- getState ;;
     ret (succeeded ("Opened shop: "
                     +++ match state with
                         | Some st => Shop.title (shop st)
                         | None => "undefined"
                         end)))
    (ret (failure "Timed out waiting for shop to open")).

Definition openShop (target : Target NearbyNpc.t) : M ActionResult :=
  found <- resolveNpc target ;;
  match found with
  | None => ret (failure "Shopkeeper not found")
  | Some npc =>
      match find (fun o => test tradePattern (text o)) (NearbyNpc.optionsWithIndex npc) with
      | None => ret (failure "No trade option on NPC")
      | Some tradeOpt =>
          result <- send (InteractNpc (NearbyNpc.index npc) (opIndex tradeOpt)) ;;
          if negb (success result) then ret result
          else openShopAwait
      end
  end.

Definition buyCondition (shopItemId : Z) (countBefore : N) (state : BotWorldState) : bool :=
  match find (fun i => InventoryItem.id i =? shopItemId) (inventory state) with
  | None => false
  | Some item => (countBefore <? InventoryItem.count item)%N
  end.

Definition buyFromShopAwait (shopItem : ShopItem.t) (countBefore : N) (amount : Z)
  : M ShopResult :=
  tryCatch
    (waitForCondition (buyCondition (ShopItem.id shopItem) countBefore) 5000 ;;;
     inv <- getInventory ;;
     ret {| buy_base := succeeded ("Bought " +++ ShopItem.name shopItem
                                   +++ " x" +++ showZ amount);
            buy_item := find (fun i => InventoryItem.id i =? ShopItem.id shopItem) inv |})
    (ret {| buy_base := failure ("Failed to buy " +++ ShopItem.name shopItem
                                 +++ " (no coins or out of stock?)");
            buy_item := None |}).

Definition buyFromShop (target : ShopTarget) (amount : Z) : M ShopResult :=
  state <- getState ;;
  match state with
  | Some st =>
      if Shop.isOpen (shop st) then
        match resolveShopItem target (Shop.shopItems (shop st)) with
        | None =>
            ret {| buy_base := failure ("Item not found in shop: " +++ showShopTarget target);
                   buy_item := None |}
        | Some shopItem =>
            invBefore <- getInventory ;;
            let countBefore :=
              match find (fun i => InventoryItem.id i =? ShopItem.id shopItem) invBefore with
              | Some had => InventoryItem.count had
              | None => 0%N
              end in
            result <- send (ShopBuy (ShopItem.slot shopItem) amount) ;;
            if negb (success result) then
              ret {| buy_base := failure (message result); buy_item := None |}
            else buyFromShopAwait shopItem countBefore amount
        end
      else ret {| buy_base := failure "Shop is not open"; buy_item := None |}
  | None => ret {| buy_base := failure "Shop is not open"; buy_item := None |}
  end.

(** [playerItems.filter(i => i.id === id).reduce((sum, i) => sum + i.count, 0)] *)
Definition getTotalCount (itemId : Z) (playerItems : list ShopItem.t) : N :=
  fold_left (fun sum i => (sum + ShopItem.count i)%N)
            (filter (fun i => ShopItem.id i =? itemId) playerItems) 0%N.

Definition sellCondition (itemId startTick : Z) (totalCountBefore : N)
  (state : BotWorldState) : bool :=
  anyMessage startTick cantSell (gameMessages state)
  || (getTotalCount itemId (Shop.playerItems (shop state)) <? totalCountBefore)%N.

Definition notSold (msg : string) : ShopSellResult :=
  {| sell_base := failure msg; amountSold := None; rejected := false |}.

Definition sellRejection (sellItem : ShopItem.t) (t : string) : option ShopSellResult :=
  let refused msg := Some {| sell_base := failure msg; amountSold := None; rejected := true |} in
  if includes t "can't sell this item to this shop" then
    refused ("Shop doesn't buy " +++ ShopItem.name sellItem)
  else if includes t "can't sell this item to a shop" then
    refused ("Cannot sell " +++ ShopItem.name sellItem +++ " to any shop")
  else if includes t "can't sell this item" then
    refused (ShopItem.name sellItem +++ " is not tradeable")
  else None.

Definition sellToShopAwait (sellItem : ShopItem.t) (startTick : Z)
  (totalCountBefore : N) : M ShopSellResult :=
  tryCatch
    (finalState <- waitForCondition
                     (sellCondition (ShopItem.id sellItem) startTick totalCountBefore) 5000 ;;
     match scanMessages startTick (sellRejection sellItem) (gameMessages finalState) with
     | Some refused => ret refused
     | None =>
         let totalCountAfter :=
           getTotalCount (ShopItem.id sellItem) (Shop.playerItems (shop finalState)) in
         let sold := Z.of_N totalCountBefore - Z.of_N totalCountAfter in
         ret {| sell_base := succeeded ("Sold " +++ ShopItem.name sellItem
                                        +++ " x" +++ showZ sold);
                amountSold := Some sold; rejected := false |}
     end)
    (ret (notSold ("Failed to sell " +++ ShopItem.name sellItem +++ " (timeout)"))).

(** *** sellAllToShop *)

Definition sellAllRejection (sellItem : ShopItem.t) (totalSold : Z) (t : string)
  : option ShopSellResult :=
  if includes t "can't sell this item to this shop" then
    Some {| sell_base :=
              {| success := totalSold >? 0;
                 message := if totalSold >? 0
                            then "Sold " +++ ShopItem.name sellItem +++ " x"
                                 +++ showZ totalSold +++ ", then shop stopped buying"
                            else "Shop doesn't buy " +++ ShopItem.name sellItem;
                 reason := None |};
            amountSold := Some totalSold; rejected := true |}
  else if includes t "can't sell this item" then
    Some {| sell_base := failure (ShopItem.name sellItem +++ " cannot be sold");
            amountSold := Some totalSold; rejected := true |}
  else None.

(** How one pass of the [while (true)] loop ends. *)
Inductive Batch :=
| Answer (result : ShopSellResult)   (* [return] inside the loop *)
| Break (totalSold : Z)              (* [break] *)
| Next (totalSold : Z).              (* go round again *)

(** What the [try] block does with the snapshot the wait returned. *)
Definition afterBatch (sellItem : ShopItem.t) (startTick totalSold : Z)
  (totalCountBefore : N) (finalState : BotWorldState) : Batch :=
  match scanMessages startTick (sellAllRejection sellItem totalSold)
                     (gameMessages finalState) with
  | Some refused => Answer refused
  | None =>
      let totalCountAfter :=
        getTotalCount (ShopItem.id sellItem) (Shop.playerItems (shop finalState)) in
      let soldThisRound := Z.of_N totalCountBefore - Z.of_N totalCountAfter in
      if soldThisRound =? 0 then Break (totalSold + soldThisRound)
      else Next (totalSold + soldThisRound)
  end.

Definition MAX_PER_CLICK : N := 10.

Definition sellBatch (sellItem : ShopItem.t) (startTick totalSold : Z) : M Batch :=
  state <- getState ;;
  match state with
  | Some st =>
      if Shop.isOpen (shop st) then
        match find (fun i => ShopItem.id i =? ShopItem.id sellItem)
                   (Shop.playerItems (shop st)) with
        | None => ret (Break totalSold)
        | Some currentItem =>
            if (ShopItem.count currentItem =? 0)%N then ret (Break totalSold)
            else
              let totalCountBefore :=
                getTotalCount (ShopItem.id sellItem) (Shop.playerItems (shop st)) in
              let sellAmount := N.min MAX_PER_CLICK (ShopItem.count currentItem) in
              let currentSlot := ShopItem.slot currentItem in
              result <- send (ShopSell currentSlot (Z.of_N sellAmount)) ;;
              if negb (success result) then ret (Break totalSold)
              else
                tryCatch
                  (finalState <- waitForCondition
                     (sellCondition (ShopItem.id sellItem) startTick totalCountBefore) 3000 ;;
                   ret (afterBatch sellItem startTick totalSold totalCountBefore finalState))
                  (ret (Break totalSold))
        end
      else ret (Break totalSold)
  | None => ret (Break totalSold)
  end.

Definition sellAllSummary (sellItem : ShopItem.t) (totalSold : Z) : ShopSellResult :=
  if totalSold =? 0 then notSold ("Failed to sell any " +++ ShopItem.name sellItem)
  else {| sell_base := succeeded ("Sold " +++ ShopItem.name sellItem
                                  +++ " x" +++ showZ totalSold);
          amountSold := Some totalSold; rejected := false |}.

(** The [while (true)] loop, unrolled at most [fuel] times, followed by the
    summary after it. *)
Fixpoint sellAllLoop (fuel : nat) (sellItem : ShopItem.t) (startTick totalSold : Z)
  : M ShopSellResult :=
  match fuel with
  | O => fun _ s => (Unfinished, s)
  | S fuel' =>
      batch <- sellBatch sellItem startTick totalSold ;;
      match batch with
      | Answer result => ret result
      | Break total => ret (sellAllSummary sellItem total)
      | Next total => sellAllLoop fuel' sellItem startTick total
      end
  end.

(** Units of the item held according to the current snapshot. *)
Definition unitsHeld (itemId : Z) (state : option BotWorldState) : N :=
  match state with
  | Some st => getTotalCount itemId (Shop.playerItems (shop st))
  | None => 0%N
  end.

(** The source loop has no bound of its own.  Every pass that goes round
    again has lowered the units held, so one pass more than the units held
    at entry is enough ([sellAllLoop_spec]). *)
Definition sellAllToShop (sellItem : ShopItem.t) (startTick : Z) : M ShopSellResult :=
  state <- getState ;;
  sellAllLoop (S (N.to_nat (unitsHeld (ShopItem.id sellItem) state)))
              sellItem startTick 0.

Inductive SellAmount :=
| Units (amount : Z)
| All.

Definition sellToShop (target : ShopTarget) (amount : SellAmount) : M ShopSellResult :=
  state <- getState ;;
  match state with
  | Some st =>
      if Shop.isOpen (shop st) then
        match resolveShopItem target (Shop.playerItems (shop st)) with
        | None => ret (notSold ("Item not found to sell: " +++ showShopTarget target))
        | Some sellItem =>
            tickState <- getState ;;
            let startTick := tickOf tickState in
            match amount with
            | All => sellAllToShop sellItem startTick
            | Units amount =>
                let validAmount :=
                  if existsb (Z.eqb amount) [1; 5; 10] then amount else 1 in
                result <- send (ShopSell (ShopItem.slot sellItem) validAmount) ;;
                if negb (success result) then ret (notSold (message result))
                else
                  let totalCountBefore :=
                    getTotalCount (ShopItem.id sellItem) (Shop.playerItems (shop st)) in
                  sellToShopAwait sellItem startTick totalCountBefore
            end
        end
      else ret (notSold "Shop is not open")
  | None => ret (notSold "Shop is not open")
  end.

(** ** Bank actions *)

Definition bankerPattern : RegExp := anyOfI "/banker/i" ["banker"]%string.
Definition bankBoothPattern : RegExp :=
  anyOfI "/bank booth|bank chest/i" ["bank booth"; "bank chest"]%string.
Definition isBankOption (o : Opt) : bool := test (wholeI "/^bank$/i" "bank") (text o).
Definition isUseOption (o : Opt) : bool := test (anyOfI "/use/i" ["use"]%string) (text o).

Definition bankOpened (state : option BotWorldState) : ActionResult :=
  succeeded ("Bank opened (interfaceId: "
             +++ match state with
                 | Some {| interface := Some i |} => showZ (Interface.interfaceId i)
                 | _ => "undefined"
                 end +++ ")").

Definition openBankCondition (s : BotWorldState) : bool :=
  interfaceOpen s || Dialog.isOpen (dialog s).

(** The [while (Date.now() - startTime < timeout)] loop of [openBank] and
    the code after it; [fuel] bounds the number of passes. *)
Fixpoint openBankLoop (fuel : nat) (startTime timeout : Z) : M ActionResult :=
  t <- now ;;
  if t - startTime <? timeout then
    match fuel with
    | O => fun _ s => (Unfinished, s)
    | S fuel' =>
        step <-
          tryCatch
            (waitForCondition openBankCondition
                              (Z.min 2000 (timeout - (t - startTime))) ;;;
             currentState <- getState ;;
             if interfaceIsOpen currentState then ret (Some (bankOpened currentState))
             else
               match currentState with
               | Some st =>
                   if Dialog.isOpen (dialog st) then
                     send (ClickDialog
                             match Dialog.options (dialog st) with
                             | opt :: _ => Dialog.index opt
                             | [] => 0
                             end) ;;;
                     sleep 300 ;;;
                     ret None
                   else ret None
               | None => ret None
               end)
            (ret None) ;;
        match step with
        | Some result => ret result
        | None => openBankLoop fuel' startTime timeout
        end
    end
  else
    finalState <- getState ;;
    if interfaceIsOpen finalState then ret (bankOpened finalState)
    else ret (failureBecause "Timeout waiting for bank interface to open" "timeout").

(** Every pass that goes round again takes at least 300 ms or reaches the
    deadline, so this many passes are never used up ([openBank_returns]). *)
Definition openBankPasses (timeout : Z) : nat := Z.to_nat (timeout / 300 + 2).

Definition openBank (timeout : Z) : M ActionResult :=
  state <- getState ;;
  if interfaceIsOpen state then ret (succeeded "Bank already open")
  else
    dismissBlockingUI ;;;
    banker <- findNearbyNpc bankerPattern ;;
    bankBooth <- findNearbyLoc bankBoothPattern ;;
    viaBanker <-
      match banker with
      | Some b =>
          match find isBankOption (NearbyNpc.optionsWithIndex b) with
          | Some bankOpt =>
              send (InteractNpc (NearbyNpc.index b) (opIndex bankOpt)) ;;; ret true
          | None => ret false
          end
      | None => ret false
      end ;;
    interactSuccess <-
      (if viaBanker then ret true
       else
         match bankBooth with
         | Some booth =>
             match
               match find isBankOption (NearbyLoc.optionsWithIndex booth) with
               | Some o => Some o
               | None => find isUseOption (NearbyLoc.optionsWithIndex booth)
               end
             with
             | Some bankOpt =>
                 send (InteractLoc (NearbyLoc.x booth) (NearbyLoc.z booth)
                                   (NearbyLoc.id booth) (opIndex bankOpt)) ;;; ret true
             | None => ret false
             end
         | None => ret false
         end) ;;
    if negb interactSuccess then
      ret (failureBecause "No banker NPC or bank booth found nearby" "no_bank_found")
    else
      startTime <- now ;;
      openBankLoop (openBankPasses timeout) startTime timeout.

Definition bankClosedCondition (s : BotWorldState) : bool := negb (interfaceOpen s).

Definition closeBank (timeout : Z) : M ActionResult :=
  state <- getState ;;
  if negb (interfaceIsOpen state) then ret (succeeded "Bank already closed")
  else
    send CloseModal ;;;
    tryCatch
      (waitForCondition bankClosedCondition timeout ;;;
       ret (succeeded "Bank closed"))
      (send CloseModal ;;;
       sleep 500 ;;;
       finalState <- getState ;;
       if negb (interfaceIsOpen finalState) then
         ret (succeeded "Bank closed (second attempt)")
       else
         ret (failure
           ("Bank close timeout - interface.isOpen="
            +++ showOpen (match finalState with
                          | Some st => match interface st with Some _ => true | None => false end
                          | None => false
                          end)
                         (interfaceIsOpen finalState)))).

(** [inventory.filter(i => i.id === id).reduce((sum, i) => sum + i.count, 0)] *)
Definition inventoryCount (itemId : Z) (inv : list InventoryItem.t) : N :=
  fold_left (fun sum i => (sum + InventoryItem.count i)%N)
            (filter (fun i => InventoryItem.id i =? itemId) inv) 0%N.

Definition depositCondition (itemId : Z) (countBefore : N) (s : BotWorldState) : bool :=
  (inventoryCount itemId (inventory s) <? countBefore)%N.

Definition depositItemAwait (item : InventoryItem.t) (countBefore : N)
  : M BankDepositResult :=
  tryCatch
    (waitForCondition (depositCondition (InventoryItem.id item) countBefore) 5000 ;;;
     finalState <- getState ;;
     let countAfter :=
       match finalState with
       | Some st => inventoryCount (InventoryItem.id item) (inventory st)
       | None => 0%N
       end in
     let deposited := Z.of_N countBefore - Z.of_N countAfter in
     ret {| deposit_base := succeeded ("Deposited " +++ InventoryItem.name item
                                       +++ " x" +++ showZ deposited);
            amountDeposited := Some deposited |})
    (ret {| deposit_base :=
              failureBecause ("Timeout waiting for " +++ InventoryItem.name item
                              +++ " to be deposited") "timeout";
            amountDeposited := None |}).

Definition depositItem (target : Target InventoryItem.t) (amount : Z)
  : M BankDepositResult :=
  state <- getState ;;
  match state with
  | Some st =>
      if interfaceOpen st then
        found <- resolveInventoryItem (Some target) anyChar ;;
        match found with
        | None =>
            ret {| deposit_base :=
                     failureBecause ("Item not found in inventory: " +++ showTarget target)
                                    "item_not_found";
                   amountDeposited := None |}
        | Some item =>
            let countBefore := inventoryCount (InventoryItem.id item) (inventory st) in
            send (BankDeposit (InventoryItem.slot item) amount) ;;;
            depositItemAwait item countBefore
        end
      else
        ret {| deposit_base := failureBecause "Bank is not open" "bank_not_open";
               amountDeposited := None |}
  | None =>
      ret {| deposit_base := failureBecause "Bank is not open" "bank_not_open";
             amountDeposited := None |}
  end.

Definition grewSince (before : list InventoryItem.t) (i : InventoryItem.t) : option bool :=
  match find (fun bi => InventoryItem.slot bi =? InventoryItem.slot i) before with
  | Some b => Some (InventoryItem.count b <? InventoryItem.count i)%N
  | None => None
  end.

Definition withdrawCondition (before : list InventoryItem.t) (s : BotWorldState) : bool :=
  (List.length before <? List.length (inventory s))%nat
  || existsb (fun i => match grewSince before i with Some b => b | None => false end)
             (inventory s).

Definition withdrawItemAwait (before : list InventoryItem.t) (bankSlot : Z)
  : M BankWithdrawResult :=
  tryCatch
    (waitForCondition (withdrawCondition before) 5000 ;;;
     finalInv <- getInventory ;;
     ret {| withdraw_base := succeeded ("Withdrew item from bank slot " +++ showZ bankSlot);
            withdraw_item :=
              find (fun i => match grewSince before i with Some b => b | None => true end)
                   finalInv |})
    (ret {| withdraw_base :=
              failureBecause "Timeout waiting for item to be withdrawn" "timeout";
            withdraw_item := None |}).

Definition withdrawItem (bankSlot amount : Z) : M BankWithdrawResult :=
  state <- getState ;;
  match state with
  | Some st =>
      if interfaceOpen st then
        send (BankWithdraw bankSlot amount) ;;;
        withdrawItemAwait (inventory st) bankSlot
      else
        ret {| withdraw_base := failureBecause "Bank is not open" "bank_not_open";
               withdraw_item := None |}
  | None =>
      ret {| withdraw_base := failureBecause "Bank is not open" "bank_not_open";
             withdraw_item := None |}
  end.

(** ** Equipment and combat *)

Definition equipPattern : RegExp :=
  anyOfI "/wield|wear|equip/i" ["wield"; "wear"; "equip"]%string.
Definition eatPattern : RegExp := anyOfI "/eat/i" ["eat"]%string.
Definition attackPattern : RegExp := anyOfI "/attack/i" ["attack"]%string.

Definition equipCondition (item : InventoryItem.t) (state : BotWorldState) : bool :=
  match find (fun i => (InventoryItem.slot i =? InventoryItem.slot item)
                       && (InventoryItem.id i =? InventoryItem.id item))
             (inventory state) with
  | None => true
  | Some _ => false
  end.

Definition equipItemAwait (item : InventoryItem.t) : M EquipResult :=
  tryCatch
    (waitForCondition (equipCondition item) 5000 ;;;
     ret {| equip_base := succeeded ("Equipped " +++ InventoryItem.name item) |})
    (ret {| equip_base := failure ("Failed to equip " +++ InventoryItem.name item) |}).

Definition equipItem (target : Target InventoryItem.t) : M EquipResult :=
  found <- resolveInventoryItem (Some target) anyChar ;;
  match found with
  | None => ret {| equip_base := failure ("Item not found: " +++ showTarget target) |}
  | Some item =>
      match find (fun o => test equipPattern (text o))
                 (InventoryItem.optionsWithIndex item) with
      | None =>
          ret {| equip_base := failure ("No equip option on " +++ InventoryItem.name item) |}
      | Some equipOpt =>
          result <- send (UseItem (InventoryItem.slot item) (opIndex equipOpt)) ;;
          if negb (success result) then ret {| equip_base := failure (message result) |}
          else equipItemAwait item
      end
  end.

Definition unequipCondition (item : InventoryItem.t) (invCountBefore : nat)
  (state : BotWorldState) : bool :=
  (invCountBefore <? List.length (inventory state))%nat
  || existsb (fun i => InventoryItem.id i =? InventoryItem.id item) (inventory state).

Definition unequipItemAwait (item : InventoryItem.t) (invCountBefore : nat)
  : M UnequipResult :=
  tryCatch
    (waitForCondition (unequipCondition item invCountBefore) 5000 ;;;
     regex <- regExpOf (InventoryItem.name item) ;;
     unequipped <- findInventoryItem regex ;;
     ret {| unequip_base := succeeded ("Unequipped " +++ InventoryItem.name item);
            unequip_item := unequipped |})
    (ret {| unequip_base := failure ("Failed to unequip " +++ InventoryItem.name item);
            unequip_item := None |}).

Definition unequipItem (target : Target InventoryItem.t) : M UnequipResult :=
  found <- match target with
           | Handle item => ret (Some item)
           | Pattern r => findEquipmentItem r
           end ;;
  match found with
  | None =>
      ret {| unequip_base := failure ("Item not found in equipment: " +++ showTarget target);
             unequip_item := None |}
  | Some item =>
      inv <- getInventory ;;
      let invCountBefore := List.length inv in
      result <- send (UseEquipmentItem (InventoryItem.slot item) 1) ;;
      if negb (success result) then
        ret {| unequip_base := failure (message result); unequip_item := None |}
      else unequipItemAwait item invCountBefore
  end.

(** [skills.find(s => s.name === 'Hitpoints')?.level ?? 10] *)
Definition hitpointsOf (sk : list Skill.t) : Z :=
  match find (fun s => String.eqb (Skill.name s) "Hitpoints") sk with
  | Some s => Skill.level s
  | None => 10
  end.

Definition hitpoints : M Z :=
  sk <- getSkill "Hitpoints" ;;
  ret (match sk with Some s => Skill.level s | None => 10 end).

Definition foodCount (foodId : Z) (inv : list InventoryItem.t) : nat :=
  List.length (filter (fun i => InventoryItem.id i =? foodId) inv).

Definition eatCondition (food : InventoryItem.t) (hpBefore : Z) (foodCountBefore : nat)
  (state : BotWorldState) : bool :=
  (hitpointsOf (skills state) >? hpBefore)
  || (foodCount (InventoryItem.id food) (inventory state) <? foodCountBefore)%nat.

Definition eatFoodAwait (food : InventoryItem.t) (hpBefore : Z) (foodCountBefore : nat)
  : M EatResult :=
  tryCatch
    (waitForCondition (eatCondition food hpBefore foodCountBefore) 5000 ;;;
     hpAfter <- hitpoints ;;
     ret {| eat_base := succeeded ("Ate " +++ InventoryItem.name food);
            hpGained := hpAfter - hpBefore |})
    (ret {| eat_base := failure ("Failed to eat " +++ InventoryItem.name food);
            hpGained := 0 |}).

Definition eatFood (target : Target InventoryItem.t) : M EatResult :=
  found <- resolveInventoryItem (Some target) anyChar ;;
  match found with
  | None =>
      ret {| eat_base := failure ("Food not found: " +++ showTarget target); hpGained := 0 |}
  | Some food =>
      match find (fun o => test eatPattern (text o))
                 (InventoryItem.optionsWithIndex food) with
      | None =>
          ret {| eat_base := failure ("No eat option on " +++ InventoryItem.name food);
                 hpGained := 0 |}
      | Some eatOpt =>
          hpBefore <- hitpoints ;;
          inv <- getInventory ;;
          let foodCountBefore := foodCount (InventoryItem.id food) inv in
          result <- send (UseItem (InventoryItem.slot food) (opIndex eatOpt)) ;;
          if negb (success result) then
            ret {| eat_base := failure (message result); hpGained := 0 |}
          else eatFoodAwait food hpBefore foodCountBefore
      end
  end.

Definition attackCondition (npcIndex startTick : Z) (state : BotWorldState) : bool :=
  anyMessage startTick (fun t => cantReach t || inCombat t) (gameMessages state)
  || match find (fun n => NearbyNpc.index n =? npcIndex) (nearbyNpcs state) with
     | None => true
     | Some targetNpc => NearbyNpc.distance targetNpc <=? 2
     end.

Definition attackFailure (npc : NearbyNpc.t) (t : string) : option AttackResult :=
  if cantReach t then
    Some {| attack_base :=
              failureBecause ("Cannot reach " +++ NearbyNpc.name npc
                              +++ " - obstacle in the way") "out_of_reach" |}
  else if inCombat t then
    Some {| attack_base :=
              failureBecause (NearbyNpc.name npc +++ " is already in combat")
                             "already_in_combat" |}
  else None.

(** What [attackNpc] answers once the wait has returned [finalState]. *)
Definition attackVerdict (npc : NearbyNpc.t) (startTick : Z)
  (finalState : BotWorldState) : AttackResult :=
  match scanMessages startTick (attackFailure npc) (gameMessages finalState) with
  | Some failed => failed
  | None => {| attack_base := succeeded ("Attacking " +++ NearbyNpc.name npc) |}
  end.

Definition attackNpcAwait (npc : NearbyNpc.t) (startTick timeout : Z) : M AttackResult :=
  tryCatch
    (finalState <- waitForCondition (attackCondition (NearbyNpc.index npc) startTick)
                                    timeout ;;
     ret (attackVerdict npc startTick finalState))
    (ret {| attack_base :=
              failureBecause ("Timeout waiting to attack " +++ NearbyNpc.name npc)
                             "timeout" |}).

Definition attackNpc (target : Target NearbyNpc.t) (timeout : Z) : M AttackResult :=
  found <- resolveNpc target ;;
  match found with
  | None =>
      ret {| attack_base := failureBecause ("NPC not found: " +++ showTarget target)
                                           "npc_not_found" |}
  | Some npc =>
      match find (fun o => test attackPattern (text o))
                 (NearbyNpc.optionsWithIndex npc) with
      | None =>
          ret {| attack_base :=
                   failureBecause ("No attack option on " +++ NearbyNpc.name npc)
                                  "no_attack_option" |}
      | Some attackOpt =>
          state <- getState ;;
          let startTick := tickOf state in
          result <- send (InteractNpc (NearbyNpc.index npc) (opIndex attackOpt)) ;;
          if negb (success result) then ret {| attack_base := failure (message result) |}
          else attackNpcAwait npc startTick timeout
      end
  end.

Definition castCondition (startTick startMagicXp : Z) (state : BotWorldState) : bool :=
  anyMessage startTick (fun t => cantReach t || notEnough t) (gameMessages state)
  || (experienceOf "Magic" (skills state) >? startMagicXp).

Definition castFailure (npc : NearbyNpc.t) (t : string) : option CastSpellResult :=
  if cantReach t then
    Some {| cast_base :=
              failureBecause ("Cannot reach " +++ NearbyNpc.name npc
                              +++ " - obstacle in the way") "out_of_reach";
            hit := None; cast_xpGained := None |}
  else if notEnough t then
    Some {| cast_base := failureBecause "Not enough runes to cast spell" "no_runes";
            hit := None; cast_xpGained := None |}
  else None.

Definition castSpellOnNpcAwait (npc : NearbyNpc.t) (startTick startMagicXp timeout : Z)
  : M CastSpellResult :=
  tryCatch
    (finalState <- waitForCondition (castCondition startTick startMagicXp) timeout ;;
     match scanMessages startTick (castFailure npc) (gameMessages finalState) with
     | Some failed => ret failed
     | None =>
         let xpGained := experienceOf "Magic" (skills finalState) - startMagicXp in
         if xpGained >? 0 then
           ret {| cast_base := succeeded ("Hit " +++ NearbyNpc.name npc +++ " for "
                                          +++ showZ xpGained +++ " Magic XP");
                  hit := Some true; cast_xpGained := Some xpGained |}
         else
           ret {| cast_base := succeeded ("Splashed on " +++ NearbyNpc.name npc);
                  hit := Some false; cast_xpGained := Some 0 |}
     end)
    (ret {| cast_base := succeeded ("Splashed on " +++ NearbyNpc.name npc +++ " (timeout)");
            hit := Some false; cast_xpGained := Some 0 |}).

Definition castSpellOnNpc (target : Target NearbyNpc.t) (spellComponent timeout : Z)
  : M CastSpellResult :=
  found <- resolveNpc target ;;
  match found with
  | None =>
      ret {| cast_base := failureBecause ("NPC not found: " +++ showTarget target)
                                         "npc_not_found";
             hit := None; cast_xpGained := None |}
  | Some npc =>
      startState <- getState ;;
      match startState with
      | None =>
          ret {| cast_base := failure "No game state available";
                 hit := None; cast_xpGained := None |}
      | Some st =>
          let startTick := tick st in
          let startMagicXp := experienceOf "Magic" (skills st) in
          result <- send (SpellOnNpc (NearbyNpc.index npc) spellComponent) ;;
          if negb (success result) then
            ret {| cast_base := failure (message result); hit := None; cast_xpGained := None |}
          else castSpellOnNpcAwait npc startTick startMagicXp timeout
      end
  end.

(** ** Vocabulary of the statements *)

(** Path queries among the commands sent so far. *)
Definition isFindPath (c : Command) : bool :=
  match c with FindPath _ _ _ => true | _ => false end.

Definition pathQueries (s : Session) : nat := List.length (filter isFindPath (sent s)).

Definition stuckFailure (x z afterX afterZ : Z) : ActionResult :=
  failure ("Stuck at " +++ showPoint afterX afterZ +++ " - cannot reach " +++ showPoint x z).

(** Units of the item that the snapshot current in session [s] shows. *)
Definition held (w : World) (itemId : Z) (s : Session) : N :=
  unitsHeld itemId (snapshotAt w (clock s)).

(** [sells w item startTick s t s' t']: from session [s] with [t] units
    sold so far, zero or more passes of the sell-all loop each went round
    again (its batch was sold), reaching session [s'] with [t'] sold. *)
Inductive sells (w : World) (sellItem : ShopItem.t) (startTick : Z)
  : Session -> Z -> Session -> Z -> Prop :=
| sells_none (s : Session) (t : Z) : sells w sellItem startTick s t s t
| sells_more (s : Session) (t : Z) (s1 : Session) (t1 : Z) (s' : Session) (t' : Z) :
    sellBatch sellItem startTick t w s = (Returned (Next t1), s1) ->
    sells w sellItem startTick s1 t1 s' t' ->
    sells w sellItem startTick s t s' t'.

(** A sell command for between one and [MAX_PER_CLICK] units. *)
Definition capped (c : Command) : Prop :=
  match c with
  | ShopSell _ amount => 0 < amount <= Z.of_N MAX_PER_CLICK
  | _ => False
  end.

(** The reasons section 7 of the specification lists. *)
Definition specReasons : list string :=
  ["target_not_found"; "no_option"; "out_of_reach"; "cant_reach";
   "already_in_combat"; "already_open"; "inventory_full"; "timeout";
   "rejected"; "walk_failed"; "stuck"]%string.

(** The reasons the result literals of actions.ts carry. *)
Definition codeReasons : list string :=
  ["door_not_found"; "already_open"; "no_open_option"; "walk_failed";
   "open_failed"; "timeout"; "item_not_found"; "cant_reach"; "inventory_full";
   "npc_not_found"; "no_attack_option"; "out_of_reach"; "already_in_combat";
   "no_runes"; "no_bank_found"; "bank_not_open"]%string.

(** The result has no reason, or one among [allowed]. *)
Definition reasonIn (allowed : list string) (r : ActionResult) : Prop :=
  match reason r with
  | None => True
  | Some why => In why allowed
  end.

(** Every result the computation returns has no reason or one among
    [allowed]. *)
Definition reasonsFrom {R} `{Result R} (allowed : list string) (c : M R) : Prop :=
  forall w s r s', c w s = (Returned r, s') -> reasonIn allowed (base r).


(** The same world with another command channel: [ack] answers every
    command. *)
Definition withRespond (ack : Z -> Command -> ActionResult) (w : World) : World :=
  {| snapshotAt := snapshotAt w; respond := ack; pathQuery := pathQuery w;
     newRegExp := newRegExp w; rtt := rtt w; pollMs := pollMs w |}.

(** ** Sample worlds *)

Module Sample.

(** A snapshot with the player standing at [(px, pz)] and nothing else. *)
Definition standing (px pz : Z) : BotWorldState :=
  {| tick := 10;
     player := Some {| Player.worldX := px; Player.worldZ := pz |};
     inventory := []; equipment := []; skills := [];
     nearbyNpcs := []; nearbyLocs := []; groundItems := [];
     dialog := {| Dialog.isOpen := false; Dialog.options := [] |};
     shop := {| Shop.isOpen := false; Shop.title := ""; Shop.shopItems := [];
                Shop.playerItems := [] |};
     interface := None;
     gameMessages := [] |}.

(** The sample hosts build the pattern that matches [source] literally,
    whatever the case: what the constructor makes of a source without
    metacharacters, as the sample names are. *)
Definition literal (source : string) : option RegExp :=
  Some (anyOfI source [toLowerCase source]).

(** A world that never changes: every command is accepted and every path
    query answers [path]. *)
Definition still (st : BotWorldState) (path : list Waypoint) : World :=
  {| snapshotAt := fun _ => Some st;
     respond := fun _ _ => succeeded "ok";
     pathQuery := fun _ _ _ => {| pathSuccess := true; waypoints := Some path |};
     newRegExp := literal;
     rtt := 50;
     pollMs := 600 |}.

(** A world given by a script of snapshots, one per [period] milliseconds,
    the last one staying on. *)
Definition scripted (period : Z) (first : BotWorldState) (later : list BotWorldState)
  : World :=
  {| snapshotAt := fun t => Some (nth (Z.to_nat (t / period)) (first :: later)
                                      (last later first));
     respond := fun _ _ => succeeded "ok";
     pathQuery := fun _ _ _ => {| pathSuccess := false; waypoints := None |};
     newRegExp := literal;
     rtt := 0;
     pollMs := N.max 1 (Z.to_N period) |}.

Definition start : Session := {| clock := 0; sent := [] |}.

(** The bank interface open or closed over an inventory. *)
Definition atBank (isOpen : bool) (inv : list InventoryItem.t) : BotWorldState :=
  {| tick := 10; player := None;
     inventory := inv; equipment := []; skills := [];
     nearbyNpcs := []; nearbyLocs := []; groundItems := [];
     dialog := {| Dialog.isOpen := false; Dialog.options := [] |};
     shop := {| Shop.isOpen := false; Shop.title := ""; Shop.shopItems := [];
                Shop.playerItems := [] |};
     interface := Some {| Interface.isOpen := isOpen; Interface.interfaceId := 5292 |};
     gameMessages := [] |}.

Definition cowhides (itemSlot : Z) (n : N) : InventoryItem.t :=
  {| InventoryItem.slot := itemSlot; InventoryItem.id := 1739;
     InventoryItem.name := "Cowhide"; InventoryItem.count := n;
     InventoryItem.optionsWithIndex := [] |}.

Definition goblin : NearbyNpc.t :=
  {| NearbyNpc.index := 7; NearbyNpc.name := "Goblin"; NearbyNpc.distance := 5;
     NearbyNpc.optionsWithIndex := [{| text := "Attack"; opIndex := 2 |}] |}.

(** The goblin five tiles away, at tick [t], with chat [msgs] and skills
    [sk]. *)
Definition scene (t : Z) (sk : list Skill.t) (msgs : list GameMessage) : BotWorldState :=
  {| tick := t; player := Some {| Player.worldX := 3222; Player.worldZ := 3218 |};
     inventory := []; equipment := []; skills := sk;
     nearbyNpcs := [goblin]; nearbyLocs := []; groundItems := [];
     dialog := {| Dialog.isOpen := false; Dialog.options := [] |};
     shop := {| Shop.isOpen := false; Shop.title := ""; Shop.shopItems := [];
                Shop.playerItems := [] |};
     interface := None;
     gameMessages := msgs |}.

Definition hide (itemSlot : Z) (n : N) : ShopItem.t :=
  {| ShopItem.slot := itemSlot; ShopItem.id := 1739; ShopItem.name := "Cowhide";
     ShopItem.count := n |}.

(** An open shop at tick [t] with the player's [items] and chat [msgs]. *)
Definition atShop (t : Z) (items : list ShopItem.t) (msgs : list GameMessage)
  : BotWorldState :=
  {| tick := t; player := None;
     inventory := []; equipment := []; skills := [];
     nearbyNpcs := []; nearbyLocs := []; groundItems := [];
     dialog := {| Dialog.isOpen := false; Dialog.options := [] |};
     shop := {| Shop.isOpen := true; Shop.title := "General Store";
                Shop.shopItems := []; Shop.playerItems := items |};
     interface := None;
     gameMessages := msgs |}.

(** Two stacks, 12 and 9 hides, sold off in three batches. *)
Definition sellingOut : World :=
  scripted 600 (atShop 10 [hide 0 12; hide 1 9] [])
           [atShop 11 [hide 0 2; hide 1 9] [];
            atShop 12 [hide 1 9] [];
            atShop 13 [] []].

(** Twelve hides of which ten are sold; the last two stay. *)
Definition stalling : World :=
  scripted 600 (atShop 10 [hide 0 12] []) [atShop 11 [hide 0 2] []].

(** The command channel refusing everything. *)
Definition refusing (w : World) : World :=
  withRespond (fun _ _ => failure "rejected") w.

End Sample.

(** ** Condition helpers and sequences *)

(** [sk.name.toLowerCase() === skillName.toLowerCase()] *)
Definition skillNamed (skillName : string) (sk : Skill.t) : bool :=
  String.eqb (toLowerCase (Skill.name sk)) (toLowerCase skillName).

Definition skillLevelCondition (skillName : string) (targetLevel : Z)
  (s : BotWorldState) : bool :=
  match find (skillNamed skillName) (skills s) with
  | Some skill => targetLevel <=? Skill.baseLevel skill
  | None => false
  end.

(** The result is [state.skills.find(...)!]: [None] stands for the
    [undefined] that the non-null assertion would let through. *)
Definition waitForSkillLevel (skillName : string) (targetLevel timeout : Z)
  : M (option Skill.t) :=
  state <- waitForCondition (skillLevelCondition skillName targetLevel) timeout ;;
  ret (find (skillNamed skillName) (skills state)).

(** A regular expression object as a caller hands it over.  With the [g]
    or the [y] flag ([flagged]) its [test] starts at [lastIndex] and moves
    it; without them [test] starts at 0 and leaves [lastIndex] alone.
    [search from s] is where the match found in [s] from index [from] on
    ends, if there is one. *)
Record RegExpObject := {
  flagged : bool;
  lastIndex : nat;
  search : nat -> string -> option nat
}.

(** [regex.test(s)] when the object's [lastIndex] is [index]: the answer
    and the [lastIndex] it leaves. *)
Definition testAt (regex : RegExpObject) (index : nat) (s : string) : bool * nat :=
  if flagged regex then
    if (String.length s <? index)%nat then (false, 0%nat)
    else match search regex index s with
         | Some stop => (true, stop)
         | None => (false, 0%nat)
         end
  else (match search regex 0 s with Some _ => true | None => false end, index).

(** What [new RegExp(source, 'i')] built has neither flag, so that only
    whether it matches counts. *)
Definition unflagged (regex : RegExp) : RegExpObject :=
  {| flagged := false;
     lastIndex := 0;
     search := fun _ s => if test regex s then Some (String.length s) else None |}.

(** The [pattern: string | RegExp] argument. *)
Inductive PatternArg :=
| OfSource (source : string)
| OfRegExp (regex : RegExpObject).

(** [typeof pattern === 'string' ? new RegExp(pattern, 'i') : pattern] *)
Definition patternRegex (pattern : PatternArg) : M RegExpObject :=
  match pattern with
  | OfSource source => regex <- regExpOf source ;; ret (unflagged regex)
  | OfRegExp regex => ret regex
  end.

(** [inventory.some(i => regex.test(i.name))], from [lastIndex = index]. *)
Fixpoint someTest (regex : RegExpObject) (index : nat)
  (items : list InventoryItem.t) : bool * nat :=
  match items with
  | [] => (false, index)
  | i :: rest =>
      let '(hit, index') := testAt regex index (InventoryItem.name i) in
      if hit then (true, index') else someTest regex index' rest
  end.

(** [inventory.find(i => regex.test(i.name))], from [lastIndex = index]. *)
Fixpoint findTest (regex : RegExpObject) (index : nat)
  (items : list InventoryItem.t) : option InventoryItem.t * nat :=
  match items with
  | [] => (None, index)
  | i :: rest =>
      let '(hit, index') := testAt regex index (InventoryItem.name i) in
      if hit then (Some i, index') else findTest regex index' rest
  end.

(** The predicate and the final [find] call [test] on the one object, so
    the [lastIndex] left by the first is where the second starts.  The
    result is [state.inventory.find(...)!]: [None] stands for the
    [undefined] that the non-null assertion lets through. *)
Definition waitForInventoryItem (pattern : PatternArg) (timeout : Z)
  : M (option InventoryItem.t) :=
  regex <- patternRegex pattern ;;
  found <- waitForConditionSt
             (fun index s => someTest regex index (inventory s))
             (lastIndex regex) timeout ;;
  ret (fst (findTest regex (snd found) (inventory (fst found)))).

Definition dialogClosedCondition (s : BotWorldState) : bool :=
  negb (Dialog.isOpen (dialog s)).

Definition waitForDialogClose (timeout : Z) : M unit :=
  waitForCondition dialogClosedCondition timeout ;;; ret tt.





(** ** Vocabulary of the further statements *)

(** A command [walkTo] may send: a path query for at most 500 waypoints or
    a running walk. *)
Definition movement (c : Command) : Prop :=
  match c with
  | Walk _ _ true => True
  | FindPath _ _ 500 => True
  | _ => False
  end.

(** The computation sends nothing, or exactly one command, which is among
    [allowed]. *)
Definition sendsAtMostOne {R} (allowed : Command -> Prop) (c : M R) : Prop :=
  forall w s o s',
    c w s = (o, s') ->
    sent s' = sent s \/ exists cmd, allowed cmd /\ sent s' = cmd :: sent s.

(** The player stands within [tolerance] of (x, z) in the snapshot current
    in session [s]. *)
Definition standsNear (w : World) (s : Session) (x z tolerance : Z) : Prop :=
  exists p, hasPlayer (snapshotAt w (clock s)) = Some p
            /\ within (dist2 x z (Player.worldX p) (Player.worldZ p)) tolerance = true.

(** Between sessions [s] and [s'] only path queries and running walks
    were sent. *)
Definition onlyMovement (s s' : Session) : Prop :=
  exists new, sent s' = new ++ sent s /\ Forall movement new.

(** A click on a dialog option. *)
Definition dialogClick (c : Command) : Prop :=
  match c with
  | ClickDialog _ => True
  | _ => False
  end.

(** Besides dialog clicks before and after it, the computation sends at
    most one command, which is among [allowed]. *)
Definition sendsOneAmidClicks {R} (allowed : Command -> Prop) (c : M R) : Prop :=
  forall w s o s',
    c w s = (o, s') ->
    exists before main after,
      sent s' = after ++ main ++ before ++ sent s
      /\ Forall dialogClick before
      /\ Forall dialogClick after
      /\ (main = [] \/ exists cmd, allowed cmd /\ main = [cmd]).

(** A pattern whose [test] keeps no position: a string, or a regular
    expression with neither the [g] nor the [y] flag. *)
Definition stateless (pattern : PatternArg) : Prop :=
  match pattern with
  | OfSource _ => True
  | OfRegExp regex => flagged regex = false
  end.

(** The stateless [pattern] matches [name] in world [w]. *)
Definition matchedBy (w : World) (pattern : PatternArg) (name : string) : Prop :=
  match pattern with
  | OfSource source =>
      exists regex, newRegExp w source = Some regex /\ test regex name = true
  | OfRegExp regex => search regex 0 name <> None
  end.

(** ** Further sample worlds *)

Module Scenes.

(** The player walking east along z = 0, one tile every 300 ms, up to
    x = 10; every path query answers the same two waypoints. *)
Definition strolling : World :=
  {| snapshotAt := fun t => Some (Sample.standing (Z.min 10 (t / 300)) 0);
     respond := fun _ _ => succeeded "ok";
     pathQuery := fun _ _ _ =>
       {| pathSuccess := true;
          waypoints := Some [{| wpX := 5; wpZ := 0 |}; {| wpX := 10; wpZ := 0 |}] |};
     newRegExp := Sample.literal;
     rtt := 50;
     pollMs := 600 |}.

(** The player walks east from the origin, a tile per poll of
    [waitForMovementComplete], and stands still after [n] tiles. *)
Definition slowing (n : Z) : World :=
  {| snapshotAt := fun t => Some (Sample.standing (Z.min n (t / 150)) 0);
     respond := fun _ _ => succeeded "ok";
     pathQuery := fun _ _ _ => {| pathSuccess := false; waypoints := None |};
     newRegExp := Sample.literal;
     rtt := 50;
     pollMs := 600 |}.

(** A door one tile away offering the single option [option]. *)
Definition doorWith (option : string) : NearbyLoc.t :=
  {| NearbyLoc.x := 3210; NearbyLoc.z := 3216; NearbyLoc.id := 1530;
     NearbyLoc.name := "Door"; NearbyLoc.distance := 1;
     NearbyLoc.optionsWithIndex := [{| text := option; opIndex := 1 |}];
     NearbyLoc.options := [option] |}.

Definition besideDoor (option : string) : BotWorldState :=
  {| tick := 10; player := Some {| Player.worldX := 3211; Player.worldZ := 3216 |};
     inventory := []; equipment := []; skills := [];
     nearbyNpcs := []; nearbyLocs := [doorWith option]; groundItems := [];
     dialog := {| Dialog.isOpen := false; Dialog.options := [] |};
     shop := {| Shop.isOpen := false; Shop.title := ""; Shop.shopItems := [];
                Shop.playerItems := [] |};
     interface := None;
     gameMessages := [] |}.

(** The door opening one poll after the call. *)
Definition doorOpening : World :=
  Sample.scripted 600 (besideDoor "Open") [besideDoor "Close"].

Definition bones : GroundItem.t :=
  {| GroundItem.x := 3222; GroundItem.z := 3219; GroundItem.id := 526;
     GroundItem.name := "Bones" |}.

Definition hammer : ShopItem.t :=
  {| ShopItem.slot := 2; ShopItem.id := 2347; ShopItem.name := "Hammer";
     ShopItem.count := 5 |}.

Definition carried (itemSlot itemId : Z) (itemName : string) (n : N)
  (opts : list Opt) : InventoryItem.t :=
  {| InventoryItem.slot := itemSlot; InventoryItem.id := itemId;
     InventoryItem.name := itemName; InventoryItem.count := n;
     InventoryItem.optionsWithIndex := opts |}.

(** Bones on the ground and an open shop stocking hammers, seen with the
    inventory [inv], the skills [sk] and the worn [worn]. *)
Definition stocked (inv worn : list InventoryItem.t) (sk : list Skill.t)
  : BotWorldState :=
  {| tick := 10; player := Some {| Player.worldX := 3222; Player.worldZ := 3218 |};
     inventory := inv; equipment := worn; skills := sk;
     nearbyNpcs := []; nearbyLocs := []; groundItems := [bones];
     dialog := {| Dialog.isOpen := false; Dialog.options := [] |};
     shop := {| Shop.isOpen := true; Shop.title := "General Store";
                Shop.shopItems := [hammer]; Shop.playerItems := [] |};
     interface := None;
     gameMessages := [] |}.

(** The inventory going from [before] to [after] one poll after the call. *)
Definition receiving (before after : list InventoryItem.t) : World :=
  Sample.scripted 600 (stocked before [] []) [stocked after [] []].

Definition firemaking (xp : Z) : Skill.t :=
  {| Skill.name := "Firemaking"; Skill.level := 1; Skill.baseLevel := 1;
     Skill.experience := xp |}.

(** A tinderbox and logs in the inventory; the logs burn one poll after
    the call. *)
Definition lighting : World :=
  Sample.scripted 600
    (stocked [carried 0 590 "Tinderbox" 1 []; carried 1 1511 "Logs" 1 []] []
             [firemaking 0])
    [stocked [carried 0 590 "Tinderbox" 1 []] [] [firemaking 40]].

Definition magic (xp : Z) : Skill.t :=
  {| Skill.name := "Magic"; Skill.level := 1; Skill.baseLevel := 1;
     Skill.experience := xp |}.

(** Where the first occurrence of [word] at or after index [from] ends in
    the rest [s] of a string read up to [pos], whatever the case. *)
Fixpoint occursFrom (word : string) (from pos : nat) (s : string) : option nat :=
  if (from <=? pos)%nat && String.prefix word (toLowerCase s)
  then Some (pos + String.length word)%nat
  else match s with
       | EmptyString => None
       | String _ rest => occursFrom word from (S pos) rest
       end.

(** [/bones/gi], fresh. *)
Definition bonesGlobal : RegExpObject :=
  {| flagged := true; lastIndex := 0;
     search := fun from s => occursFrom "bones" from 0 s |}.

(** A dialog, open or not, offering [opts]. *)
Definition chatting (isOpen : bool) (opts : list Dialog.option_t) : BotWorldState :=
  {| tick := 10; player := Some {| Player.worldX := 3222; Player.worldZ := 3218 |};
     inventory := []; equipment := []; skills := [];
     nearbyNpcs := []; nearbyLocs := []; groundItems := [];
     dialog := {| Dialog.isOpen := isOpen; Dialog.options := opts |};
     shop := {| Shop.isOpen := false; Shop.title := ""; Shop.shopItems := [];
                Shop.playerItems := [] |};
     interface := None;
     gameMessages := [] |}.

Definition yesNo : list Dialog.option_t :=
  [{| Dialog.index := 1; Dialog.text := "Yes please" |};
   {| Dialog.index := 2; Dialog.text := "No thanks" |}].

(** A dialog that takes two clicks to go away. *)
Definition twoPages : World :=
  Sample.scripted 600 (chatting true []) [chatting true []; chatting false []].

End Scenes.

(** * Properties *)

Lemma clock_advance (ms : Z) (s : Session) : clock (advance ms s) = clock s + ms.
Proof. reflexivity. Qed.

Lemma sent_advance (ms : Z) (s : Session) : sent (advance ms s) = sent s.
Proof. reflexivity. Qed.

(** [within] is [sqrt d2 <= tolerance] for a tolerance that is not
    negative. *)
Lemma within_spec (d2 tolerance : Z) :
  within d2 tolerance = true <-> 0 <= tolerance /\ d2 <= tolerance * tolerance.
Proof.
  unfold within. rewrite andb_true_iff, Z.leb_le, Z.leb_le. reflexivity.
Qed.

(** ** The waits *)

Lemma pollUntil_spec (polls : nat) (p : BotWorldState -> bool) (w : World) :
  forall s o s',
    pollUntil polls p w s = (o, s') ->
    sent s' = sent s /\
    match o with
    | Returned st => snapshotAt w (clock s') = Some st /\ p st = true
    | Thrown _ => True
    | Unfinished => False
    end.
Proof.
  induction polls as [|n IH]; intros s o s' H; simpl in H.
  - destruct (snapshotAt w (clock s)) as [st|] eqn:E.
    + destruct (p st) eqn:Ep; inversion H; subst; auto.
    + inversion H; subst; auto.
  - destruct (snapshotAt w (clock s)) as [st|] eqn:E.
    + destruct (p st) eqn:Ep.
      * inversion H; subst; auto.
      * apply IH in H. exact H.
    + apply IH in H. exact H.
Qed.

(** A wait that returns hands back the snapshot current at its return,
    which satisfies the predicate, and has sent nothing. *)
Lemma waitForCondition_returned (p : BotWorldState -> bool) (timeout : Z)
  (w : World) (s s' : Session) (st : BotWorldState) :
  waitForCondition p timeout w s = (Returned st, s') ->
  snapshotAt w (clock s') = Some st /\ p st = true /\ sent s' = sent s.
Proof.
  unfold waitForCondition.
  destruct (pollUntil _ p w s) as [o s1] eqn:E.
  apply pollUntil_spec in E. destruct E as [Hs Ho].
  destruct o; intros H; inversion H; subst; tauto.
Qed.

Lemma waitForCondition_thrown (p : BotWorldState -> bool) (timeout : Z)
  (w : World) (s s' : Session) (e : Error) :
  waitForCondition p timeout w s = (Thrown e, s') ->
  s' = advance (Z.max 0 timeout) s.
Proof.
  unfold waitForCondition.
  destruct (pollUntil _ p w s) as [o s1] eqn:E.
  destruct o; intros H; inversion H; reflexivity.
Qed.

Lemma waitForCondition_finishes (p : BotWorldState -> bool) (timeout : Z)
  (w : World) (s : Session) :
  fst (waitForCondition p timeout w s) <> Unfinished.
Proof.
  unfold waitForCondition.
  destruct (pollUntil _ p w s) as [o s1] eqn:E.
  apply pollUntil_spec in E. destruct E as [_ Ho].
  destruct o; simpl; try discriminate. contradiction.
Qed.

(** The predicate holding now ends the wait at once. *)
Lemma waitForCondition_now (p : BotWorldState -> bool) (timeout : Z)
  (w : World) (s : Session) (st : BotWorldState) :
  snapshotAt w (clock s) = Some st -> p st = true ->
  waitForCondition p timeout w s = (Returned st, s).
Proof.
  intros Hst Hp. unfold waitForCondition.
  destruct (Z.to_nat _); simpl; rewrite Hst, Hp; reflexivity.
Qed.

(** ** waitForMovementComplete *)

Lemma movePolls_enough (d2 : Z) :
  0 <= d2 -> beforeMaxTimeout (POLL_INTERVAL * Z.of_nat (movePolls d2)) d2 = false.
Proof.
  intros Hd. unfold beforeMaxTimeout, movePolls, POLL_INTERVAL, MIN_TIMEOUT.
  set (r := Z.sqrt d2).
  assert (Hr : d2 < (r + 1) * (r + 1)).
  { pose proof (Z.sqrt_spec d2 Hd) as Hs. unfold r. simpl in Hs.
    replace (Z.succ (Z.sqrt d2)) with (Z.sqrt d2 + 1) in Hs by lia. lia. }
  assert (Hr0 : 0 <= r) by apply Z.sqrt_nonneg.
  set (q := 334 * (r + 1) / 150 + 1).
  assert (Hq : 334 * (r + 1) < 150 * q).
  { unfold q. pose proof (Z.mul_succ_div_gt (334 * (r + 1)) 150 ltac:(lia)). lia. }
  rewrite Z2Nat.id by lia.
  apply orb_false_iff. split.
  - apply Z.ltb_ge. lia.
  - apply Z.ltb_ge.
    assert (H1 : 334 * (r + 1) <= 150 * Z.max 14 q) by lia.
    assert (H2 : 0 <= 334 * (r + 1)) by lia.
    assert (H3 : (334 * (r + 1)) * (334 * (r + 1))
                 <= (150 * Z.max 14 q) * (150 * Z.max 14 q)) by nia.
    nia.
Qed.

(** With enough polls left for the clock to pass [maxTimeout], the loop
    ends by itself. *)
Lemma moveLoop_finishes (w : World) (targetX targetZ tolerance d2 startTime : Z) :
  forall fuel lastX lastZ lastMoveTime s,
    beforeMaxTimeout (clock s - startTime + POLL_INTERVAL * Z.of_nat fuel) d2 = false ->
    fst (moveLoop fuel targetX targetZ tolerance d2 startTime
                  lastX lastZ lastMoveTime w s) <> Unfinished.
Proof.
  induction fuel as [|fuel IH]; intros lastX lastZ lastMoveTime s H.
  - replace (clock s - startTime + POLL_INTERVAL * Z.of_nat 0)
      with (clock s - startTime) in H by (simpl; lia).
    simpl. unfold bind, now. rewrite H. simpl. discriminate.
  - simpl. unfold bind at 1. unfold now at 1.
    destruct (beforeMaxTimeout (clock s - startTime) d2) eqn:Hb.
    + unfold bind, sleep, getState, now, ret.
      assert (Hnext : beforeMaxTimeout
                (clock (advance POLL_INTERVAL s) - startTime
                 + POLL_INTERVAL * Z.of_nat fuel) d2 = false).
      { rewrite <- H. f_equal. unfold advance; simpl clock.
        rewrite Nat2Z.inj_succ. lia. }
      destruct (hasPlayer (snapshotAt w (clock (advance POLL_INTERVAL s)))) as [p|];
        [|simpl; discriminate].
      destruct (within _ tolerance); [simpl; discriminate|].
      destruct (negb _ || negb _).
      * apply IH. exact Hnext.
      * destruct (_ >? STUCK_THRESHOLD); [simpl; discriminate|].
        apply IH. exact Hnext.
    + unfold bind, getState, ret. simpl. discriminate.
Qed.

Lemma dist2_nonneg (x z px pz : Z) : 0 <= dist2 x z px pz.
Proof.
  unfold dist2.
  pose proof (Z.square_nonneg (x - px)). pose proof (Z.square_nonneg (z - pz)). lia.
Qed.

(** [waitForMovementComplete] always returns a result: it neither throws
    nor runs out of polls. *)
Lemma waitForMovementComplete_returns (w : World) (s : Session)
  (targetX targetZ tolerance : Z) :
  exists r s', waitForMovementComplete targetX targetZ tolerance w s = (Returned r, s').
Proof.
  assert (Hnt : forall fuel d2 startTime lastX lastZ lastMoveTime s0,
             forall e s1, moveLoop fuel targetX targetZ tolerance d2 startTime
                                   lastX lastZ lastMoveTime w s0 <> (Thrown e, s1)).
  { induction fuel as [|fuel IH]; intros d2 startTime lastX lastZ lastMoveTime s0 e s1;
      simpl; unfold bind at 1; unfold now at 1;
      destruct (beforeMaxTimeout (clock s0 - startTime) d2);
      try (unfold bind, getState, ret; discriminate).
    unfold bind, sleep, getState, now, ret.
    destruct (hasPlayer (snapshotAt w (clock (advance POLL_INTERVAL s0)))) as [p|];
      [|discriminate].
    destruct (within _ tolerance); [discriminate|].
    destruct (negb _ || negb _); [apply IH|].
    destruct (_ >? STUCK_THRESHOLD); [discriminate|apply IH]. }
  unfold waitForMovementComplete, bind, getState, now, ret.
  destruct (hasPlayer (snapshotAt w (clock s))) as [p|]; [|eauto].
  set (d2 := dist2 targetX targetZ (Player.worldX p) (Player.worldZ p)).
  pose proof (moveLoop_finishes w targetX targetZ tolerance d2 (clock s)
                (movePolls d2) (Player.worldX p) (Player.worldZ p) (clock s) s) as Hf.
  specialize (Hnt (movePolls d2) d2 (clock s) (Player.worldX p) (Player.worldZ p) (clock s) s).
  destruct (moveLoop _ _ _ _ _ _ _ _ _ w s) as [o s'].
  destruct o as [r|e|].
  - eauto.
  - exfalso. apply (Hnt e s'). reflexivity.
  - exfalso. apply Hf; [|reflexivity].
    replace (clock s - clock s + POLL_INTERVAL * Z.of_nat (movePolls d2))
      with (POLL_INTERVAL * Z.of_nat (movePolls d2)) by lia.
    apply movePolls_enough. apply dist2_nonneg.
Qed.

Lemma moveLoop_sent (w : World) (targetX targetZ tolerance d2 startTime : Z) :
  forall fuel lastX lastZ lastMoveTime s o s',
    moveLoop fuel targetX targetZ tolerance d2 startTime lastX lastZ lastMoveTime w s
    = (o, s') ->
    sent s' = sent s.
Proof.
  induction fuel as [|fuel IH]; intros lastX lastZ lastMoveTime s o s';
    simpl; unfold bind at 1; unfold now at 1;
    destruct (beforeMaxTimeout (clock s - startTime) d2);
    try (unfold bind, getState, ret; cbv beta iota; intros H; inversion H; reflexivity).
  unfold bind, sleep, getState, now, ret. cbv beta iota.
  destruct (hasPlayer (snapshotAt w (clock (advance POLL_INTERVAL s)))) as [p|];
    [|intros H; inversion H; reflexivity].
  destruct (within _ tolerance); [intros H; inversion H; reflexivity|].
  destruct (negb _ || negb _).
  - intros H. apply IH in H. exact H.
  - destruct (_ >? STUCK_THRESHOLD); [intros H; inversion H; reflexivity|].
    intros H. apply IH in H. exact H.
Qed.

Lemma waitForMovementComplete_spec (w : World) (s : Session)
  (targetX targetZ tolerance : Z) :
  exists r s',
    waitForMovementComplete targetX targetZ tolerance w s = (Returned r, s')
    /\ sent s' = sent s.
Proof.
  destruct (waitForMovementComplete_returns w s targetX targetZ tolerance) as (r & s' & E).
  exists r, s'. split; [exact E|].
  revert E. unfold waitForMovementComplete, bind, getState, now, ret. cbv beta iota.
  destruct (hasPlayer (snapshotAt w (clock s))) as [p|].
  - intros E. apply moveLoop_sent in E. exact E.
  - intros E. inversion E. reflexivity.
Qed.

Lemma moveLoop_time (w : World) (targetX targetZ tolerance d2 startTime : Z) :
  forall fuel lastX lastZ lastMoveTime s r s',
    moveLoop fuel targetX targetZ tolerance d2 startTime lastX lastZ lastMoveTime w s
    = (Returned r, s') ->
    clock s = startTime
    \/ (beforeMaxTimeout (clock s - POLL_INTERVAL - startTime) d2 = true
        /\ startTime + POLL_INTERVAL <= clock s) ->
    beforeMaxTimeout (clock s' - POLL_INTERVAL - startTime) d2 = true
    /\ startTime + POLL_INTERVAL <= clock s'.
Proof.
  assert (Hstep : forall s : Session,
             beforeMaxTimeout (clock s - startTime) d2 = true ->
             startTime <= clock s ->
             beforeMaxTimeout (clock (advance POLL_INTERVAL s) - POLL_INTERVAL - startTime) d2
             = true
             /\ startTime + POLL_INTERVAL <= clock (advance POLL_INTERVAL s)).
  { intros s H Hle. rewrite clock_advance.
    replace (clock s + POLL_INTERVAL - POLL_INTERVAL - startTime)
      with (clock s - startTime) by lia. split; [exact H|lia]. }
  assert (Hexit : forall s : Session,
             beforeMaxTimeout (clock s - startTime) d2 = false ->
             clock s = startTime
             \/ (beforeMaxTimeout (clock s - POLL_INTERVAL - startTime) d2 = true
                 /\ startTime + POLL_INTERVAL <= clock s) ->
             beforeMaxTimeout (clock s - POLL_INTERVAL - startTime) d2 = true
             /\ startTime + POLL_INTERVAL <= clock s).
  { intros s Hguard [Hz|Hprev]; [|exact Hprev].
    exfalso. rewrite Hz, Z.sub_diag in Hguard. discriminate Hguard. }
  induction fuel as [|fuel IH]; intros lastX lastZ lastMoveTime s r s';
    simpl; unfold bind at 1; unfold now at 1;
    destruct (beforeMaxTimeout (clock s - startTime) d2) eqn:Hguard.
  - discriminate.
  - unfold bind, getState, ret. cbv beta iota zeta.
    intros H Hinv. inversion H. subst s'. apply Hexit; assumption.
  - intros H Hinv.
    assert (Hafter : startTime <= clock s).
    { destruct Hinv as [Hz|[_ Hle]]; unfold POLL_INTERVAL in *; lia. }
    destruct (Hstep s Hguard Hafter) as [Hg1 Hle1].
    revert H. unfold bind, sleep, getState, now, ret. cbv beta iota.
    destruct (hasPlayer (snapshotAt w (clock (advance POLL_INTERVAL s)))) as [p|].
    + cbv zeta. destruct (within _ tolerance).
      * intros H. inversion H. subst. split; assumption.
      * destruct (negb _ || negb _).
        -- intros H. apply IH in H; [exact H|]. right. split; assumption.
        -- destruct (_ >? STUCK_THRESHOLD).
           ++ intros H. inversion H. subst. split; assumption.
           ++ intros H. apply IH in H; [exact H|]. right. split; assumption.
    + intros H. inversion H. subst. split; assumption.
  - unfold bind, getState, ret. cbv beta iota zeta.
    intros H Hinv. inversion H. subst s'. apply Hexit; assumption.
Qed.

Lemma beforeMaxTimeout_earlier (e e' d2 : Z) :
  0 <= e <= e' -> beforeMaxTimeout e' d2 = true -> beforeMaxTimeout e d2 = true.
Proof.
  intros He. unfold beforeMaxTimeout, MIN_TIMEOUT.
  intros H. apply orb_true_iff in H. apply orb_true_iff.
  destruct H as [H|H]; apply Z.ltb_lt in H; [left|right]; apply Z.ltb_lt; nia.
Qed.

Lemma beforeMaxTimeout_late (e d2 : Z) :
  beforeMaxTimeout e d2 = false -> MIN_TIMEOUT <= e.
Proof.
  unfold beforeMaxTimeout. intros H. apply orb_false_iff in H.
  destruct H as [H _]. apply Z.ltb_ge in H. exact H.
Qed.

(** The loop while a freeze is on its way.  The polls of the call fall at
    [startTime + POLL_INTERVAL * j]; up to poll [k + 5] they show a player
    out of tolerance, and from poll [k] on they show [p].  Entered at poll
    [i], with the last position and the time it was first seen as the loop
    keeps them, the loop reports no arrival by poll [k + 5]. *)
Lemma moveLoop_freeze (w : World) (targetX targetZ tolerance d2 startTime k : Z)
  (p : Player.t) :
  0 <= k ->
  (forall j, 1 <= j <= k + 5 ->
     exists q, hasPlayer (snapshotAt w (startTime + POLL_INTERVAL * j)) = Some q
               /\ within (dist2 targetX targetZ (Player.worldX q) (Player.worldZ q))
                         tolerance = false) ->
  (forall j, k <= j <= k + 5 ->
     hasPlayer (snapshotAt w (startTime + POLL_INTERVAL * j)) = Some p) ->
  forall fuel lastX lastZ lastMoveTime s i r s',
    0 <= i <= k + 4 ->
    clock s = startTime + POLL_INTERVAL * i ->
    startTime <= lastMoveTime <= clock s ->
    (k <= i -> lastX = Player.worldX p /\ lastZ = Player.worldZ p
               /\ lastMoveTime <= startTime + POLL_INTERVAL * k) ->
    moveLoop fuel targetX targetZ tolerance d2 startTime lastX lastZ lastMoveTime w s
    = (Returned r, s') ->
    arrived r = false /\ stoppedMoving r = true
    /\ startTime + STUCK_THRESHOLD < clock s' <= startTime + POLL_INTERVAL * (k + 5)
    /\ (startTime + POLL_INTERVAL * k <= clock s' ->
        endX r = Player.worldX p /\ endZ r = Player.worldZ p).
Proof.
  intros Hk Hfar Hfrozen. unfold POLL_INTERVAL, STUCK_THRESHOLD in *.
  assert (Hexit : forall lastX lastZ (s : Session) i r s',
             0 <= i <= k + 4 ->
             clock s = startTime + 150 * i ->
             beforeMaxTimeout (clock s - startTime) d2 = false ->
             (finalState <- getState ;;
              let finalX := match hasPlayer finalState with
                            | Some p => Player.worldX p | None => lastX end in
              let finalZ := match hasPlayer finalState with
                            | Some p => Player.worldZ p | None => lastZ end in
              ret {| arrived := within (dist2 targetX targetZ finalX finalZ) tolerance;
                     stoppedMoving := true; endX := finalX; endZ := finalZ |}) w s
             = (Returned r, s') ->
             arrived r = false /\ stoppedMoving r = true
             /\ startTime + 600 < clock s' <= startTime + 150 * (k + 5)
             /\ (startTime + 150 * k <= clock s' ->
                 endX r = Player.worldX p /\ endZ r = Player.worldZ p)).
  { intros lastX lastZ s i r s' Hi Hclock Hguard.
    apply beforeMaxTimeout_late in Hguard. unfold MIN_TIMEOUT in Hguard.
    unfold bind, getState, ret. cbv beta iota zeta. rewrite Hclock.
    destruct (Hfar i ltac:(lia)) as (q & Hq & Hout). rewrite Hq, Hout.
    intros H. inversion H; subst; clear H. cbn [arrived stoppedMoving endX endZ].
    split; [reflexivity|]. split; [reflexivity|]. split; [lia|].
    intros Hin. rewrite (Hfrozen i ltac:(lia)) in Hq. inversion Hq. split; reflexivity. }
  induction fuel as [|fuel IH]; intros lastX lastZ lastMoveTime s i r s' Hi Hclock Hlast Hin;
    cbn [moveLoop]; unfold bind at 1; unfold now at 1;
    destruct (beforeMaxTimeout (clock s - startTime) d2) eqn:Hguard.
  - discriminate.
  - apply (Hexit lastX lastZ s i r s' Hi Hclock Hguard).
  - unfold bind, sleep, getState, now, ret. cbv beta iota.
    rewrite !clock_advance. unfold POLL_INTERVAL.
    replace (clock s + 150) with (startTime + 150 * (i + 1)) by lia.
    destruct (Hfar (i + 1) ltac:(lia)) as (q & Hq & Hout).
    rewrite Hq. cbv zeta. rewrite Hout.
    cbv beta iota. rewrite ?clock_advance. unfold POLL_INTERVAL, STUCK_THRESHOLD.
    destruct (negb (Player.worldX q =? lastX) || negb (Player.worldZ q =? lastZ)) eqn:Hmoved.
    + assert (Hbefore : i + 1 <= k).
      { destruct (Z_le_gt_dec (i + 1) k) as [Hle|Hgt]; [exact Hle|exfalso].
        destruct (Hin ltac:(lia)) as (Hx & Hz & _).
        rewrite (Hfrozen (i + 1) ltac:(lia)) in Hq. inversion Hq. subst q.
        rewrite Hx, Hz, !Z.eqb_refl in Hmoved. discriminate Hmoved. }
      apply (IH _ _ _ _ (i + 1)); rewrite ?clock_advance; unfold POLL_INTERVAL; try lia.
      intros Hki. assert (i + 1 = k) by lia. subst k.
      rewrite (Hfrozen (i + 1) ltac:(lia)) in Hq. inversion Hq.
      split; [reflexivity|]. split; [reflexivity|]. lia.
    + apply orb_false_iff in Hmoved. destruct Hmoved as [Hx Hz].
      apply negb_false_iff in Hx. apply negb_false_iff in Hz.
      apply Z.eqb_eq in Hx. apply Z.eqb_eq in Hz.
      assert (Hin' : k <= i + 1 -> lastX = Player.worldX p /\ lastZ = Player.worldZ p
                                   /\ lastMoveTime <= startTime + 150 * k).
      { intros Hki. destruct (Z_le_gt_dec k i) as [Hle|Hgt]; [apply Hin; exact Hle|].
        assert (i + 1 = k) by lia. subst k.
        rewrite (Hfrozen (i + 1) ltac:(lia)) in Hq. inversion Hq. subst q.
        split; [symmetry; exact Hx|]. split; [symmetry; exact Hz|]. lia. }
      cbv beta iota. rewrite ?clock_advance.
      destruct (clock s + 150 - lastMoveTime >? 600) eqn:Hstuck.
      * intros H. inversion H; subst; clear H.
        cbn [arrived stoppedMoving endX endZ clock advance].
        unfold POLL_INTERVAL. apply Z.gtb_lt in Hstuck.
        split; [reflexivity|]. split; [reflexivity|]. split; [lia|].
        intros Hki. destruct (Hin' ltac:(lia)) as (Hpx & Hpz & _).
        split; congruence.
      * assert (Hnot : ~ 600 < clock s + 150 - lastMoveTime).
        { intros Hlt. apply Z.gtb_lt in Hlt. rewrite Hlt in Hstuck. discriminate Hstuck. }
        assert (Hroom : i + 1 <= k + 4).
        { destruct (Z_le_gt_dec (i + 1) (k + 4)) as [Hle|Hgt]; [exact Hle|exfalso].
          destruct (Hin' ltac:(lia)) as (_ & _ & Hlm). lia. }
        apply (IH _ _ _ _ (i + 1)); rewrite ?clock_advance; unfold POLL_INTERVAL;
          try lia; exact Hin'.
  - apply (Hexit lastX lastZ s i r s' Hi Hclock Hguard).
Qed.

(** C7, as amended.  The call polls every 150 ms.  Suppose the player is
    there at the call and, at each of the polls 1 to [k + 5], is there and
    farther than [tolerance] from the target, and suppose the six polls
    [k] to [k + 5] (poll 0 being the call itself) show the same position
    [p]: a freeze of 750 ms, the first whole number of polls beyond the
    stuck threshold.  Then [waitForMovementComplete] returns
    [{arrived:false, stoppedMoving:true}] without throwing, more than
    [STUCK_THRESHOLD] after the call and no later than poll [k + 5]; a
    return at or after poll [k] reports [p].  One poll interval before
    its return the adaptive timeout [max(MIN_TIMEOUT, 1.5 * expected
    time)] had not elapsed; the return itself is strictly before the
    timeout when poll [k + 5] is, and may otherwise come after it.  No
    command is sent. *)
Theorem waitForMovementComplete_frozen (w : World) (s : Session)
  (targetX targetZ tolerance k : Z) (p0 p : Player.t) :
  let poll j := hasPlayer (snapshotAt w (clock s + POLL_INTERVAL * j)) in
  let d2 := dist2 targetX targetZ (Player.worldX p0) (Player.worldZ p0) in
  0 <= k ->
  poll 0 = Some p0 ->
  (forall j, 1 <= j <= k + 5 ->
     exists q, poll j = Some q
               /\ within (dist2 targetX targetZ (Player.worldX q) (Player.worldZ q))
                         tolerance = false) ->
  (forall j, k <= j <= k + 5 -> poll j = Some p) ->
  exists r s',
    waitForMovementComplete targetX targetZ tolerance w s = (Returned r, s')
    /\ arrived r = false /\ stoppedMoving r = true
    /\ STUCK_THRESHOLD < clock s' - clock s <= POLL_INTERVAL * (k + 5)
    /\ (POLL_INTERVAL * k <= clock s' - clock s ->
        endX r = Player.worldX p /\ endZ r = Player.worldZ p)
    /\ beforeMaxTimeout (clock s' - clock s - POLL_INTERVAL) d2 = true
    /\ (beforeMaxTimeout (POLL_INTERVAL * (k + 5)) d2 = true ->
        beforeMaxTimeout (clock s' - clock s) d2 = true)
    /\ sent s' = sent s.
Proof.
  intros poll d2 Hk Hp0 Hfar Hfrozen. subst poll. cbv beta in *.
  replace (clock s + POLL_INTERVAL * 0) with (clock s) in Hp0 by (unfold POLL_INTERVAL; lia).
  destruct (waitForMovementComplete_spec w s targetX targetZ tolerance)
    as (r & s' & E & Hsent).
  exists r, s'. split; [exact E|].
  revert E. unfold waitForMovementComplete, bind, getState, now, ret. cbv beta iota.
  rewrite Hp0. cbv zeta. fold d2. intros E.
  pose proof (moveLoop_time _ _ _ _ _ _ _ _ _ _ _ _ _ E (or_introl eq_refl)) as [Hguard Hle].
  apply (moveLoop_freeze w targetX targetZ tolerance d2 (clock s) k p Hk Hfar Hfrozen
           _ _ _ _ _ 0) in E.
  - destruct E as (Ha & Hs & Ht & Hpos).
    split; [exact Ha|]. split; [exact Hs|]. split; [lia|].
    split; [intros Hin; apply Hpos; lia|].
    split; [replace (clock s' - clock s - POLL_INTERVAL)
              with (clock s' - POLL_INTERVAL - clock s) by lia; exact Hguard|].
    split; [|exact Hsent].
    apply beforeMaxTimeout_earlier. unfold STUCK_THRESHOLD in Ht. lia.
  - lia.
  - unfold POLL_INTERVAL. lia.
  - lia.
  - intros Hk0. assert (k = 0) by lia. subst k.
    pose proof (Hfrozen 0 ltac:(lia)) as Hp.
    replace (clock s + POLL_INTERVAL * 0) with (clock s) in Hp by (unfold POLL_INTERVAL; lia).
    rewrite Hp0 in Hp. inversion Hp. subst p0.
    split; [reflexivity|]. split; [reflexivity|]. unfold POLL_INTERVAL. lia.
Qed.

(** ** walkTo *)

Lemma pathQueries_same (s s' : Session) : sent s' = sent s -> pathQueries s' = pathQueries s.
Proof. unfold pathQueries. intros ->. reflexivity. Qed.

Lemma strideLoop_spec (w : World) (wps : list Waypoint) (x z tolerance : Z) :
  forall indices s,
  exists r s',
    strideLoop indices wps x z tolerance w s = (Returned r, s')
    /\ pathQueries s' = pathQueries s.
Proof.
  induction indices as [|i rest IH]; intros s; simpl.
  - exists Fallthrough, s. split; reflexivity.
  - destruct (nth_error wps i) as [wp|]; [|apply IH].
    unfold bind at 1. unfold send at 1. cbv beta iota.
    set (s1 := advance (Z.of_N (rtt w)) (record (Walk (wpX wp) (wpZ wp) true) s)).
    assert (Hs1 : pathQueries s1 = pathQueries s) by reflexivity.
    unfold bind at 1.
    destruct (waitForMovementComplete_spec w s1 (wpX wp) (wpZ wp) 3) as (m & s2 & E & Hs2).
    rewrite E. cbv beta iota.
    apply pathQueries_same in Hs2.
    unfold bind, getState, ret. cbv beta iota.
    destruct (hasPlayer (snapshotAt w (clock s2))).
    + destruct (within _ tolerance).
      * eexists _, s2. split; [reflexivity|congruence].
      * destruct (stoppedMoving m && negb (arrived m)).
        -- eexists _, s2. split; [reflexivity|congruence].
        -- destruct (IH s2) as (r & s3 & E3 & Hs3). exists r, s3.
           split; [exact E3|congruence].
    + eexists _, s2. split; [reflexivity|congruence].
Qed.

Lemma intermediateSearch_spec (w : World) :
  forall points first s,
  exists r s',
    intermediateSearch points first w s = (Returned r, s')
    /\ (pathQueries s' <= pathQueries s + List.length points)%nat.
Proof.
  induction points as [|[ix iz] rest IH]; intros first s; simpl.
  - exists first, s. split; [reflexivity|lia].
  - unfold bind, sendFindPath. cbv beta iota.
    set (s1 := advance (Z.of_N (rtt w)) (record (FindPath ix iz 500) s)).
    assert (Hs1 : pathQueries s1 = S (pathQueries s)) by reflexivity.
    destruct (noWaypoints (pathQuery w (clock s) ix iz)).
    + destruct (IH (pathQuery w (clock s) ix iz) s1) as (r & s2 & E & Hs2).
      exists r, s2. split; [exact E|lia].
    + eexists _, s1. split; [reflexivity|lia].
Qed.

Lemma intermediatePoints_length (x z currentX currentZ d2 : Z) :
  (List.length (intermediatePoints x z currentX currentZ d2) <= 15)%nat.
Proof.
  unfold intermediatePoints, INTERMEDIATE_DISTANCES, PERPENDICULAR_OFFSETS.
  cbn [flat_map].
  destruct (d2 <=? 60 * 60); destruct (d2 <=? 40 * 40); destruct (d2 <=? 25 * 25);
    cbn [map app List.length]; lia.
Qed.

(** One pass of the replanning loop always comes back, having sent at most
    sixteen path queries: one for the goal and up to fifteen for
    intermediate points. *)
Lemma pathAttempt_spec (w : World) (x z tolerance : Z) (s : Session) :
  exists a s',
    pathAttempt x z tolerance w s = (Returned a, s')
    /\ (pathQueries s' <= pathQueries s + 16)%nat.
Proof.
  unfold pathAttempt. unfold bind at 1. unfold getState at 1. cbv beta iota.
  destruct (hasPlayer (snapshotAt w (clock s))) as [p|];
    [|eexists _, s; split; [reflexivity|lia]].
  cbv zeta.
  set (cx := Player.worldX p). set (cz := Player.worldZ p).
  destruct (within (dist2 x z cx cz) tolerance);
    [eexists _, s; split; [reflexivity|lia]|].
  unfold bind at 1. unfold sendFindPath at 1. cbv beta iota.
  set (s1 := advance (Z.of_N (rtt w)) (record (FindPath x z 500) s)).
  assert (Hs1 : pathQueries s1 = S (pathQueries s)) by reflexivity.
  set (first := pathQuery w (clock s) x z).
  unfold bind at 1.
  assert (Hsearch : exists pr s2,
             (if noWaypoints first && (1600 <? dist2 x z cx cz)
              then intermediateSearch (intermediatePoints x z cx cz (dist2 x z cx cz)) first
              else ret first) w s1 = (Returned pr, s2)
             /\ (pathQueries s2 <= pathQueries s + 16)%nat).
  { destruct (noWaypoints first && (1600 <? dist2 x z cx cz)).
    - destruct (intermediateSearch_spec w
                  (intermediatePoints x z cx cz (dist2 x z cx cz)) first s1)
        as (pr & s2 & E & Hq).
      exists pr, s2. split; [exact E|].
      pose proof (intermediatePoints_length x z cx cz (dist2 x z cx cz)). lia.
    - exists first, s1. split; [reflexivity|lia]. }
  destruct Hsearch as (pr & s2 & E2 & Hq2). rewrite E2. cbv beta iota.
  destruct (negb (pathSuccess pr) || noWaypoints pr).
  - unfold bind at 1. unfold send at 1. cbv beta iota.
    set (s3 := advance (Z.of_N (rtt w)) (record (Walk x z true) s2)).
    assert (Hs3 : pathQueries s3 = pathQueries s2) by reflexivity.
    unfold tryCatch, bind. cbv beta iota.
    match goal with |- context [waitForCondition ?p ?t w s3] =>
      destruct (waitForCondition p t w s3) as [o s4] eqn:Ew;
      pose proof (waitForCondition_finishes p t w s3) as Hfin; rewrite Ew in Hfin
    end.
    destruct o as [st|e|].
    + apply waitForCondition_returned in Ew. destruct Ew as (_ & _ & Hsent).
      apply pathQueries_same in Hsent.
      eexists _, s4. split; [reflexivity|lia].
    + apply waitForCondition_thrown in Ew. subst s4.
      eexists _, _. split; [reflexivity|]. 
      change (pathQueries (advance (Z.max 0 10000) s3)) with (pathQueries s3). lia.
    + exfalso. apply Hfin. reflexivity.
  - cbv zeta. set (wps := match waypoints pr with Some l => l | None => [] end).
    unfold bind at 1.
    destruct (strideLoop_spec w wps x z tolerance (strideIndices (List.length wps)) s2)
      as (ex & s3 & E3 & Hq3).
    rewrite E3. cbv beta iota.
    destruct ex as [result|].
    + eexists _, s3. split; [reflexivity|lia].
    + unfold bind at 1.
      assert (Hlast : exists s4,
                 match nth_error wps (List.length wps - 1) with
                 | Some lastWp =>
                     send (Walk (wpX lastWp) (wpZ lastWp) true) ;;;
                     waitForMovementComplete (wpX lastWp) (wpZ lastWp) 3 ;;;
                     ret tt
                 | None => ret tt
                 end w s3 = (Returned tt, s4)
                 /\ pathQueries s4 = pathQueries s3).
      { destruct (nth_error wps (List.length wps - 1)) as [lastWp|].
        - unfold bind at 1. unfold send at 1. cbv beta iota.
          set (s3' := advance (Z.of_N (rtt w)) (record (Walk (wpX lastWp) (wpZ lastWp) true) s3)).
          assert (Hs3' : pathQueries s3' = pathQueries s3) by reflexivity.
          destruct (waitForMovementComplete_spec w s3' (wpX lastWp) (wpZ lastWp) 3)
            as (m & s4 & E4 & Hs4).
          apply pathQueries_same in Hs4.
          exists s4. unfold bind, ret. rewrite E4. split; [reflexivity|congruence].
        - exists s3. split; reflexivity. }
      destruct Hlast as (s4 & E4 & Hq4). rewrite E4. cbv beta iota.
      unfold bind, getState, ret. cbv beta iota zeta.
      destruct (within _ tolerance); eexists _, s4; (split; [reflexivity|lia]).
Qed.

Lemma walkQueries_spec (w : World) (x z tolerance startX startZ : Z) :
  forall remaining stuckCount s,
  exists r s',
    walkQueries remaining stuckCount x z tolerance startX startZ w s = (Returned r, s')
    /\ (pathQueries s' <= pathQueries s + 16 * remaining)%nat.
Proof.
  induction remaining as [|n IH]; intros stuckCount s; simpl.
  - unfold bind, getState, ret. cbv beta iota zeta.
    eexists _, s. split; [reflexivity|lia].
  - unfold bind at 1.
    destruct (pathAttempt_spec w x z tolerance s) as (a & s1 & E & Hq).
    rewrite E. cbv beta iota.
    destruct a as [result|d nd ax az].
    + eexists _, s1. split; [reflexivity|lia].
    + destruct (progressBelow5 d nd).
      * destruct (3 <=? stuckCount + 1).
        -- eexists _, s1. split; [reflexivity|lia].
        -- destruct (IH (stuckCount + 1) s1) as (r & s2 & E2 & Hq2).
           exists r, s2. split; [exact E2|lia].
      * destruct (IH 0 s1) as (r & s2 & E2 & Hq2).
        exists r, s2. split; [exact E2|lia].
Qed.

(** C4: when the first snapshot puts the player within [tolerance] of
    (x, z), [walkTo] returns success at once and leaves the session as it
    was: no [sendFindPath], no [sendWalk], no command at all. *)
Theorem walkTo_already_there (w : World) (s : Session) (x z tolerance : Z)
  (st : BotWorldState) (p : Player.t) :
  snapshotAt w (clock s) = Some st ->
  player st = Some p ->
  within (dist2 x z (Player.worldX p) (Player.worldZ p)) tolerance = true ->
  exists r s',
    walkTo x z tolerance w s = (Returned r, s')
    /\ success r = true
    /\ sent s' = sent s
    /\ clock s' = clock s.
Proof.
  intros Hst Hp Hnear.
  exists (succeeded ("Already at " +++ showPoint x z)), s.
  split; [|repeat split; reflexivity].
  unfold walkTo, bind, getState, ret. cbv beta iota.
  rewrite Hst. unfold hasPlayer. rewrite Hp. cbv zeta. rewrite Hnear. reflexivity.
Qed.

Lemma walkTo_already_there_witness :
  exists r s',
    walkTo 3222 3220 3 (Sample.still (Sample.standing 3222 3218) []) Sample.start
    = (Returned r, s')
    /\ success r = true
    /\ sent s' = sent Sample.start
    /\ clock s' = clock Sample.start.
Proof.
  apply (walkTo_already_there (Sample.still (Sample.standing 3222 3218) []) Sample.start
           3222 3220 3 (Sample.standing 3222 3218)
           {| Player.worldX := 3222; Player.worldZ := 3218 |});
    reflexivity.
Defined.

(** C6: [walkTo] always terminates with a result.  Its replanning loop
    makes at most [MAX_PATH_QUERIES] passes, each sending at most sixteen
    path queries.  A pass that gains less than five tiles raises the stuck
    counter and aborts the walk with a failure naming the position reached
    once the counter is at three; a pass that gains five tiles or more
    resets the counter to zero; so three consecutive passes below the
    threshold, starting from a counter of zero, abort the walk at the
    position the third one reached. *)
Theorem walkTo_terminates (w : World) (x z tolerance : Z) :
  (forall s, exists r s',
      walkTo x z tolerance w s = (Returned r, s')
      /\ (pathQueries s' <= pathQueries s + 16 * MAX_PATH_QUERIES)%nat)
  /\ (forall n stuckCount startX startZ s d nd ax az s1,
        pathAttempt x z tolerance w s = (Returned (Replan d nd ax az), s1) ->
        walkQueries (S n) stuckCount x z tolerance startX startZ w s
        = if progressBelow5 d nd then
            if 3 <=? stuckCount + 1
            then (Returned (stuckFailure x z ax az), s1)
            else walkQueries n (stuckCount + 1) x z tolerance startX startZ w s1
          else walkQueries n 0 x z tolerance startX startZ w s1)
  /\ (forall n startX startZ s d1 n1 x1 z1 s1 d2 n2 x2 z2 s2 d3 n3 x3 z3 s3,
        pathAttempt x z tolerance w s = (Returned (Replan d1 n1 x1 z1), s1) ->
        pathAttempt x z tolerance w s1 = (Returned (Replan d2 n2 x2 z2), s2) ->
        pathAttempt x z tolerance w s2 = (Returned (Replan d3 n3 x3 z3), s3) ->
        progressBelow5 d1 n1 = true ->
        progressBelow5 d2 n2 = true ->
        progressBelow5 d3 n3 = true ->
        walkQueries (S (S (S n))) 0 x z tolerance startX startZ w s
        = (Returned (stuckFailure x z x3 z3), s3)
        /\ success (stuckFailure x z x3 z3) = false).
Proof.
  assert (Hstep : forall n stuckCount startX startZ s d nd ax az s1,
        pathAttempt x z tolerance w s = (Returned (Replan d nd ax az), s1) ->
        walkQueries (S n) stuckCount x z tolerance startX startZ w s
        = if progressBelow5 d nd then
            if 3 <=? stuckCount + 1
            then (Returned (stuckFailure x z ax az), s1)
            else walkQueries n (stuckCount + 1) x z tolerance startX startZ w s1
          else walkQueries n 0 x z tolerance startX startZ w s1).
  { intros n stuckCount startX startZ s d nd ax az s1 E.
    simpl. unfold bind at 1. rewrite E. cbv beta iota.
    destruct (progressBelow5 d nd); [|reflexivity].
    destruct (3 <=? stuckCount + 1); reflexivity. }
  split; [|split].
  - intros s. unfold walkTo, bind, getState, ret. cbv beta iota.
    destruct (hasPlayer (snapshotAt w (clock s))) as [p|];
      [|eexists _, s; split; [reflexivity|lia]].
    cbv zeta.
    destruct (within _ tolerance); [eexists _, s; split; [reflexivity|lia]|].
    apply walkQueries_spec.
  - exact Hstep.
  - intros n startX startZ s d1 n1 x1 z1 s1 d2 n2 x2 z2 s2 d3 n3 x3 z3 s3
           E1 E2 E3 L1 L2 L3.
    split; [|reflexivity].
    rewrite (Hstep _ _ _ _ _ _ _ _ _ _ E1), L1. simpl (3 <=? 0 + 1).
    cbv iota.
    rewrite (Hstep _ _ _ _ _ _ _ _ _ _ E2), L2. simpl (3 <=? 0 + 1 + 1).
    cbv iota.
    rewrite (Hstep _ _ _ _ _ _ _ _ _ _ E3), L3. reflexivity.
Qed.

Lemma walkTo_terminates_witness :
  let w := Sample.still (Sample.standing 0 0) [{| wpX := 5; wpZ := 0 |}] in
  fst (walkQueries 3 0 10 0 3 0 0 w Sample.start) = Returned (stuckFailure 10 0 0 0).
Proof.
  intros w.
  edestruct (proj2 (proj2 (walkTo_terminates w 10 0 3)) 0%nat 0 0 Sample.start)
    as [E _].
  - vm_compute. reflexivity.
  - vm_compute. reflexivity.
  - vm_compute. reflexivity.
  - reflexivity.
  - reflexivity.
  - reflexivity.
  - rewrite E. reflexivity.
Defined.

(** ** Shop and bank transactions *)

Lemma waitForCondition_sent (p : BotWorldState -> bool) (timeout : Z)
  (w : World) (s s' : Session) (o : Outcome BotWorldState) :
  waitForCondition p timeout w s = (o, s') -> sent s' = sent s.
Proof.
  destruct o as [st|e|]; intros H.
  - apply waitForCondition_returned in H. tauto.
  - apply waitForCondition_thrown in H. subst s'. reflexivity.
  - exfalso. apply (waitForCondition_finishes p timeout w s). rewrite H. reflexivity.
Qed.

Lemma sellToShopAwait_sent (sellItem : ShopItem.t) (startTick : Z) (before : N)
  (w : World) (s s' : Session) (o : Outcome ShopSellResult) :
  sellToShopAwait sellItem startTick before w s = (o, s') -> sent s' = sent s.
Proof.
  unfold sellToShopAwait, tryCatch, bind, ret. cbv beta iota.
  destruct (waitForCondition _ 5000 w s) as [o1 s1] eqn:E.
  apply waitForCondition_sent in E.
  destruct o1 as [fin|e|].
  - destruct (scanMessages _ _ _); intros H; inversion H; subst; exact E.
  - intros H; inversion H; subst; exact E.
  - intros H; inversion H; subst; exact E.
Qed.

(** C10: a numeric amount other than 1, 5 or 10 is replaced by 1 before
    the sell command goes out: with the shop open and the item found, the
    one command [sellToShop] sends is [sendShopSell(slot, 1)]. *)
Theorem sellToShop_clamps_amount (w : World) (s : Session) (target : ShopTarget)
  (amount : Z) (st : BotWorldState) (sellItem : ShopItem.t) :
  snapshotAt w (clock s) = Some st ->
  Shop.isOpen (shop st) = true ->
  resolveShopItem target (Shop.playerItems (shop st)) = Some sellItem ->
  ~ In amount [1; 5; 10] ->
  forall o s',
    sellToShop target (Units amount) w s = (o, s') ->
    sent s' = ShopSell (ShopItem.slot sellItem) 1 :: sent s.
Proof.
  intros Hst Hopen Hres Hamt o s'.
  unfold sellToShop. unfold bind at 1. unfold getState at 1. cbv beta iota.
  rewrite Hst, Hopen, Hres.
  unfold bind at 1. unfold getState at 1. cbv beta iota zeta.
  assert (Hin : existsb (Z.eqb amount) [1; 5; 10] = false).
  { destruct (existsb (Z.eqb amount) [1; 5; 10]) eqn:E; [|reflexivity].
    exfalso. apply Hamt. apply existsb_exists in E. destruct E as (v & Hv & Heq).
    apply Z.eqb_eq in Heq. subst v. exact Hv. }
  rewrite Hin.
  unfold bind at 1. unfold send at 1. cbv beta iota.
  destruct (negb (success (respond w (clock s) (ShopSell (ShopItem.slot sellItem) 1)))).
  - unfold ret. intros H. inversion H. reflexivity.
  - intros H. apply sellToShopAwait_sent in H. rewrite H. reflexivity.
Qed.

Lemma sellToShop_clamps_amount_witness :
  let item := {| ShopItem.slot := 4; ShopItem.id := 1739; ShopItem.name := "Cowhide";
                 ShopItem.count := 20 |} in
  let st := {| tick := 10; player := None; inventory := []; equipment := [];
               skills := []; nearbyNpcs := []; nearbyLocs := []; groundItems := [];
               dialog := {| Dialog.isOpen := false; Dialog.options := [] |};
               shop := {| Shop.isOpen := true; Shop.title := "General Store";
                          Shop.shopItems := []; Shop.playerItems := [item] |};
               interface := None; gameMessages := [] |} in
  sent (snd (sellToShop (ShopHandle item) (Units 7) (Sample.still st []) Sample.start))
  = [ShopSell 4 1].
Proof.
  intros item st.
  apply (sellToShop_clamps_amount (Sample.still st []) Sample.start (ShopHandle item) 7
           st item eq_refl eq_refl eq_refl
           ltac:(simpl; intros [H|[H|[H|H]]]; try discriminate H; exact H)
           (fst (sellToShop (ShopHandle item) (Units 7) (Sample.still st []) Sample.start))
           (snd (sellToShop (ShopHandle item) (Units 7) (Sample.still st []) Sample.start))).
  apply surjective_pairing.
Defined.

(** C9: [closeBank] and [closeShop] are idempotent.  With the modal UI
    already closed in the current snapshot each returns success at once
    and leaves the session untouched (no close command, no wait); and
    after a close that reported success, closing again reports success
    and changes nothing. *)
Theorem close_idempotent (w : World) :
  (forall s timeout,
      interfaceIsOpen (snapshotAt w (clock s)) = false ->
      closeBank timeout w s = (Returned (succeeded "Bank already closed"), s))
  /\ (forall s timeout,
        shopIsOpen (snapshotAt w (clock s)) = false ->
        interfaceIsOpen (snapshotAt w (clock s)) = false ->
        closeShop timeout w s = (Returned (succeeded "Shop already closed"), s))
  /\ (forall s timeout r s' again,
        closeBank timeout w s = (Returned r, s') -> success r = true ->
        closeBank again w s' = (Returned (succeeded "Bank already closed"), s'))
  /\ (forall s timeout r s' again,
        closeShop timeout w s = (Returned r, s') -> success r = true ->
        closeShop again w s' = (Returned (succeeded "Shop already closed"), s')).
Proof.
  assert (Hbank : forall s timeout,
      interfaceIsOpen (snapshotAt w (clock s)) = false ->
      closeBank timeout w s = (Returned (succeeded "Bank already closed"), s)).
  { intros s timeout H. unfold closeBank, bind, getState. cbv beta iota.
    rewrite H. reflexivity. }
  assert (Hshop : forall s timeout,
      shopIsOpen (snapshotAt w (clock s)) = false ->
      interfaceIsOpen (snapshotAt w (clock s)) = false ->
      closeShop timeout w s = (Returned (succeeded "Shop already closed"), s)).
  { intros s timeout H1 H2. unfold closeShop, bind, getState. cbv beta iota.
    rewrite H1, H2. reflexivity. }
  split; [exact Hbank|]. split; [exact Hshop|]. split.
  - intros s timeout r s' again Hrun Hok. apply Hbank.
    revert Hrun. unfold closeBank. unfold bind at 1. unfold getState at 1. cbv beta iota.
    destruct (interfaceIsOpen (snapshotAt w (clock s))) eqn:Eopen; cbn [negb].
    + unfold bind at 1. unfold send at 1. cbv beta iota.
      unfold tryCatch. unfold bind at 1.
      destruct (waitForCondition _ timeout w _) as [o1 s1] eqn:Ew.
      destruct o1 as [fin|e|].
      * apply waitForCondition_returned in Ew. destruct Ew as (Hfin & Hp & _).
        unfold ret. intros H. inversion H. subst. rewrite Hfin.
        simpl. apply negb_true_iff in Hp. exact Hp.
      * unfold bind, send, sleep, getState, ret. cbv beta iota.
        match goal with |- context [interfaceIsOpen ?st] =>
          destruct (interfaceIsOpen st) eqn:Efin end; cbn [negb].
        -- intros H. inversion H. subst. simpl in Hok. discriminate.
        -- intros H. inversion H. subst. exact Efin.
      * intros H. inversion H.
    + unfold ret. intros H. inversion H. subst. exact Eopen.
  - intros s timeout r s' again Hrun Hok.
    revert Hrun. unfold closeShop. unfold bind at 1. unfold getState at 1. cbv beta iota.
    destruct (negb (shopIsOpen (snapshotAt w (clock s)))
              && negb (interfaceIsOpen (snapshotAt w (clock s)))) eqn:Eclosed.
    + unfold ret. intros H. inversion H. subst.
      apply andb_true_iff in Eclosed. destruct Eclosed as [E1 E2].
      apply negb_true_iff in E1, E2. apply Hshop; assumption.
    + unfold bind at 1. unfold send at 1. cbv beta iota.
      unfold tryCatch. unfold bind at 1.
      destruct (waitForCondition _ timeout w _) as [o1 s1] eqn:Ew.
      destruct o1 as [fin|e|].
      * apply waitForCondition_returned in Ew. destruct Ew as (Hfin & Hp & _).
        unfold ret. intros H. inversion H. subst.
        unfold closedCondition in Hp. apply andb_true_iff in Hp. destruct Hp as [E1 E2].
        apply negb_true_iff in E1, E2.
        apply Hshop; rewrite Hfin; simpl; assumption.
      * unfold bind, send, sleep, getState, ret. cbv beta iota.
        match goal with |- context [negb (shopIsOpen ?st) && _] =>
          destruct (negb (shopIsOpen st) && negb (interfaceIsOpen st)) eqn:Efin end.
        -- intros H. inversion H. subst.
           apply andb_true_iff in Efin. destruct Efin as [E1 E2].
           apply negb_true_iff in E1, E2. apply Hshop; assumption.
        -- intros H. inversion H. subst. simpl in Hok. discriminate.
      * intros H. inversion H.
Qed.

Lemma close_idempotent_witness :
  let w := Sample.scripted 600 (Sample.atBank true []) [Sample.atBank false []] in
  let s' := snd (closeBank 5000 w Sample.start) in
  closeBank 5000 w s' = (Returned (succeeded "Bank already closed"), s')
  /\ sent s' = [CloseModal].
Proof.
  intros w s'. split; [|reflexivity].
  apply (proj1 (proj2 (proj2 (close_idempotent w)))
           Sample.start 5000 (succeeded "Bank closed") s' 5000);
    reflexivity.
Defined.

Lemma pollUntil_withRespond (ack : Z -> Command -> ActionResult) (w : World)
  (p : BotWorldState -> bool) :
  forall polls s, pollUntil polls p (withRespond ack w) s = pollUntil polls p w s.
Proof.
  induction polls as [|n IH]; intros s; simpl.
  - reflexivity.
  - rewrite IH. reflexivity.
Qed.

Lemma waitForCondition_withRespond (ack : Z -> Command -> ActionResult) (w : World)
  (p : BotWorldState -> bool) (timeout : Z) (s : Session) :
  waitForCondition p timeout (withRespond ack w) s = waitForCondition p timeout w s.
Proof.
  unfold waitForCondition. rewrite pollUntil_withRespond. reflexivity.
Qed.

(** C2: with the bank open and the item resolved, let B be the item's
    inventory count in the snapshot read before the deposit command and A
    its count in the snapshot at which the wait completes.  Then A < B and
    [depositItem] returns success with [amountDeposited = B - A].  The
    answer of the command channel plays no part: any other channel gives
    the same outcome. *)
Theorem depositItem_reports_difference (w : World) (s : Session)
  (target : Target InventoryItem.t) (amount : Z) :
  (forall st item fin s',
      snapshotAt w (clock s) = Some st ->
      interfaceOpen st = true ->
      resolveInventoryItem (Some target) anyChar w s = (Returned (Some item), s) ->
      waitForCondition
        (depositCondition (InventoryItem.id item)
                          (inventoryCount (InventoryItem.id item) (inventory st)))
        5000 w
        (advance (Z.of_N (rtt w)) (record (BankDeposit (InventoryItem.slot item) amount) s))
      = (Returned fin, s') ->
      let before := inventoryCount (InventoryItem.id item) (inventory st) in
      let after := inventoryCount (InventoryItem.id item) (inventory fin) in
      (after < before)%N
      /\ exists r,
          depositItem target amount w s = (Returned r, s')
          /\ success (base r) = true
          /\ amountDeposited r = Some (Z.of_N before - Z.of_N after))
  /\ (forall ack,
        depositItem target amount (withRespond ack w) s
        = depositItem target amount w s).
Proof.
  split.
  - intros st item fin s' Hst Hopen Hres Hwait before after.
    pose proof (waitForCondition_returned _ _ _ _ _ _ Hwait) as (Hfin & Hp & _).
    split.
    + unfold depositCondition in Hp. apply N.ltb_lt in Hp. exact Hp.
    + eexists. split; [|split].
      * unfold depositItem. unfold bind at 1. unfold getState at 1. cbv beta iota.
        rewrite Hst, Hopen.
        unfold bind at 1. rewrite Hres. cbv beta iota zeta.
        unfold bind at 1. unfold send at 1. cbv beta iota.
        unfold depositItemAwait, tryCatch. unfold bind at 1.
        rewrite Hwait. cbv beta iota.
        unfold bind, getState, ret. cbv beta iota zeta.
        rewrite Hfin. reflexivity.
      * reflexivity.
      * reflexivity.
  - intros ack.
    unfold depositItem, depositItemAwait, tryCatch, resolveInventoryItem,
      findInventoryItem, getInventory, bind, getState, send, ret.
    cbv beta iota.
    change (snapshotAt (withRespond ack w)) with (snapshotAt w).
    change (rtt (withRespond ack w)) with (rtt w).
    destruct (snapshotAt w (clock s)) as [st|] eqn:Hst; [|reflexivity].
    destruct (interfaceOpen st); [|reflexivity].
    destruct target as [item|r]; cbv beta iota.
    + rewrite waitForCondition_withRespond. reflexivity.
    + change (snapshotAt (withRespond ack w)) with (snapshotAt w).
      rewrite Hst.
      match goal with |- context [find ?f (inventory st)] =>
        destruct (find f (inventory st)) as [item|]; [|reflexivity] end.
      change (rtt (withRespond ack w)) with (rtt w).
      rewrite waitForCondition_withRespond. reflexivity.
Qed.

Lemma depositItem_reports_difference_witness :
  let w := Sample.refusing
             (Sample.scripted 600
                (Sample.atBank true [Sample.cowhides 0 10; Sample.cowhides 3 2])
                [Sample.atBank true [Sample.cowhides 0 3; Sample.cowhides 3 2]]) in
  exists r s',
    depositItem (Handle (Sample.cowhides 0 10)) 7 w Sample.start = (Returned r, s')
    /\ success (base r) = true
    /\ amountDeposited r = Some 7.
Proof.
  intros w.
  destruct (proj1 (depositItem_reports_difference w Sample.start
                     (Handle (Sample.cowhides 0 10)) 7)
                  (Sample.atBank true [Sample.cowhides 0 10; Sample.cowhides 3 2])
                  (Sample.cowhides 0 10)
                  (Sample.atBank true [Sample.cowhides 0 3; Sample.cowhides 3 2])
                  {| clock := 600; sent := [BankDeposit 0 7] |}
                  eq_refl eq_refl eq_refl eq_refl)
    as [_ (r & E & Hok & Hamt)].
  exists r, {| clock := 600; sent := [BankDeposit 0 7] |}.
  split; [exact E|]. split; [exact Hok|exact Hamt].
Defined.

(** ** attackNpc *)

Lemma scan_attack_reach (npc : NearbyNpc.t) (startTick : Z) (m : GameMessage)
  (after : list GameMessage) :
  forall before,
    newer startTick m = true ->
    cantReach (toLowerCase (msgText m)) = true ->
    (forall m', In m' before -> newer startTick m' = true ->
                inCombat (toLowerCase (msgText m')) = false) ->
    exists r,
      scanMessages startTick (attackFailure npc) (before ++ m :: after) = Some r
      /\ success (base r) = false
      /\ reason (base r) = Some "out_of_reach"%string.
Proof.
  induction before as [|m' rest IH]; intros Hnew Hreach Hquiet; simpl.
  - rewrite Hnew. unfold attackFailure. rewrite Hreach.
    eexists. split; [reflexivity|split; reflexivity].
  - destruct (newer startTick m') eqn:En.
    + unfold attackFailure at 1.
      destruct (cantReach (toLowerCase (msgText m'))).
      * eexists. split; [reflexivity|split; reflexivity].
      * rewrite (Hquiet m' (or_introl eq_refl) En).
        apply IH; auto. intros m2 Hin. apply Hquiet. right. exact Hin.
    + apply IH; auto. intros m2 Hin. apply Hquiet. right. exact Hin.
Qed.

Lemma scan_attack_stale (npc : NearbyNpc.t) (startTick : Z) :
  forall msgs r,
    (forall m, In m msgs -> cantReach (toLowerCase (msgText m)) = true ->
               msgTick m <= startTick) ->
    scanMessages startTick (attackFailure npc) msgs = Some r ->
    reason (base r) = Some "already_in_combat"%string.
Proof.
  induction msgs as [|m rest IH]; intros r Hstale; simpl.
  - discriminate.
  - destruct (newer startTick m) eqn:En.
    + unfold attackFailure at 1.
      destruct (cantReach (toLowerCase (msgText m))) eqn:Er.
      * exfalso. pose proof (Hstale m (or_introl eq_refl) Er) as Hle.
        unfold newer in En. apply Z.gtb_lt in En. lia.
      * destruct (inCombat (toLowerCase (msgText m))).
        -- intros H. inversion H. reflexivity.
        -- apply IH. intros m2 Hin. apply Hstale. right. exact Hin.
    + apply IH. intros m2 Hin. apply Hstale. right. exact Hin.
Qed.

(** C3, as amended: let [startTick] be the tick read just before the
    attack command is sent and let the wait return the snapshot [fin].
    If [fin] lists a message newer than [startTick] with an
    unreachable-target phrase, and no message newer than [startTick] listed
    before it has an already-in-combat phrase, [attackNpc] fails with
    reason 'out_of_reach'.  If every message of [fin] with such a phrase
    has tick at most [startTick], the result is never 'out_of_reach'. *)
Theorem attackNpc_out_of_reach (w : World) (s : Session)
  (target : Target NearbyNpc.t) (timeout : Z)
  (npc : NearbyNpc.t) (attackOpt : Opt) (fin : BotWorldState) (s' : Session) :
  resolveNpc target w s = (Returned (Some npc), s) ->
  find (fun o => test attackPattern (text o)) (NearbyNpc.optionsWithIndex npc)
  = Some attackOpt ->
  success (respond w (clock s) (InteractNpc (NearbyNpc.index npc) (opIndex attackOpt)))
  = true ->
  waitForCondition
    (attackCondition (NearbyNpc.index npc) (tickOf (snapshotAt w (clock s)))) timeout w
    (advance (Z.of_N (rtt w))
             (record (InteractNpc (NearbyNpc.index npc) (opIndex attackOpt)) s))
  = (Returned fin, s') ->
  let startTick := tickOf (snapshotAt w (clock s)) in
  (forall before m after,
      gameMessages fin = before ++ m :: after ->
      msgTick m > startTick ->
      cantReach (toLowerCase (msgText m)) = true ->
      (forall m', In m' before -> msgTick m' > startTick ->
                  inCombat (toLowerCase (msgText m')) = false) ->
      exists r,
        attackNpc target timeout w s = (Returned r, s')
        /\ success (base r) = false
        /\ reason (base r) = Some "out_of_reach"%string)
  /\ ((forall m, In m (gameMessages fin) ->
                 cantReach (toLowerCase (msgText m)) = true ->
                 msgTick m <= startTick) ->
      exists r,
        attackNpc target timeout w s = (Returned r, s')
        /\ reason (base r) <> Some "out_of_reach"%string).
Proof.
  intros Hres Hopt Hok Hwait startTick.
  assert (Hrun : attackNpc target timeout w s
                 = (Returned (attackVerdict npc startTick fin), s')).
  { unfold attackNpc. unfold bind at 1. rewrite Hres. cbv beta iota. rewrite Hopt.
    unfold bind at 1. unfold getState at 1. cbv beta iota zeta.
    unfold bind at 1. unfold send at 1. cbv beta iota. rewrite Hok. cbn [negb].
    unfold attackNpcAwait, tryCatch. unfold bind at 1. rewrite Hwait. reflexivity. }
  split.
  - intros before m after Hmsgs Hnew Hreach Hquiet.
    destruct (scan_attack_reach npc startTick m after before) as (r & E & Hf & Hr).
    + unfold newer. apply Z.gtb_lt. lia.
    + exact Hreach.
    + intros m' Hin Hn. apply Hquiet; [exact Hin|].
      unfold newer in Hn. apply Z.gtb_lt in Hn. lia.
    + exists r. split; [|split; assumption].
      rewrite Hrun. unfold attackVerdict. rewrite Hmsgs, E. reflexivity.
  - intros Hstale. eexists. split; [exact Hrun|].
    unfold attackVerdict.
    destruct (scanMessages startTick (attackFailure npc) (gameMessages fin)) as [r|] eqn:E.
    + rewrite (scan_attack_stale npc startTick _ r Hstale E). discriminate.
    + simpl. discriminate.
Qed.

Lemma attackNpc_out_of_reach_witness :
  let w := Sample.scripted 600 (Sample.scene 10 [] [])
             [Sample.scene 11 []
                [{| msgTick := 9; msgText := "Someone else is fighting that." |};
                 {| msgTick := 11; msgText := "I can't reach that!" |}]] in
  exists r s',
    attackNpc (Handle Sample.goblin) 5000 w Sample.start = (Returned r, s')
    /\ success (base r) = false
    /\ reason (base r) = Some "out_of_reach"%string.
Proof.
  intros w.
  destruct (proj1 (attackNpc_out_of_reach w Sample.start (Handle Sample.goblin) 5000
                     Sample.goblin {| text := "Attack"; opIndex := 2 |}
                     (Sample.scene 11 []
                        [{| msgTick := 9; msgText := "Someone else is fighting that." |};
                         {| msgTick := 11; msgText := "I can't reach that!" |}])
                     {| clock := 600; sent := [InteractNpc 7 2] |}
                     eq_refl eq_refl eq_refl eq_refl)
                  [{| msgTick := 9; msgText := "Someone else is fighting that." |}]
                  {| msgTick := 11; msgText := "I can't reach that!" |} []
                  eq_refl eq_refl eq_refl
                  ltac:(simpl; intros m' [<-|[]] H; vm_compute in H; discriminate H))
    as (r & E & Hf & Hr).
  exists r, {| clock := 600; sent := [InteractNpc 7 2] |}.
  split; [exact E|]. split; [exact Hf|exact Hr].
Defined.

(** C3 as stated fails when an already-in-combat message newer than
    [startTick] is listed before the unreachable one: the message
    "I can't reach that!" has tick 11 > 10, yet the reason is
    'already_in_combat'. *)
Lemma attackNpc_reach_message_outranked :
  let fin := Sample.scene 11 []
               [{| msgTick := 11; msgText := "Someone else is fighting that." |};
                {| msgTick := 11; msgText := "I can't reach that!" |}] in
  let w := Sample.scripted 600 (Sample.scene 10 [] []) [fin] in
  tickOf (snapshotAt w (clock Sample.start)) = 10
  /\ (exists m, In m (gameMessages fin) /\ msgTick m > 10
                /\ cantReach (toLowerCase (msgText m)) = true)
  /\ attackNpc (Handle Sample.goblin) 5000 w Sample.start
     = (Returned {| attack_base :=
                      failureBecause "Goblin is already in combat" "already_in_combat" |},
        {| clock := 600; sent := [InteractNpc 7 2] |}).
Proof.
  intros fin w. split; [reflexivity|]. split.
  - exists {| msgTick := 11; msgText := "I can't reach that!" |}.
    split; [right; left; reflexivity|]. split; reflexivity.
  - vm_compute. reflexivity.
Qed.

(** ** sellAllToShop *)

Lemma count_fold (l : list ShopItem.t) :
  forall a, fold_left (fun sum i => (sum + ShopItem.count i)%N) l a
            = (a + fold_left (fun sum i => (sum + ShopItem.count i)%N) l 0)%N.
Proof.
  induction l as [|i l IH]; intros a; simpl.
  - lia.
  - rewrite IH. rewrite (IH (ShopItem.count i)). lia.
Qed.

(** The first stack of the item counts no more than the total. *)
Lemma getTotalCount_ge (itemId : Z) (items : list ShopItem.t) (it : ShopItem.t) :
  find (fun i => ShopItem.id i =? itemId) items = Some it ->
  (ShopItem.count it <= getTotalCount itemId items)%N.
Proof.
  unfold getTotalCount, find. induction items as [|i rest IH]; simpl.
  - discriminate.
  - destruct (ShopItem.id i =? itemId) eqn:E.
    + intros H. inversion H. subst. simpl. rewrite count_fold. lia.
    + exact IH.
Qed.

Lemma scan_sellAll_some (sellItem : ShopItem.t) (startTick totalSold : Z) :
  forall msgs r,
    scanMessages startTick (sellAllRejection sellItem totalSold) msgs = Some r ->
    rejected r = true /\ amountSold r = Some totalSold.
Proof.
  induction msgs as [|m rest IH]; intros r; simpl.
  - discriminate.
  - destruct (newer startTick m); [|apply IH].
    unfold sellAllRejection at 1.
    destruct (includes _ "can't sell this item to this shop").
    + intros H. inversion H. split; reflexivity.
    + destruct (includes _ "can't sell this item").
      * intros H. inversion H. split; reflexivity.
      * apply IH.
Qed.

Lemma scan_sellAll_none (sellItem : ShopItem.t) (startTick totalSold : Z) :
  forall msgs,
    scanMessages startTick (sellAllRejection sellItem totalSold) msgs = None ->
    anyMessage startTick cantSell msgs = false.
Proof.
  unfold anyMessage. induction msgs as [|m rest IH]; simpl.
  - reflexivity.
  - destruct (newer startTick m); [|exact IH].
    unfold sellAllRejection at 1. unfold cantSell at 1.
    destruct (includes _ "can't sell this item to this shop"); [discriminate|].
    destruct (includes _ "can't sell this item"); [discriminate|].
    exact IH.
Qed.

(** What one pass of the loop can do. *)
Lemma sellBatch_spec (w : World) (sellItem : ShopItem.t) (startTick totalSold : Z)
  (s : Session) :
  exists b s1,
    sellBatch sellItem startTick totalSold w s = (Returned b, s1)
    /\ (sent s1 = sent s
        \/ exists itemSlot amount,
             sent s1 = ShopSell itemSlot amount :: sent s
             /\ 0 < amount <= Z.of_N MAX_PER_CLICK)
    /\ match b with
       | Next t1 =>
           (held w (ShopItem.id sellItem) s1 < held w (ShopItem.id sellItem) s)%N
           /\ t1 = totalSold + Z.of_N (held w (ShopItem.id sellItem) s)
                   - Z.of_N (held w (ShopItem.id sellItem) s1)
       | Answer r =>
           rejected r = true /\ amountSold r = Some totalSold
           /\ (0 < held w (ShopItem.id sellItem) s)%N
       | Break t1 => t1 = totalSold
       end.
Proof.
  unfold sellBatch, held. unfold bind at 1. unfold getState at 1. cbv beta iota.
  destruct (snapshotAt w (clock s)) as [st|] eqn:Hst;
    [|eexists _, s; split; [reflexivity|split; [left; reflexivity|reflexivity]]].
  destruct (Shop.isOpen (shop st));
    [|eexists _, s; split; [reflexivity|split; [left; reflexivity|reflexivity]]].
  destruct (find _ (Shop.playerItems (shop st))) as [currentItem|] eqn:Hfind;
    [|eexists _, s; split; [reflexivity|split; [left; reflexivity|reflexivity]]].
  destruct (ShopItem.count currentItem =? 0)%N eqn:Hzero;
    [eexists _, s; split; [reflexivity|split; [left; reflexivity|reflexivity]]|].
  apply N.eqb_neq in Hzero.
  pose proof (getTotalCount_ge _ _ _ Hfind) as Hge.
  cbv zeta. unfold bind at 1. unfold send at 1. cbv beta iota.
  set (cmd := ShopSell (ShopItem.slot currentItem)
                       (Z.of_N (N.min MAX_PER_CLICK (ShopItem.count currentItem)))).
  set (s0 := advance (Z.of_N (rtt w)) (record cmd s)).
  assert (Hcmd : exists itemSlot amount,
             sent s0 = ShopSell itemSlot amount :: sent s
             /\ 0 < amount <= Z.of_N MAX_PER_CLICK).
  { exists (ShopItem.slot currentItem),
           (Z.of_N (N.min MAX_PER_CLICK (ShopItem.count currentItem))).
    split; [reflexivity|]. unfold MAX_PER_CLICK. lia. }
  destruct (negb (success (respond w (clock s) cmd))).
  - eexists _, s0. split; [reflexivity|]. split; [right; exact Hcmd|reflexivity].
  - unfold tryCatch. unfold bind at 1.
    destruct (waitForCondition _ 3000 w s0) as [o s1] eqn:Ew.
    pose proof (waitForCondition_sent _ _ _ _ _ _ Ew) as Hsent.
    assert (Hcmd1 : exists itemSlot amount,
               sent s1 = ShopSell itemSlot amount :: sent s
               /\ 0 < amount <= Z.of_N MAX_PER_CLICK).
    { rewrite Hsent. exact Hcmd. }
    destruct o as [fin|e|].
    + apply waitForCondition_returned in Ew. destruct Ew as (Hfin & Hp & _).
      unfold ret. eexists _, s1. split; [reflexivity|]. split; [right; exact Hcmd1|].
      unfold afterBatch.
      destruct (scanMessages startTick (sellAllRejection sellItem totalSold)
                             (gameMessages fin)) as [r|] eqn:Escan.
      * apply scan_sellAll_some in Escan. destruct Escan as [Hr Ha].
        split; [exact Hr|]. split; [exact Ha|]. simpl. lia.
      * apply scan_sellAll_none in Escan.
        unfold sellCondition in Hp. rewrite Escan in Hp. simpl in Hp.
        apply N.ltb_lt in Hp.
        match goal with |- context [?d =? 0] => destruct (d =? 0) eqn:Ed end.
        -- apply Z.eqb_eq in Ed. lia.
        -- rewrite Hfin. simpl. split; [exact Hp|lia].
    + unfold ret. eexists _, s1. split; [reflexivity|].
      split; [right; exact Hcmd1|reflexivity].
    + exfalso. eapply waitForCondition_finishes. rewrite Ew. reflexivity.
Qed.

(** Nothing left to sell: the pass breaks out before sending anything. *)
Lemma sellBatch_nothing_left (w : World) (sellItem : ShopItem.t)
  (startTick totalSold : Z) (s : Session) :
  held w (ShopItem.id sellItem) s = 0%N ->
  sellBatch sellItem startTick totalSold w s = (Returned (Break totalSold), s).
Proof.
  unfold sellBatch, held. unfold bind at 1. unfold getState at 1. cbv beta iota.
  destruct (snapshotAt w (clock s)) as [st|]; [|reflexivity].
  simpl. intros Hheld.
  destruct (Shop.isOpen (shop st)); [|reflexivity].
  destruct (find _ (Shop.playerItems (shop st))) as [currentItem|] eqn:Hfind; [|reflexivity].
  pose proof (getTotalCount_ge _ _ _ Hfind) as Hge.
  assert (Hz : ShopItem.count currentItem = 0%N) by lia.
  rewrite Hz. reflexivity.
Qed.

Lemma sellAllLoop_spec (w : World) (sellItem : ShopItem.t) (startTick : Z) :
  forall fuel totalSold s,
    (N.to_nat (held w (ShopItem.id sellItem) s) < fuel)%nat ->
    exists r s' new,
      sellAllLoop fuel sellItem startTick totalSold w s = (Returned r, s')
      /\ sent s' = new ++ sent s
      /\ Forall capped new.
Proof.
  induction fuel as [|fuel IH]; intros totalSold s Hfuel; [lia|].
  simpl. unfold bind at 1.
  destruct (sellBatch_spec w sellItem startTick totalSold s) as (b & s1 & E & Hsent & Hb).
  rewrite E. cbv beta iota.
  assert (Hnew : exists new, sent s1 = new ++ sent s /\ Forall capped new).
  { destruct Hsent as [Hs|(sl & a & Hs & Ha)].
    - exists []. split; [exact Hs|constructor].
    - exists [ShopSell sl a]. split; [exact Hs|]. constructor; [exact Ha|constructor]. }
  destruct Hnew as (new1 & Hs1 & Hc1).
  destruct b as [r|t1|t1].
  - exists r, s1, new1. split; [reflexivity|]. split; assumption.
  - eexists _, s1, new1. split; [reflexivity|]. split; assumption.
  - destruct Hb as [Hless _].
    destruct (IH t1 s1 ltac:(lia)) as (r & s' & new & E2 & Hs2 & Hc2).
    exists r, s', (new ++ new1). split; [exact E2|]. split.
    + rewrite Hs2, Hs1. rewrite app_assoc. reflexivity.
    + apply Forall_app. split; assumption.
Qed.

(** A run of sold batches is what the loop does first; the units sold and
    the units still held always add up to the same total. *)
Lemma sellAllLoop_follows (w : World) (sellItem : ShopItem.t) (startTick : Z)
  (s : Session) (t : Z) (s1 : Session) (t1 : Z) :
  sells w sellItem startTick s t s1 t1 ->
  forall fuel,
    (N.to_nat (held w (ShopItem.id sellItem) s) < fuel)%nat ->
    t1 + Z.of_N (held w (ShopItem.id sellItem) s1)
    = t + Z.of_N (held w (ShopItem.id sellItem) s)
    /\ exists fuel1,
        (N.to_nat (held w (ShopItem.id sellItem) s1) < fuel1)%nat
        /\ sellAllLoop fuel sellItem startTick t w s
           = sellAllLoop fuel1 sellItem startTick t1 w s1.
Proof.
  induction 1 as [s t|s t s1 t1 s' t' Hbatch Hrest IH]; intros fuel Hfuel.
  - split; [reflexivity|]. exists fuel. split; [exact Hfuel|reflexivity].
  - destruct (sellBatch_spec w sellItem startTick t s) as (b & s2 & E & _ & Hb).
    rewrite Hbatch in E. inversion E. subst b s2. destruct Hb as [Hless Ht1].
    destruct fuel as [|fuel]; [lia|].
    destruct (IH fuel ltac:(lia)) as (Hsum & fuel1 & Hf1 & Eloop).
    split; [lia|]. exists fuel1. split; [exact Hf1|].
    rewrite <- Eloop. simpl. unfold bind at 1. rewrite Hbatch. reflexivity.
Qed.

(** C5: [sellToShop(item, 'all')] runs the sell-all loop, with N the
    units of the item held at entry.
    - The loop always ends with a result, never an exception, and every
      command it sends is a sell of between one and ten units.
    - After any run of sold batches the units sold are the drop of the
      held total; when the run leaves nothing held (every batch
      succeeded) and N > 0, the result is a success with
      [amountSold = N].
    - When a pass after such a run meets a rejection message, the loop
      returns that pass's result: [rejected], with [amountSold] below N.
    - A batch without progress breaks out, and a break ends the loop with
      the summary of what was sold so far. *)
Theorem sellAllToShop_sells_everything (w : World) (sellItem : ShopItem.t)
  (startTick : Z) :
  let units := held w (ShopItem.id sellItem) in
  (forall s, exists r s' new,
      sellAllToShop sellItem startTick w s = (Returned r, s')
      /\ sent s' = new ++ sent s
      /\ Forall capped new)
  /\ (forall s s1 k,
        sells w sellItem startTick s 0 s1 k ->
        k = Z.of_N (units s) - Z.of_N (units s1)
        /\ (units s1 = 0%N -> (0 < units s)%N ->
            exists r,
              sellAllToShop sellItem startTick w s = (Returned r, s1)
              /\ success (base r) = true
              /\ rejected r = false
              /\ amountSold r = Some (Z.of_N (units s))))
  /\ (forall s s1 k r s2,
        sells w sellItem startTick s 0 s1 k ->
        sellBatch sellItem startTick k w s1 = (Returned (Answer r), s2) ->
        sellAllToShop sellItem startTick w s = (Returned r, s2)
        /\ rejected r = true
        /\ amountSold r = Some k
        /\ k < Z.of_N (units s))
  /\ (forall totalSold before fin,
        scanMessages startTick (sellAllRejection sellItem totalSold) (gameMessages fin)
        = None ->
        getTotalCount (ShopItem.id sellItem) (Shop.playerItems (shop fin)) = before ->
        afterBatch sellItem startTick totalSold before fin = Break totalSold)
  /\ (forall s s1 k k' s2,
        sells w sellItem startTick s 0 s1 k ->
        sellBatch sellItem startTick k w s1 = (Returned (Break k'), s2) ->
        sellAllToShop sellItem startTick w s
        = (Returned (sellAllSummary sellItem k'), s2))
  /\ (forall s target st,
        snapshotAt w (clock s) = Some st ->
        Shop.isOpen (shop st) = true ->
        resolveShopItem target (Shop.playerItems (shop st)) = Some sellItem ->
        startTick = tick st ->
        sellToShop target All w s = sellAllToShop sellItem startTick w s).
Proof.
  intros units.
  assert (Hentry : forall s,
             sellAllToShop sellItem startTick w s
             = sellAllLoop (S (N.to_nat (units s))) sellItem startTick 0 w s).
  { intros s. unfold sellAllToShop, bind, getState. reflexivity. }
  assert (Hrun : forall s s1 k,
             sells w sellItem startTick s 0 s1 k ->
             k + Z.of_N (units s1) = Z.of_N (units s)
             /\ exists fuel1,
                 sellAllToShop sellItem startTick w s
                 = sellAllLoop (S fuel1) sellItem startTick k w s1).
  { intros s s1 k Hsells.
    destruct (sellAllLoop_follows w sellItem startTick s 0 s1 k Hsells
                (S (N.to_nat (units s))) ltac:(unfold units; lia))
      as (Hsum & fuel1 & Hf1 & Eloop).
    split; [unfold units; lia|].
    destruct fuel1 as [|fuel1]; [lia|].
    exists fuel1. rewrite Hentry. exact Eloop. }
  split; [|split; [|split; [|split; [|split]]]].
  - intros s. rewrite Hentry. apply sellAllLoop_spec. unfold units. lia.
  - intros s s1 k Hsells. destruct (Hrun s s1 k Hsells) as (Hsum & fuel1 & Eloop).
    split; [lia|]. intros Hnone Hsome.
    exists (sellAllSummary sellItem k). split.
    + rewrite Eloop. simpl. unfold bind at 1.
      rewrite (sellBatch_nothing_left w sellItem startTick k s1 Hnone). reflexivity.
    + unfold sellAllSummary.
      assert (Hk : k = Z.of_N (units s)) by lia.
      destruct (k =? 0) eqn:Ek; [apply Z.eqb_eq in Ek; lia|].
      simpl. rewrite Hk. repeat split; reflexivity.
  - intros s s1 k r s2 Hsells Hbatch.
    destruct (Hrun s s1 k Hsells) as (Hsum & fuel1 & Eloop).
    destruct (sellBatch_spec w sellItem startTick k s1) as (b & s3 & E & _ & Hb).
    rewrite Hbatch in E. inversion E. subst b s3. destruct Hb as (Hr & Ha & Hpos).
    fold units in Hpos.
    split; [|split; [exact Hr|split; [exact Ha|lia]]].
    rewrite Eloop. simpl. unfold bind at 1. rewrite Hbatch. reflexivity.
  - intros totalSold before fin Hscan Hsame. unfold afterBatch. rewrite Hscan, Hsame.
    rewrite Z.sub_diag. simpl. rewrite Z.add_0_r. reflexivity.
  - intros s s1 k k' s2 Hsells Hbatch.
    destruct (Hrun s s1 k Hsells) as (_ & fuel1 & Eloop).
    rewrite Eloop. simpl. unfold bind at 1. rewrite Hbatch. reflexivity.
  - intros s target st Hst Hopen Hres Htick.
    unfold sellToShop. unfold bind at 1. unfold getState at 1. cbv beta iota.
    rewrite Hst, Hopen, Hres. unfold bind at 1. unfold getState at 1. cbv beta iota.
    rewrite Hst. simpl tickOf. rewrite Htick. reflexivity.
Qed.

Lemma sellAllToShop_sells_everything_witness :
  exists r s',
    sellAllToShop (Sample.hide 0 12) 10 Sample.sellingOut Sample.start
    = (Returned r, s')
    /\ success (base r) = true
    /\ rejected r = false
    /\ amountSold r = Some 21.
Proof.
  destruct (proj1 (proj2 (sellAllToShop_sells_everything
                            Sample.sellingOut (Sample.hide 0 12) 10))
                  Sample.start
                  {| clock := 1800; sent := [ShopSell 1 9; ShopSell 0 2; ShopSell 0 10] |}
                  21) as [_ H].
  - eapply sells_more; [vm_compute; reflexivity|].
    eapply sells_more; [vm_compute; reflexivity|].
    eapply sells_more; [vm_compute; reflexivity|].
    apply sells_none.
  - destruct (H eq_refl eq_refl) as (r & E & Hok & Hrej & Hamt).
    exists r, {| clock := 1800; sent := [ShopSell 1 9; ShopSell 0 2; ShopSell 0 10] |}.
    repeat split; assumption.
Defined.

Example sellAllToShop_rejected_midway :
  let item := Sample.hide 0 25 in
  let w := Sample.scripted 600
             (Sample.atShop 10 [item] [])
             [Sample.atShop 11 [Sample.hide 0 15] [];
              Sample.atShop 12 [Sample.hide 0 15]
                [{| msgTick := 12;
                    msgText := "You can't sell this item to this shop." |}]] in
  fst (sellToShop (ShopHandle item) All w Sample.start)
  = Returned {| sell_base := succeeded "Sold Cowhide x10, then shop stopped buying";
                amountSold := Some 10; rejected := true |}.
Proof. vm_compute. reflexivity. Qed.

(** ** Case analysis of an action *)

Ltac innermost x :=
  lazymatch x with
  | context [match ?y with _ => _ end] => innermost y
  | _ => x
  end.

Ltac crunch :=
  repeat (cbv beta iota zeta;
          match goal with
          | |- context [match ?x with _ => _ end] =>
              let y := innermost x in destruct y eqn:?
          end);
  cbv beta iota zeta.

Ltac in_list := cbn; repeat first [exact I | left; reflexivity | right].

Ltac settle :=
  let H := fresh "H" in
  intros H; first [discriminate H | solve [inversion H; subst; clear H; in_list]].


(** ** openBank comes back *)






(** ** No action throws *)
























(** ** Timeouts *)





(** Nor is every timeout a failure for [sellToShop] with 'all': the first
    batch sells ten hides, the wait of the second times out after 3000 ms,
    and the action reports the ten as a success. *)
Example sellToShop_all_timeout_after_a_sale :
  let w := Sample.stalling in
  waitForCondition (sellCondition 1739 10 2) 3000 w
                   {| clock := 600; sent := [ShopSell 0 2; ShopSell 0 10] |}
  = (Thrown ConditionTimeout,
     {| clock := 3600; sent := [ShopSell 0 2; ShopSell 0 10] |})
  /\ sellToShop (ShopHandle (Sample.hide 0 12)) All w Sample.start
     = (Returned {| sell_base := succeeded "Sold Cowhide x10";
                    amountSold := Some 10; rejected := false |},
        {| clock := 3600; sent := [ShopSell 0 2; ShopSell 0 10] |}).
Proof. split; vm_compute; reflexivity. Qed.

(** ** Reasons *)

(** A result found by scanning the chat carries a reason its classifier
    can give. *)
Lemma scan_reasons {R} `{Result R} (allowed : list string)
  (classify : string -> option R) :
  (forall t r, classify t = Some r -> reasonIn allowed (base r)) ->
  forall startTick msgs r,
    scanMessages startTick classify msgs = Some r -> reasonIn allowed (base r).
Proof.
  intros Hc startTick. induction msgs as [|m rest IH]; intros r; simpl.
  - discriminate.
  - destruct (newer startTick m); [|apply IH].
    destruct (classify (toLowerCase (msgText m))) as [r0|] eqn:E; [|apply IH].
    intros Hr. inversion Hr. subst. eapply Hc. exact E.
Qed.

Ltac by_scan classifier :=
  let H := fresh "H" in
  intros H; inversion H; subst; clear H;
  eapply scan_reasons; [|eassumption];
  let t := fresh "t" in
  let r := fresh "r" in
  intros t r; unfold classifier; crunch; settle.

Lemma openDoor_reasons (target : option (Target NearbyLoc.t)) :
  reasonsFrom codeReasons (openDoor target).
Proof.
  intros w s r s'.
  unfold openDoor, openDoorAwait, resolveLocation, findNearbyLoc, getNearbyLocs,
    alreadyOpen, tryCatch, bind, getState, send, ret.
  crunch; settle.
Qed.

Lemma chopTree_reasons (target : option (Target NearbyLoc.t)) :
  reasonsFrom codeReasons (chopTree target).
Proof.
  intros w s r s'.
  unfold chopTree, chopTreeAwait, resolveLocation, findNearbyLoc, getNearbyLocs,
    findInventoryItem, getInventory, tryCatch, bind, getState, send, ret.
  crunch; settle.
Qed.

Lemma burnLogs_reasons (target : option (Target InventoryItem.t)) :
  reasonsFrom codeReasons (burnLogs target).
Proof.
  intros w s r s'.
  unfold burnLogs, burnLogsAwait, resolveInventoryItem, skillExperience, getSkill,
    findInventoryItem, getInventory, tryCatch, bind, getState, send, ret.
  crunch; settle.
Qed.

Lemma pickupItem_reasons (target : Target GroundItem.t) :
  reasonsFrom codeReasons (pickupItem target).
Proof.
  intros w s r s'.
  unfold pickupItem, pickupItemAwait, resolveGroundItem, findGroundItem,
    getInventory, tryCatch, bind, getState, send, ret.
  crunch; try settle; by_scan pickupFailure.
Qed.

Lemma talkTo_reasons (target : Target NearbyNpc.t) :
  reasonsFrom codeReasons (talkTo target).
Proof.
  intros w s r s'.
  unfold talkTo, talkToAwait, resolveNpc, findNearbyNpc,
    tryCatch, bind, getState, send, ret.
  crunch; settle.
Qed.

Lemma closeShop_reasons (timeout : Z) : reasonsFrom codeReasons (closeShop timeout).
Proof.
  intros w s r s'.
  unfold closeShop, tryCatch, bind, getState, send, sleep, ret.
  crunch; settle.
Qed.

Lemma closeBank_reasons (timeout : Z) : reasonsFrom codeReasons (closeBank timeout).
Proof.
  intros w s r s'.
  unfold closeBank, tryCatch, bind, getState, send, sleep, ret.
  crunch; settle.
Qed.

Lemma buyFromShop_reasons (target : ShopTarget) (amount : Z) :
  reasonsFrom codeReasons (buyFromShop target amount).
Proof.
  intros w s r s'.
  unfold buyFromShop, buyFromShopAwait, getInventory,
    tryCatch, bind, getState, send, ret.
  crunch; settle.
Qed.

Lemma depositItem_reasons (target : Target InventoryItem.t) (amount : Z) :
  reasonsFrom codeReasons (depositItem target amount).
Proof.
  intros w s r s'.
  unfold depositItem, depositItemAwait, resolveInventoryItem, findInventoryItem,
    getInventory, tryCatch, bind, getState, send, ret.
  crunch; settle.
Qed.

Lemma withdrawItem_reasons (bankSlot amount : Z) :
  reasonsFrom codeReasons (withdrawItem bankSlot amount).
Proof.
  intros w s r s'.
  unfold withdrawItem, withdrawItemAwait, getInventory,
    tryCatch, bind, getState, send, ret.
  crunch; settle.
Qed.

Lemma equipItem_reasons (target : Target InventoryItem.t) :
  reasonsFrom codeReasons (equipItem target).
Proof.
  intros w s r s'.
  unfold equipItem, equipItemAwait, resolveInventoryItem, findInventoryItem,
    getInventory, tryCatch, bind, getState, send, ret.
  crunch; settle.
Qed.

Lemma unequipItem_reasons (target : Target InventoryItem.t) :
  reasonsFrom codeReasons (unequipItem target).
Proof.
  intros w s r s'.
  unfold unequipItem, unequipItemAwait, regExpOf, findEquipmentItem, findInventoryItem,
    getInventory, tryCatch, bind, getState, send, ret.
  crunch; settle.
Qed.

Lemma eatFood_reasons (target : Target InventoryItem.t) :
  reasonsFrom codeReasons (eatFood target).
Proof.
  intros w s r s'.
  unfold eatFood, eatFoodAwait, resolveInventoryItem, findInventoryItem, hitpoints,
    getSkill, getInventory, tryCatch, bind, getState, send, ret.
  crunch; settle.
Qed.

Lemma attackNpc_reasons (target : Target NearbyNpc.t) (timeout : Z) :
  reasonsFrom codeReasons (attackNpc target timeout).
Proof.
  intros w s r s'.
  unfold attackNpc, attackNpcAwait, attackVerdict, resolveNpc, findNearbyNpc,
    tryCatch, bind, getState, send, ret.
  crunch; try settle; by_scan attackFailure.
Qed.

Lemma castSpellOnNpc_reasons (target : Target NearbyNpc.t) (spellComponent timeout : Z) :
  reasonsFrom codeReasons (castSpellOnNpc target spellComponent timeout).
Proof.
  intros w s r s'.
  unfold castSpellOnNpc, castSpellOnNpcAwait, resolveNpc, findNearbyNpc,
    tryCatch, bind, getState, send, ret.
  crunch; try settle; by_scan castFailure.
Qed.

Lemma strideLoop_no_reason (w : World) (wps : list Waypoint) (x z tolerance : Z) :
  forall indices s r s',
    strideLoop indices wps x z tolerance w s = (Returned (Exit r), s') ->
    reason r = None.
Proof.
  induction indices as [|i rest IH]; intros s r s'; simpl.
  - unfold ret. intros H. inversion H.
  - destruct (nth_error wps i) as [wp|]; [|apply IH].
    unfold bind, send, getState, ret. cbv beta iota.
    destruct (waitForMovementComplete _ _ 3 w _) as [o s1].
    destruct o as [m|e|]; try discriminate.
    destruct (hasPlayer (snapshotAt w (clock s1))).
    + destruct (within _ tolerance); [intros H; inversion H; reflexivity|].
      destruct (stoppedMoving m && negb (arrived m)); [discriminate|apply IH].
    + intros H. inversion H. reflexivity.
Qed.

Lemma pathAttempt_no_reason (w : World) (x z tolerance : Z) (s s' : Session)
  (r : ActionResult) :
  pathAttempt x z tolerance w s = (Returned (Finished r), s') -> reason r = None.
Proof.
  unfold pathAttempt, tryCatch, bind, getState, sendFindPath, send, ret.
  crunch; intros H; try discriminate H; inversion H; subst; clear H;
    try reflexivity.
  all: eapply strideLoop_no_reason; eassumption.
Qed.

Lemma walkQueries_no_reason (w : World) (x z tolerance startX startZ : Z) :
  forall remaining stuckCount s r s',
    walkQueries remaining stuckCount x z tolerance startX startZ w s = (Returned r, s') ->
    reason r = None.
Proof.
  induction remaining as [|n IH]; intros stuckCount s r s'; simpl.
  - unfold bind, getState, ret. cbv beta iota zeta.
    intros H. inversion H. reflexivity.
  - unfold bind at 1.
    destruct (pathAttempt x z tolerance w s) as [o s1] eqn:E.
    destruct o as [a|e|]; try discriminate.
    destruct a as [result|d nd ax az].
    + unfold ret. intros H. inversion H. subst.
      eapply pathAttempt_no_reason. exact E.
    + destruct (progressBelow5 d nd); [|apply IH].
      destruct (3 <=? stuckCount + 1); [|apply IH].
      unfold ret. intros H. inversion H. reflexivity.
Qed.

Lemma walkTo_reasons (x z tolerance : Z) : reasonsFrom codeReasons (walkTo x z tolerance).
Proof.
  intros w s r s'. unfold walkTo, bind, getState, ret. cbv beta iota.
  destruct (hasPlayer (snapshotAt w (clock s))) as [p|]; [|settle].
  cbv zeta. destruct (within _ tolerance); [settle|].
  intros H. apply walkQueries_no_reason in H.
  unfold reasonIn, base, Result_ActionResult. rewrite H. exact I.
Qed.

Lemma openBankLoop_reasons (w : World) (startTime timeout : Z) :
  forall fuel s r s',
    openBankLoop fuel startTime timeout w s = (Returned r, s') ->
    reasonIn codeReasons r.
Proof.
  induction fuel as [|fuel IH]; intros s r s'; simpl;
    unfold bind at 1; unfold now at 1;
    destruct (clock s - startTime <? timeout);
    try (unfold bind, getState, ret; cbv beta iota;
         destruct (interfaceIsOpen _); settle).
  - discriminate.
  - unfold bind at 1.
    match goal with |- context [tryCatch ?b ?h w s] =>
      destruct (tryCatch b h w s) as [o s1] eqn:E end.
    destruct o as [step|e|]; try discriminate.
    destruct step as [result|]; [|apply IH].
    unfold ret. intros H. inversion H. subst. clear H.
    revert E. unfold tryCatch, bind, getState, send, sleep, ret, bankOpened.
    crunch; settle.
Qed.

Lemma openBank_reasons (timeout : Z) : reasonsFrom codeReasons (openBank timeout).
Proof.
  intros w s r s'.
  unfold openBank, findNearbyNpc, findNearbyLoc, getNearbyLocs,
    bind, getState, send, now, ret.
  crunch; try settle.
  all: apply openBankLoop_reasons.
Qed.

Lemma scan_sellAll_reason (sellItem : ShopItem.t) (startTick totalSold : Z) :
  forall msgs r,
    scanMessages startTick (sellAllRejection sellItem totalSold) msgs = Some r ->
    reason (base r) = None.
Proof.
  induction msgs as [|m rest IH]; intros r; simpl.
  - discriminate.
  - destruct (newer startTick m); [|apply IH].
    unfold sellAllRejection at 1.
    destruct (includes _ "can't sell this item to this shop").
    + intros H. inversion H. reflexivity.
    + destruct (includes _ "can't sell this item").
      * intros H. inversion H. reflexivity.
      * apply IH.
Qed.

Lemma sellAllLoop_no_reason (w : World) (sellItem : ShopItem.t) (startTick : Z) :
  forall fuel totalSold s r s',
    sellAllLoop fuel sellItem startTick totalSold w s = (Returned r, s') ->
    reason (base r) = None.
Proof.
  induction fuel as [|fuel IH]; intros totalSold s r s'; simpl; [discriminate|].
  unfold bind at 1.
  destruct (sellBatch sellItem startTick totalSold w s) as [o s1] eqn:E.
  destruct o as [b|e|]; try discriminate.
  destruct b as [result|t1|t1]; [| |apply IH].
  - unfold ret. intros H. inversion H. subst. clear H.
    revert E. unfold sellBatch, tryCatch, bind, getState, send, ret.
    crunch; intros H; try discriminate H; inversion H as [Ha]; clear H.
    unfold afterBatch in Ha.
    destruct (scanMessages startTick _ _) as [refused|] eqn:Es.
    + inversion Ha. subst. eapply scan_sellAll_reason. exact Es.
    + destruct (_ =? 0); discriminate.
  - unfold ret. intros H. inversion H. unfold sellAllSummary.
    destruct (t1 =? 0); reflexivity.
Qed.

Lemma sellToShop_reasons (target : ShopTarget) (amount : SellAmount) :
  reasonsFrom codeReasons (sellToShop target amount).
Proof.
  intros w s r s'.
  unfold sellToShop, sellToShopAwait, sellAllToShop,
    tryCatch, bind, getState, send, ret.
  crunch; try settle; try by_scan sellRejection.
  all: intros H; apply sellAllLoop_no_reason in H;
    unfold reasonIn; rewrite H; exact I.
Qed.

(** [openShop] hands a refused command's answer back unchanged; every
    other result it returns has no reason. *)
Lemma openShop_reasons (target : Target NearbyNpc.t) (w : World) (s s' : Session)
  (r : ActionResult) :
  openShop target w s = (Returned r, s') ->
  reason r = None
  \/ exists c, r = respond w (clock s) c /\ success r = false.
Proof.
  unfold openShop, openShopAwait, resolveNpc, findNearbyNpc,
    tryCatch, bind, getState, send, ret.
  crunch; intros H; try discriminate H; inversion H; subst; clear H;
    try (left; reflexivity).
  all: right; eexists; split; [reflexivity|];
    match goal with E : negb _ = true |- _ => apply negb_true_iff in E; exact E end.
Qed.

(** C8, as amended: every result a public operation returns has either no
    reason or one of the reasons of the code: door_not_found,
    already_open, no_open_option, walk_failed, open_failed, timeout,
    item_not_found, cant_reach, inventory_full, npc_not_found,
    no_attack_option, out_of_reach, already_in_combat, no_runes,
    no_bank_found, bank_not_open.  [openShop] alone may also hand back the
    answer of a refused command as it came from the command channel. *)
Theorem reasons_of_the_code :
  (forall target, reasonsFrom codeReasons (openDoor target))
  /\ (forall target, reasonsFrom codeReasons (chopTree target))
  /\ (forall target, reasonsFrom codeReasons (burnLogs target))
  /\ (forall target, reasonsFrom codeReasons (pickupItem target))
  /\ (forall target, reasonsFrom codeReasons (talkTo target))
  /\ (forall x z tolerance, reasonsFrom codeReasons (walkTo x z tolerance))
  /\ (forall timeout, reasonsFrom codeReasons (closeShop timeout))
  /\ (forall target amount, reasonsFrom codeReasons (buyFromShop target amount))
  /\ (forall target amount, reasonsFrom codeReasons (sellToShop target amount))
  /\ (forall timeout, reasonsFrom codeReasons (openBank timeout))
  /\ (forall timeout, reasonsFrom codeReasons (closeBank timeout))
  /\ (forall target amount, reasonsFrom codeReasons (depositItem target amount))
  /\ (forall bankSlot amount, reasonsFrom codeReasons (withdrawItem bankSlot amount))
  /\ (forall target, reasonsFrom codeReasons (equipItem target))
  /\ (forall target, reasonsFrom codeReasons (unequipItem target))
  /\ (forall target, reasonsFrom codeReasons (eatFood target))
  /\ (forall target timeout, reasonsFrom codeReasons (attackNpc target timeout))
  /\ (forall target spellComponent timeout,
        reasonsFrom codeReasons (castSpellOnNpc target spellComponent timeout))
  /\ (forall target w s r s',
        openShop target w s = (Returned r, s') ->
        reason r = None
        \/ exists c, r = respond w (clock s) c /\ success r = false).
Proof.
  repeat match goal with |- _ /\ _ => split end.
  - exact openDoor_reasons.
  - exact chopTree_reasons.
  - exact burnLogs_reasons.
  - exact pickupItem_reasons.
  - exact talkTo_reasons.
  - exact walkTo_reasons.
  - exact closeShop_reasons.
  - exact buyFromShop_reasons.
  - exact sellToShop_reasons.
  - exact openBank_reasons.
  - exact closeBank_reasons.
  - exact depositItem_reasons.
  - exact withdrawItem_reasons.
  - exact equipItem_reasons.
  - exact unequipItem_reasons.
  - exact eatFood_reasons.
  - exact attackNpc_reasons.
  - exact castSpellOnNpc_reasons.
  - intros target w s r s'. apply openShop_reasons.
Qed.

Lemma reasons_of_the_code_witness :
  let w := Sample.scripted 600 (Sample.atBank false [Sample.cowhides 0 10]) [] in
  reasonIn codeReasons
    (base {| deposit_base := failureBecause "Bank is not open" "bank_not_open";
             amountDeposited := None |}).
Proof.
  intros w.
  apply (proj1 (proj2 (proj2 (proj2 (proj2 (proj2 (proj2 (proj2 (proj2 (proj2
           (proj2 (proj2 reasons_of_the_code)))))))))))
           (Handle (Sample.cowhides 0 10)) 5 w Sample.start _ Sample.start).
  reflexivity.
Defined.

(** C8 as stated fails: with no door nearby [openDoor] fails with reason
    'door_not_found', which the taxonomy of section 7 does not list. *)
Lemma openDoor_reason_outside_taxonomy :
  let w := Sample.still (Sample.standing 3222 3218) [] in
  exists r,
    openDoor None w Sample.start = (Returned r, Sample.start)
    /\ success (base r) = false
    /\ reason (base r) = Some "door_not_found"%string
    /\ ~ In "door_not_found"%string specReasons.
Proof.
  intros w. eexists. split; [vm_compute; reflexivity|].
  split; [reflexivity|]. split; [reflexivity|].
  unfold specReasons. simpl. intros H.
  repeat (destruct H as [H|H]; [discriminate H|]). exact H.
Qed.


(** The player walks three tiles and then stands still, seventeen tiles
    from the target: the freeze begins at poll 3 and is reported at poll
    8, 1200 ms after the call. *)
Lemma waitForMovementComplete_frozen_witness :
  let w := Scenes.slowing 3 in
  let d2 := dist2 20 0 0 0 in
  waitForMovementComplete 20 0 3 w Sample.start
  = (Returned {| arrived := false; stoppedMoving := true; endX := 3; endZ := 0 |},
     {| clock := 1200; sent := [] |})
  /\ exists r s',
       waitForMovementComplete 20 0 3 w Sample.start = (Returned r, s')
       /\ arrived r = false /\ stoppedMoving r = true
       /\ STUCK_THRESHOLD < clock s' - 0 <= POLL_INTERVAL * (3 + 5)
       /\ (POLL_INTERVAL * 3 <= clock s' - 0 -> endX r = 3 /\ endZ r = 0)
       /\ beforeMaxTimeout (clock s' - 0 - POLL_INTERVAL) d2 = true
       /\ (beforeMaxTimeout (POLL_INTERVAL * (3 + 5)) d2 = true ->
           beforeMaxTimeout (clock s' - 0) d2 = true)
       /\ sent s' = [].
Proof.
  intros w d2. split; [vm_compute; reflexivity|].
  apply (waitForMovementComplete_frozen w Sample.start 20 0 3 3
           {| Player.worldX := 0; Player.worldZ := 0 |}
           {| Player.worldX := 3; Player.worldZ := 0 |}).
  - lia.
  - reflexivity.
  - intros j Hj.
    assert (Hcases : j = 1 \/ j = 2 \/ j = 3 \/ j = 4 \/ j = 5 \/ j = 6 \/ j = 7 \/ j = 8)
      by lia.
    repeat (destruct Hcases as [->|Hcases]; [eexists; split; reflexivity|]).
    subst j. eexists. split; reflexivity.
  - intros j Hj.
    assert (Hcases : j = 3 \/ j = 4 \/ j = 5 \/ j = 6 \/ j = 7 \/ j = 8) by lia.
    repeat (destruct Hcases as [->|Hcases]; [reflexivity|]).
    subst j. reflexivity.
Defined.

(** C7 as stated fails for a freeze that begins late in the call.  The
    player walks nine tiles, one per poll, and stands still from 1350 ms
    on, five tiles and more from the target all the while.  The adaptive
    timeout is 2000 ms; the stuck report comes 750 ms after the freeze
    began, at 2100 ms, when the timeout has already elapsed. *)
Lemma waitForMovementComplete_late_freeze :
  let w := Scenes.slowing 9 in
  (forall t, 1350 <= t ->
     hasPlayer (snapshotAt w t) = Some {| Player.worldX := 9; Player.worldZ := 0 |})
  /\ within (dist2 0 5 9 0) 1 = false
  /\ waitForMovementComplete 0 5 1 w Sample.start
     = (Returned {| arrived := false; stoppedMoving := true; endX := 9; endZ := 0 |},
        {| clock := 2100; sent := [] |})
  /\ beforeMaxTimeout 2100 (dist2 0 5 0 0) = false.
Proof.
  intros w. split; [|split; [|split]]; try (vm_compute; reflexivity).
  intros t Ht. unfold w, Scenes.slowing, Sample.standing, hasPlayer.
  cbn [snapshotAt player].
  assert (Hq : 9 <= t / 150) by (apply Z.div_le_lower_bound; lia).
  rewrite Z.min_l by exact Hq. reflexivity.
Qed.

(** * Further properties *)

(** ** Movement *)

Lemma moveLoop_result (w : World) (targetX targetZ tolerance d2 startTime : Z) :
  forall fuel lastX lastZ lastMoveTime s r s',
    moveLoop fuel targetX targetZ tolerance d2 startTime lastX lastZ lastMoveTime w s
    = (Returned r, s') ->
    (arrived r = true ->
     within (dist2 targetX targetZ (endX r) (endZ r)) tolerance = true)
    /\ (arrived r = false -> stoppedMoving r = true)
    /\ (forall p, hasPlayer (snapshotAt w (clock s')) = Some p ->
                  endX r = Player.worldX p /\ endZ r = Player.worldZ p).
Proof.
  induction fuel as [|fuel IH]; intros lastX lastZ lastMoveTime s r s';
    simpl; unfold bind at 1; unfold now at 1;
    destruct (beforeMaxTimeout (clock s - startTime) d2).
  - discriminate.
  - unfold bind, getState, ret. cbv beta iota zeta.
    intros H. inversion H. subst. clear H. simpl.
    split; [tauto|]. split; [reflexivity|].
    intros p Hp. rewrite Hp. split; reflexivity.
  - unfold bind, sleep, getState, now, ret. cbv beta iota.
    destruct (hasPlayer (snapshotAt w (clock (advance POLL_INTERVAL s)))) as [p|] eqn:Hp.
    + cbv zeta.
      destruct (within (dist2 targetX targetZ (Player.worldX p) (Player.worldZ p)) tolerance)
        eqn:Hnear.
      * intros H. inversion H. subst. clear H. simpl.
        split; [intros _; exact Hnear|]. split; [discriminate|].
        intros p' Hp'. pose proof (eq_trans (eq_sym Hp) Hp') as E. inversion E. split; reflexivity.
      * destruct (negb _ || negb _); [apply IH|].
        destruct (_ >? STUCK_THRESHOLD); [|apply IH].
        intros H. inversion H. subst. clear H. simpl.
        split; [discriminate|]. split; [reflexivity|].
        intros p' Hp'. pose proof (eq_trans (eq_sym Hp) Hp') as E. inversion E. split; reflexivity.
    + intros H. inversion H. subst. clear H. simpl.
      split; [discriminate|]. split; [reflexivity|].
      intros p' Hp'. pose proof (eq_trans (eq_sym Hp) Hp') as E. discriminate E.
  - unfold bind, getState, ret. cbv beta iota zeta.
    intros H. inversion H. subst. clear H. simpl.
    split; [tauto|]. split; [reflexivity|].
    intros p Hp. rewrite Hp. split; reflexivity.
Qed.

Lemma waitForMovementComplete_result (w : World) (s s' : Session)
  (targetX targetZ tolerance : Z) (r : MoveResult) :
  waitForMovementComplete targetX targetZ tolerance w s = (Returned r, s') ->
  (arrived r = true ->
   within (dist2 targetX targetZ (endX r) (endZ r)) tolerance = true)
  /\ (arrived r = false -> stoppedMoving r = true)
  /\ (forall p, hasPlayer (snapshotAt w (clock s')) = Some p ->
                endX r = Player.worldX p /\ endZ r = Player.worldZ p).
Proof.
  unfold waitForMovementComplete, bind, getState, now, ret. cbv beta iota.
  destruct (hasPlayer (snapshotAt w (clock s))) as [p|] eqn:Hp.
  - apply moveLoop_result.
  - intros H. inversion H. subst. clear H. simpl.
    split; [discriminate|]. split; [reflexivity|].
    intros p' Hp'. pose proof (eq_trans (eq_sym Hp) Hp') as E. discriminate E.
Qed.

(** X1: what [waitForMovementComplete] reports can be trusted.  When it
    says [arrived], the position it returns is within [tolerance] of the
    target; when it does not, it says [stoppedMoving]; and whenever the
    snapshot at its return has a player, the position it returns is that
    player's position. *)
Theorem waitForMovementComplete_sound (w : World) (s s' : Session)
  (targetX targetZ tolerance : Z) (r : MoveResult) :
  waitForMovementComplete targetX targetZ tolerance w s = (Returned r, s') ->
  (arrived r = true ->
   within (dist2 targetX targetZ (endX r) (endZ r)) tolerance = true)
  /\ (arrived r = false -> stoppedMoving r = true)
  /\ (forall p, hasPlayer (snapshotAt w (clock s')) = Some p ->
                endX r = Player.worldX p /\ endZ r = Player.worldZ p).
Proof. apply waitForMovementComplete_result. Qed.

Lemma waitForMovementComplete_sound_witness :
  let w := Sample.scripted 150 (Sample.standing 0 0)
             [Sample.standing 3 0; Sample.standing 6 0] in
  let r := {| arrived := true; stoppedMoving := false; endX := 6; endZ := 0 |} in
  waitForMovementComplete 8 0 3 w Sample.start = (Returned r, {| clock := 300; sent := [] |})
  /\ (arrived r = true -> within (dist2 8 0 (endX r) (endZ r)) 3 = true)
  /\ (arrived r = false -> stoppedMoving r = true)
  /\ (forall p, hasPlayer (snapshotAt w 300) = Some p ->
                endX r = Player.worldX p /\ endZ r = Player.worldZ p).
Proof.
  intros w r.
  assert (E : waitForMovementComplete 8 0 3 w Sample.start
              = (Returned r, {| clock := 300; sent := [] |}))
    by (vm_compute; reflexivity).
  split; [exact E|].
  exact (waitForMovementComplete_sound w Sample.start _ 8 0 3 r E).
Defined.

(** X2: [waitForMovementComplete] has bounded latency.  A call that
    starts with a player polls at least once and returns no later than one
    poll interval after its adaptive timeout
    [max(MIN_TIMEOUT, distance * 1000 / 3)] ran out: one poll interval
    before its return the timeout had not yet elapsed.  It sends no
    command. *)
Theorem waitForMovementComplete_bounded (w : World) (s s' : Session)
  (targetX targetZ tolerance : Z) (p : Player.t) (r : MoveResult) :
  hasPlayer (snapshotAt w (clock s)) = Some p ->
  waitForMovementComplete targetX targetZ tolerance w s = (Returned r, s') ->
  let elapsed := clock s' - clock s in
  let d2 := dist2 targetX targetZ (Player.worldX p) (Player.worldZ p) in
  POLL_INTERVAL <= elapsed
  /\ (elapsed - POLL_INTERVAL < MIN_TIMEOUT
      \/ 9 * (elapsed - POLL_INTERVAL) * (elapsed - POLL_INTERVAL) < 1000000 * d2)
  /\ sent s' = sent s.
Proof.
  intros Hp Hrun elapsed d2.
  destruct (waitForMovementComplete_spec w s targetX targetZ tolerance)
    as (r0 & s0 & E & Hsent).
  rewrite Hrun in E. inversion E. subst r0 s0. clear E.
  revert Hrun. unfold waitForMovementComplete, bind, getState, now, ret. cbv beta iota.
  rewrite Hp. cbv zeta. fold d2. intros Hrun.
  apply moveLoop_time in Hrun; [|left; reflexivity].
  destruct Hrun as [Hguard Hle].
  split; [unfold elapsed; lia|]. split; [|exact Hsent].
  unfold beforeMaxTimeout in Hguard. apply orb_true_iff in Hguard.
  replace (elapsed - POLL_INTERVAL) with (clock s' - POLL_INTERVAL - clock s)
    by (unfold elapsed; lia).
  destruct Hguard as [G|G]; [left|right]; apply Z.ltb_lt in G; exact G.
Qed.

Lemma waitForMovementComplete_bounded_witness :
  let w := Sample.scripted 150 (Sample.standing 0 0)
             [Sample.standing 3 0; Sample.standing 6 0] in
  hasPlayer (snapshotAt w 0) = Some {| Player.worldX := 0; Player.worldZ := 0 |}
  /\ waitForMovementComplete 8 0 3 w Sample.start
     = (Returned {| arrived := true; stoppedMoving := false; endX := 6; endZ := 0 |},
        {| clock := 300; sent := [] |})
  /\ POLL_INTERVAL <= 300 - 0
  /\ (300 - 0 - POLL_INTERVAL < MIN_TIMEOUT
      \/ 9 * (300 - 0 - POLL_INTERVAL) * (300 - 0 - POLL_INTERVAL)
         < 1000000 * dist2 8 0 0 0)
  /\ sent {| clock := 300; sent := [] |} = sent Sample.start.
Proof.
  intros w.
  assert (Hp : hasPlayer (snapshotAt w (clock Sample.start))
               = Some {| Player.worldX := 0; Player.worldZ := 0 |})
    by reflexivity.
  assert (E : waitForMovementComplete 8 0 3 w Sample.start
              = (Returned {| arrived := true; stoppedMoving := false;
                             endX := 6; endZ := 0 |},
                 {| clock := 300; sent := [] |}))
    by (vm_compute; reflexivity).
  split; [exact Hp|]. split; [exact E|].
  exact (waitForMovementComplete_bounded w Sample.start _ 8 0 3 _ _ Hp E).
Defined.

(** ** A stuck report *)

(** The loop keeps the last position and the time it was first seen:
    every poll since then saw the player there. *)
Lemma moveLoop_stuck (w : World) (targetX targetZ tolerance d2 startTime : Z) :
  forall fuel lastX lastZ lastMoveTime s r s',
    lastMoveTime <= clock s ->
    (forall k, 0 <= k -> lastMoveTime <= clock s - POLL_INTERVAL * k ->
               exists q, hasPlayer (snapshotAt w (clock s - POLL_INTERVAL * k)) = Some q
                         /\ Player.worldX q = lastX /\ Player.worldZ q = lastZ) ->
    moveLoop fuel targetX targetZ tolerance d2 startTime lastX lastZ lastMoveTime w s
    = (Returned r, s') ->
    arrived r = false ->
    hasPlayer (snapshotAt w (clock s')) <> None ->
    beforeMaxTimeout (clock s' - startTime) d2 = true ->
    forall k, 0 <= k <= 4 ->
      exists q, hasPlayer (snapshotAt w (clock s' - POLL_INTERVAL * k)) = Some q
                /\ Player.worldX q = endX r /\ Player.worldZ q = endZ r.
Proof.
  unfold POLL_INTERVAL.
  induction fuel as [|fuel IH]; intros lastX lastZ lastMoveTime s r s' Hle Hinv;
    cbn [moveLoop]; unfold bind at 1; unfold now at 1;
    destruct (beforeMaxTimeout (clock s - startTime) d2) eqn:Hguard.
  - discriminate.
  - unfold bind, getState, ret. cbv beta iota zeta.
    intros H _ _ Hbefore. inversion H. subst. rewrite Hguard in Hbefore. discriminate.
  - unfold bind, sleep, getState, now, ret. cbv beta iota.
    rewrite !clock_advance. unfold POLL_INTERVAL.
    destruct (hasPlayer (snapshotAt w (clock s + 150))) as [p|] eqn:Hp.
    + cbv zeta. rewrite ?clock_advance.
      destruct (within (dist2 targetX targetZ (Player.worldX p) (Player.worldZ p)) tolerance).
      * intros H Harr. inversion H. subst. discriminate Harr.
      * destruct (negb (Player.worldX p =? lastX) || negb (Player.worldZ p =? lastZ))
          eqn:Hmoved.
        -- apply IH; rewrite ?clock_advance; unfold POLL_INTERVAL; [lia|].
           intros k Hk Hlow. assert (k = 0) by lia. subst k.
           replace (clock s + 150 - 150 * 0) with (clock s + 150) by lia.
           exists p. auto.
        -- apply orb_false_iff in Hmoved. destruct Hmoved as [Hx Hz].
           apply negb_false_iff in Hx. apply negb_false_iff in Hz.
           apply Z.eqb_eq in Hx. apply Z.eqb_eq in Hz.
           assert (Hinv' : forall k, 0 <= k -> lastMoveTime <= clock s + 150 - 150 * k ->
                     exists q, hasPlayer (snapshotAt w (clock s + 150 - 150 * k)) = Some q
                               /\ Player.worldX q = lastX /\ Player.worldZ q = lastZ).
           { intros k Hk Hlow. destruct (Z.eq_dec k 0) as [->|Hnz].
             - replace (clock s + 150 - 150 * 0) with (clock s + 150) by lia.
               exists p. auto.
             - replace (clock s + 150 - 150 * k) with (clock s - 150 * (k - 1)) in * by lia.
               apply Hinv; lia. }
           rewrite ?clock_advance.
           destruct (clock s + 150 - lastMoveTime >? STUCK_THRESHOLD) eqn:Hstuck.
           ++ intros H _ _ _ k Hk. inversion H. subst. clear H. cbn [endX endZ].
              rewrite ?clock_advance. unfold POLL_INTERVAL.
              apply Z.gtb_lt in Hstuck. unfold STUCK_THRESHOLD in Hstuck.
              apply Hinv'; lia.
           ++ apply IH; rewrite ?clock_advance; unfold POLL_INTERVAL; [lia|exact Hinv'].
    + intros H _ Hnone. inversion H. subst. rewrite ?clock_advance in Hnone.
      unfold POLL_INTERVAL in Hnone. rewrite Hp in Hnone. contradiction.
  - unfold bind, getState, ret. cbv beta iota zeta.
    intros H _ _ Hbefore. inversion H. subst. rewrite Hguard in Hbefore. discriminate.
Qed.

(** X24: a stuck report means the player really stood still.  When
    [waitForMovementComplete] returns without having arrived, before its
    adaptive timeout has run out and with the player still in the
    snapshot, the player was seen at the returned position on each of
    its last five polls, 150 ms apart: it gives up on movement only
    after more than [STUCK_THRESHOLD] without a change of tile. *)
Theorem waitForMovementComplete_stuck_is_still (w : World) (s s' : Session)
  (targetX targetZ tolerance : Z) (p0 : Player.t) (r : MoveResult) :
  hasPlayer (snapshotAt w (clock s)) = Some p0 ->
  waitForMovementComplete targetX targetZ tolerance w s = (Returned r, s') ->
  arrived r = false ->
  hasPlayer (snapshotAt w (clock s')) <> None ->
  beforeMaxTimeout (clock s' - clock s)
                   (dist2 targetX targetZ (Player.worldX p0) (Player.worldZ p0)) = true ->
  forall k, 0 <= k <= 4 ->
    exists q, hasPlayer (snapshotAt w (clock s' - POLL_INTERVAL * k)) = Some q
              /\ Player.worldX q = endX r /\ Player.worldZ q = endZ r.
Proof.
  intros Hp0. unfold waitForMovementComplete, bind, getState, now, ret.
  cbv beta iota. rewrite Hp0. cbv zeta.
  apply moveLoop_stuck; [lia|].
  intros k Hk Hlow. unfold POLL_INTERVAL in *. assert (k = 0) by lia. subst k.
  replace (clock s - 150 * 0) with (clock s) by lia.
  exists p0. auto.
Qed.

Lemma waitForMovementComplete_stuck_is_still_witness :
  let w := Sample.still (Sample.standing 3222 3218) [] in
  let r := {| arrived := false; stoppedMoving := true; endX := 3222; endZ := 3218 |} in
  waitForMovementComplete 3230 3218 3 w Sample.start = (Returned r, {| clock := 750; sent := [] |})
  /\ forall k, 0 <= k <= 4 ->
       exists q, hasPlayer (snapshotAt w (750 - POLL_INTERVAL * k)) = Some q
                 /\ Player.worldX q = endX r /\ Player.worldZ q = endZ r.
Proof.
  intros w r.
  assert (E : waitForMovementComplete 3230 3218 3 w Sample.start
              = (Returned r, {| clock := 750; sent := [] |}))
    by (vm_compute; reflexivity).
  split; [exact E|].
  exact (waitForMovementComplete_stuck_is_still w Sample.start _ 3230 3218 3
           {| Player.worldX := 3222; Player.worldZ := 3218 |} r
           eq_refl E eq_refl ltac:(discriminate) eq_refl).
Defined.

(** ** walkTo arrives *)

Lemma strideLoop_arrived (w : World) (wps : list Waypoint) (x z tolerance : Z) :
  forall indices s r s',
    strideLoop indices wps x z tolerance w s = (Returned (Exit r), s') ->
    success r = true ->
    standsNear w s' x z tolerance.
Proof.
  induction indices as [|i rest IH]; intros s r s'; simpl.
  - unfold ret. intros H. inversion H.
  - destruct (nth_error wps i) as [wp|]; [|apply IH].
    unfold bind at 1. unfold send at 1. cbv beta iota. unfold bind at 1.
    destruct (waitForMovementComplete _ _ 3 w _) as [o s1] eqn:E.
    destruct o as [m|e|]; try discriminate.
    apply waitForMovementComplete_result in E. destruct E as (_ & _ & Hpos).
    unfold bind, getState, ret. cbv beta iota.
    destruct (hasPlayer (snapshotAt w (clock s1))) as [p|] eqn:Hp.
    + destruct (Hpos p eq_refl) as [Hx Hz].
      destruct (within _ tolerance) eqn:Hnear.
      * intros H _. inversion H. subst. exists p. split; [exact Hp|].
        rewrite <- Hx, <- Hz. exact Hnear.
      * destruct (stoppedMoving m && negb (arrived m)); [discriminate|apply IH].
    + intros H Hs. inversion H. subst. discriminate Hs.
Qed.

Lemma pathAttempt_arrived (w : World) (x z tolerance : Z) (s s' : Session)
  (r : ActionResult) :
  pathAttempt x z tolerance w s = (Returned (Finished r), s') ->
  success r = true ->
  standsNear w s' x z tolerance.
Proof.
  unfold pathAttempt, tryCatch, bind, getState, sendFindPath, send, ret.
  crunch; intros H Hs; try discriminate H; inversion H; subst; clear H;
    try discriminate Hs.
  all: try (eapply strideLoop_arrived; eassumption).
  all: try (match goal with
            | E : waitForCondition _ _ _ _ = (Returned _, _) |- _ =>
                apply waitForCondition_returned in E;
                destruct E as (Hfin & Hp & _);
                unfold arrivedCondition in Hp
            end).
  all: unfold standsNear.
  all: try (match goal with
            | Hp : match player ?st with _ => _ end = true,
              Hfin : snapshotAt _ _ = Some ?st |- _ =>
                destruct (player st) as [sp|] eqn:Hpl; [|discriminate Hp];
                exists sp; rewrite Hfin; split; [exact Hpl|exact Hp]
            end).
  all: try (eexists; split; [eassumption|assumption]).
  all: congruence.
Qed.

Lemma walkQueries_arrived (w : World) (x z tolerance startX startZ : Z) :
  within (dist2 x z startX startZ) tolerance = false ->
  forall remaining stuckCount s r s',
    walkQueries remaining stuckCount x z tolerance startX startZ w s = (Returned r, s') ->
    success r = true ->
    standsNear w s' x z tolerance.
Proof.
  intros Hstart.
  induction remaining as [|n IH]; intros stuckCount s r s'; simpl.
  - unfold bind, getState, ret. cbv beta iota zeta.
    intros H. inversion H. subst. clear H. simpl.
    destruct (hasPlayer (snapshotAt w (clock s'))) as [p|] eqn:Hp.
    + intros Hnear. exists p. split; [exact Hp|exact Hnear].
    + rewrite Hstart. discriminate.
  - unfold bind at 1.
    destruct (pathAttempt x z tolerance w s) as [o s1] eqn:E.
    destruct o as [a|e|]; try discriminate.
    destruct a as [result|d nd ax az].
    + unfold ret. intros H Hs. inversion H. subst.
      eapply pathAttempt_arrived; eassumption.
    + destruct (progressBelow5 d nd); [|apply IH].
      destruct (3 <=? stuckCount + 1); [|apply IH].
      unfold ret. intros H Hs. inversion H. subst. discriminate Hs.
Qed.

(** X3: a successful [walkTo] has arrived.  Whenever [walkTo] returns
    [success:true], the snapshot current at its return shows the player
    within [tolerance] of (x, z). *)
Theorem walkTo_success_means_arrived (w : World) (s s' : Session)
  (x z tolerance : Z) (r : ActionResult) :
  walkTo x z tolerance w s = (Returned r, s') ->
  success r = true ->
  standsNear w s' x z tolerance.
Proof.
  unfold walkTo, bind, getState, ret. cbv beta iota.
  destruct (hasPlayer (snapshotAt w (clock s))) as [p|] eqn:Hp.
  - cbv zeta.
    destruct (within (dist2 x z (Player.worldX p) (Player.worldZ p)) tolerance) eqn:Hnear.
    + intros H _. inversion H. subst. exists p. split; assumption.
    + apply walkQueries_arrived. exact Hnear.
  - intros H Hs. inversion H. subst. discriminate Hs.
Qed.

Lemma walkTo_success_means_arrived_witness :
  exists r s',
    walkTo 10 0 1 Scenes.strolling Sample.start = (Returned r, s')
    /\ success r = true
    /\ standsNear Scenes.strolling s' 10 0 1.
Proof.
  assert (E : walkTo 10 0 1 Scenes.strolling Sample.start
              = (Returned (succeeded "Arrived at (9, 0)"),
                 {| clock := 2850;
                    sent := [Walk 10 0 true; Walk 10 0 true; FindPath 10 0 500;
                             Walk 10 0 true; Walk 10 0 true; FindPath 10 0 500] |}))
    by (vm_compute; reflexivity).
  eexists. eexists. split; [exact E|]. split; [reflexivity|].
  exact (walkTo_success_means_arrived _ _ _ 10 0 1 _ E eq_refl).
Defined.

(** ** What walkTo sends *)

Lemma onlyMovement_refl (s s' : Session) : sent s' = sent s -> onlyMovement s s'.
Proof. intros H. exists []. split; [exact H|constructor]. Qed.

Lemma onlyMovement_trans (s1 s2 s3 : Session) :
  onlyMovement s1 s2 -> onlyMovement s2 s3 -> onlyMovement s1 s3.
Proof.
  intros (n1 & E1 & F1) (n2 & E2 & F2). exists (n2 ++ n1). split.
  - rewrite E2, E1. apply app_assoc.
  - apply Forall_app. split; assumption.
Qed.

Lemma onlyMovement_sent (w : World) (s : Session) (c : Command) :
  movement c -> onlyMovement s (advance (Z.of_N (rtt w)) (record c s)).
Proof.
  intros Hc. exists [c]. split; [reflexivity|]. constructor; [exact Hc|constructor].
Qed.

Lemma strideLoop_movement (w : World) (wps : list Waypoint) (x z tolerance : Z) :
  forall indices s o s',
    strideLoop indices wps x z tolerance w s = (o, s') -> onlyMovement s s'.
Proof.
  induction indices as [|i rest IH]; intros s o s'; simpl.
  - unfold ret. intros H. inversion H. apply onlyMovement_refl. reflexivity.
  - destruct (nth_error wps i) as [wp|]; [|apply IH].
    unfold bind at 1. unfold send at 1. cbv beta iota. unfold bind at 1.
    pose proof (onlyMovement_sent w s (Walk (wpX wp) (wpZ wp) true) I) as H0.
    set (s0 := advance (Z.of_N (rtt w)) (record (Walk (wpX wp) (wpZ wp) true) s)) in *.
    destruct (waitForMovementComplete_spec w s0 (wpX wp) (wpZ wp) 3) as (m & s1 & E & Hs1).
    rewrite E. cbv beta iota.
    assert (H1 : onlyMovement s s1).
    { eapply onlyMovement_trans; [exact H0|]. apply onlyMovement_refl. exact Hs1. }
    unfold bind, getState, ret. cbv beta iota.
    destruct (hasPlayer (snapshotAt w (clock s1))).
    + destruct (within _ tolerance); [intros H; inversion H; subst; exact H1|].
      destruct (stoppedMoving m && negb (arrived m)).
      * intros H; inversion H; subst; exact H1.
      * intros H. apply IH in H. eapply onlyMovement_trans; eassumption.
    + intros H; inversion H; subst; exact H1.
Qed.

Lemma intermediateSearch_movement (w : World) :
  forall points first s o s',
    intermediateSearch points first w s = (o, s') -> onlyMovement s s'.
Proof.
  induction points as [|[ix iz] rest IH]; intros first s o s'; simpl.
  - unfold ret. intros H. inversion H. apply onlyMovement_refl. reflexivity.
  - unfold bind, sendFindPath. cbv beta iota.
    pose proof (onlyMovement_sent w s (FindPath ix iz 500) I) as H0.
    destruct (noWaypoints (pathQuery w (clock s) ix iz)).
    + intros H. apply IH in H. eapply onlyMovement_trans; eassumption.
    + unfold ret. intros H. inversion H. subst. exact H0.
Qed.

Lemma pathAttempt_movement (w : World) (x z tolerance : Z) (s s' : Session)
  (o : Outcome Attempt) :
  pathAttempt x z tolerance w s = (o, s') -> onlyMovement s s'.
Proof.
  unfold pathAttempt. unfold bind at 1. unfold getState at 1. cbv beta iota.
  destruct (hasPlayer (snapshotAt w (clock s))) as [p|];
    [|unfold ret; intros H; inversion H; apply onlyMovement_refl; reflexivity].
  cbv zeta.
  destruct (within _ tolerance);
    [unfold ret; intros H; inversion H; apply onlyMovement_refl; reflexivity|].
  unfold bind at 1. unfold sendFindPath at 1. cbv beta iota.
  pose proof (onlyMovement_sent w s (FindPath x z 500) I) as H0.
  set (s0 := advance (Z.of_N (rtt w)) (record (FindPath x z 500) s)) in *.
  unfold bind at 1.
  match goal with |- context [(if ?b then ?a else ?c) w s0] =>
    destruct ((if b then a else c) w s0) as [o1 s1] eqn:Esearch;
    assert (H1 : onlyMovement s s1)
  end.
  { eapply onlyMovement_trans; [exact H0|].
    revert Esearch. destruct (noWaypoints _ && _).
    - apply intermediateSearch_movement.
    - unfold ret. intros H. inversion H. apply onlyMovement_refl. reflexivity. }
  destruct o1 as [pr|e|];
    [|intros H; inversion H; subst; exact H1|intros H; inversion H; subst; exact H1].
  destruct (negb (pathSuccess pr) || noWaypoints pr).
  - unfold bind at 1. unfold send at 1. cbv beta iota.
    pose proof (onlyMovement_sent w s1 (Walk x z true) I) as H2.
    set (s2 := advance (Z.of_N (rtt w)) (record (Walk x z true) s1)) in *.
    unfold tryCatch, bind, ret.
    destruct (waitForCondition _ 10000 w s2) as [o3 s3] eqn:Ew.
    apply waitForCondition_sent in Ew.
    assert (H3 : onlyMovement s s3).
    { eapply onlyMovement_trans; [exact H1|].
      eapply onlyMovement_trans; [exact H2|]. apply onlyMovement_refl. exact Ew. }
    destruct o3; intros H; inversion H; subst; exact H3.
  - cbv zeta. unfold bind at 1.
    destruct (strideLoop _ _ x z tolerance w s1) as [o2 s2] eqn:Estride.
    apply strideLoop_movement in Estride.
    assert (H2 : onlyMovement s s2) by (eapply onlyMovement_trans; eassumption).
    destruct o2 as [ex|e|];
      [|intros H; inversion H; subst; exact H2|intros H; inversion H; subst; exact H2].
    destruct ex as [result|]; [unfold ret; intros H; inversion H; subst; exact H2|].
    unfold bind at 1.
    match goal with |- context [match nth_error ?l ?n with _ => _ end w s2] =>
      destruct (nth_error l n) as [lastWp|]
    end.
    + unfold bind at 1. unfold send at 1. cbv beta iota.
      pose proof (onlyMovement_sent w s2 (Walk (wpX lastWp) (wpZ lastWp) true) I) as H3.
      set (s3 := advance (Z.of_N (rtt w)) (record (Walk (wpX lastWp) (wpZ lastWp) true) s2)) in *.
      destruct (waitForMovementComplete_spec w s3 (wpX lastWp) (wpZ lastWp) 3)
        as (m & s4 & E4 & Hs4).
      unfold bind at 1. rewrite E4. cbv beta iota.
      assert (H4 : onlyMovement s s4).
      { eapply onlyMovement_trans; [exact H2|].
        eapply onlyMovement_trans; [exact H3|]. apply onlyMovement_refl. exact Hs4. }
      unfold bind, getState, ret. cbv beta iota zeta.
      destruct (within _ tolerance); intros H; inversion H; subst; exact H4.
    + unfold bind, getState, ret. cbv beta iota zeta.
      destruct (within _ tolerance); intros H; inversion H; subst; exact H2.
Qed.

Lemma walkQueries_movement (w : World) (x z tolerance startX startZ : Z) :
  forall remaining stuckCount s o s',
    walkQueries remaining stuckCount x z tolerance startX startZ w s = (o, s') ->
    onlyMovement s s'.
Proof.
  induction remaining as [|n IH]; intros stuckCount s o s'; simpl.
  - unfold bind, getState, ret. cbv beta iota zeta.
    intros H. inversion H. apply onlyMovement_refl. reflexivity.
  - unfold bind at 1.
    destruct (pathAttempt x z tolerance w s) as [o1 s1] eqn:E.
    apply pathAttempt_movement in E.
    destruct o1 as [a|e|];
      [|intros H; inversion H; subst; exact E|intros H; inversion H; subst; exact E].
    destruct a as [result|d nd ax az].
    + unfold ret. intros H. inversion H. subst. exact E.
    + destruct (progressBelow5 d nd).
      * destruct (3 <=? stuckCount + 1).
        -- unfold ret. intros H. inversion H. subst. exact E.
        -- intros H. apply IH in H. eapply onlyMovement_trans; eassumption.
      * intros H. apply IH in H. eapply onlyMovement_trans; eassumption.
Qed.

Lemma walkTo_movement (w : World) (x z tolerance : Z) (s s' : Session)
  (o : Outcome ActionResult) :
  walkTo x z tolerance w s = (o, s') -> onlyMovement s s'.
Proof.
  unfold walkTo, bind, getState, ret. cbv beta iota.
  destruct (hasPlayer (snapshotAt w (clock s))) as [p|];
    [|intros H; inversion H; apply onlyMovement_refl; reflexivity].
  cbv zeta.
  destruct (within _ tolerance);
    [intros H; inversion H; apply onlyMovement_refl; reflexivity|].
  apply walkQueries_movement.
Qed.

(** X4: [walkTo] only ever plans and walks.  Every command it sends is a
    path query for at most 500 waypoints or a walk with running on; it
    never interacts, clicks or trades on the way. *)
Theorem walkTo_sends_only_movement (w : World) (x z tolerance : Z) (s s' : Session)
  (o : Outcome ActionResult) :
  walkTo x z tolerance w s = (o, s') ->
  exists new, sent s' = new ++ sent s /\ Forall movement new.
Proof. apply walkTo_movement. Qed.

Lemma walkTo_sends_only_movement_witness :
  exists o s',
    walkTo 10 0 1 Scenes.strolling Sample.start = (o, s')
    /\ exists new, sent s' = new ++ sent Sample.start /\ Forall movement new.
Proof.
  assert (E : walkTo 10 0 1 Scenes.strolling Sample.start
              = (Returned (succeeded "Arrived at (9, 0)"),
                 {| clock := 2850;
                    sent := [Walk 10 0 true; Walk 10 0 true; FindPath 10 0 500;
                             Walk 10 0 true; Walk 10 0 true; FindPath 10 0 500] |}))
    by (vm_compute; reflexivity).
  eexists. eexists. split; [exact E|].
  exact (walkTo_sends_only_movement _ 10 0 1 _ _ _ E).
Defined.

(** ** openDoor *)

(** Gathers what the callees of an action did to the list of sent
    commands. *)
Ltac frames :=
  repeat match goal with
         | E : waitForCondition _ _ _ _ = (_, _) |- _ =>
             apply waitForCondition_sent in E; cbn [sent advance record] in E
         end.

Ltac walk_frames :=
  repeat match goal with
         | E : walkTo _ _ _ _ _ = (_, _) |- _ =>
             apply walkTo_movement in E; destruct E as (? & ? & ?)
         end.

(** X5: [openDoor] interacts at most once, and last.  Whatever it
    returns, the commands it sent are the path queries and walks of its
    approach, followed by at most one [sendInteractLoc]. *)
Theorem openDoor_interacts_once (w : World) (s s' : Session)
  (target : option (Target NearbyLoc.t)) (o : Outcome OpenDoorResult) :
  openDoor target w s = (o, s') ->
  exists walks,
    Forall movement walks
    /\ (sent s' = walks ++ sent s
        \/ exists x z id op, sent s' = InteractLoc x z id op :: walks ++ sent s).
Proof.
  unfold openDoor, openDoorAwait, resolveLocation, findNearbyLoc, getNearbyLocs,
    alreadyOpen, tryCatch, bind, getState, send, ret.
  crunch; intros H; inversion H; subst; clear H; walk_frames; frames;
    first
      [ exists []; split; [constructor|];
        first [ left; cbn [sent advance record app] in *; congruence
              | right; do 4 eexists; cbn [sent advance record app] in *;
                first [reflexivity | eassumption | congruence] ]
      | eexists; split; [eassumption|];
        first [ left; cbn [sent advance record app] in *; congruence
              | right; do 4 eexists; cbn [sent advance record app] in *;
                first [ eassumption
                      | match goal with
                        | E1 : sent ?a = _ :: sent ?b, E2 : sent ?b = _ ++ _ |- sent ?a = _ =>
                            rewrite E1, E2; reflexivity
                        | E2 : sent ?b = _ ++ _ |- _ :: sent ?b = _ =>
                            rewrite E2; reflexivity
                        end ] ] ].
Qed.

Lemma openDoor_interacts_once_witness :
  exists o s',
    openDoor None Scenes.doorOpening Sample.start = (o, s')
    /\ exists walks,
         Forall movement walks
         /\ (sent s' = walks ++ sent Sample.start
             \/ exists x z id op,
                  sent s' = InteractLoc x z id op :: walks ++ sent Sample.start).
Proof.
  assert (E : openDoor None Scenes.doorOpening Sample.start
              = (Returned {| door_base := succeeded "Opened Door";
                             door := Some (Scenes.doorWith "Close") |},
                 {| clock := 600; sent := [InteractLoc 3210 3216 1530 1] |}))
    by (vm_compute; reflexivity).
  eexists. eexists. split; [exact E|].
  exact (openDoor_interacts_once _ _ _ None _ E).
Defined.

(** ** What an opened door looks like *)

Lemma filter_head_find {A} (p : A -> bool) (l : list A) :
  find p l = match filter p l with
             | [] => None
             | a :: _ => Some a
             end.
Proof.
  unfold find. induction l as [|a l IH]; simpl; [reflexivity|].
  destruct (p a); [reflexivity|exact IH].
Qed.

(** X27: a door reported as opened is open or gone.  Whenever
    [openDoor] returns [success:true], either the door it resolved
    offered Close and no Open (and nothing was done), or, in the snapshot
    current at its return, the first door or gate at the door's tile is
    absent or offers Close. *)
Theorem openDoor_success_state (w : World) (s s' : Session)
  (target : option (Target NearbyLoc.t)) (r : OpenDoorResult) :
  openDoor target w s = (Returned r, s') ->
  success (base r) = true ->
  exists resolved,
    resolveLocation target doorPattern w s = (Returned (Some resolved), s)
    /\ ((s' = s
         /\ find isOpenOption (NearbyLoc.optionsWithIndex resolved) = None
         /\ find isCloseOption (NearbyLoc.optionsWithIndex resolved) <> None)
        \/ match find (sameDoor (NearbyLoc.x resolved) (NearbyLoc.z resolved))
                      match snapshotAt w (clock s') with
                      | Some st => nearbyLocs st
                      | None => []
                      end with
           | None => True
           | Some doorNow =>
               existsb isCloseOption (NearbyLoc.optionsWithIndex doorNow) = true
           end).
Proof.
  unfold openDoor. unfold bind at 1.
  assert (Hres : exists found, resolveLocation target doorPattern w s = (Returned found, s)).
  { unfold resolveLocation, findNearbyLoc, getNearbyLocs, bind, getState, ret.
    destruct target as [[loc|re]|]; eexists; reflexivity. }
  destruct Hres as (found & Hres). rewrite Hres. cbv beta iota.
  destruct found as [resolved|];
    [|unfold ret; intros H Hs; inversion H; subst; discriminate Hs].
  intros H Hs. exists resolved. split; [reflexivity|]. revert H Hs.
  cbv zeta.
  destruct (find isOpenOption (NearbyLoc.optionsWithIndex resolved)) as [openOpt|] eqn:Hopen.
  - assert (Hverify : forall s0 r0,
              (state <- getState ;; openDoorAwait resolved (tickOf state)) w s0
              = (Returned r0, s') ->
              success (base r0) = true ->
              match find (sameDoor (NearbyLoc.x resolved) (NearbyLoc.z resolved))
                         match snapshotAt w (clock s') with
                         | Some st => nearbyLocs st
                         | None => []
                         end with
              | None => True
              | Some doorNow =>
                  existsb isCloseOption (NearbyLoc.optionsWithIndex doorNow) = true
              end).
    { intros s0 r0.
      unfold openDoorAwait, tryCatch, bind, getState, ret. cbv beta iota zeta.
      destruct (waitForCondition _ 5000 w s0) as [o1 s1] eqn:Ew.
      destruct o1 as [st|e|];
        [|intros H Hs; inversion H; subst; discriminate Hs|discriminate].
      apply waitForCondition_returned in Ew. destruct Ew as (Hst & _ & _).
      rewrite Hst.
      destruct (anyMessage _ cantReach (gameMessages st));
        [intros H Hs; inversion H; subst; discriminate Hs|].
      destruct (find (sameDoor _ _) (nearbyLocs st)) as [doorAfter|] eqn:Hd.
      - destruct (existsb isCloseOption (NearbyLoc.optionsWithIndex doorAfter)) eqn:Hc;
          intros H Hs; inversion H; subst; try discriminate Hs.
        rewrite Hst, Hd. exact Hc.
      - intros H Hs. inversion H. subst. rewrite Hst, Hd. exact I. }
    destruct (NearbyLoc.distance resolved >? 2).
    + unfold bind at 1.
      destruct (walkTo _ _ 3 w s) as [o1 s1].
      destruct o1 as [walkResult|e|]; try discriminate.
      destruct (negb (success walkResult));
        [unfold ret; intros H Hs; inversion H; subst; discriminate Hs|].
      unfold bind at 1. unfold getNearbyLocs, bind, getState, ret. cbv beta iota.
      pose proof (filter_head_find
                    (sameDoor (NearbyLoc.x resolved) (NearbyLoc.z resolved))
                    match snapshotAt w (clock s1) with
                    | Some st => nearbyLocs st
                    | None => []
                    end) as Hhead.
      destruct (filter _ _) as [|refreshedDoor rest].
      * intros H Hs. inversion H. subst. right. rewrite Hhead. exact I.
      * destruct (find isOpenOption (NearbyLoc.optionsWithIndex refreshedDoor)).
        -- unfold send. cbv beta iota. intros H Hs. right.
           exact (Hverify _ _ H Hs).
        -- destruct (existsb isCloseOption (NearbyLoc.optionsWithIndex refreshedDoor))
             eqn:Hc; intros H Hs; inversion H; subst; try discriminate Hs.
           right. rewrite Hhead. exact Hc.
    + unfold bind at 1. unfold send at 1. cbv beta iota. intros H Hs. right.
      exact (Hverify _ _ H Hs).
  - destruct (find isCloseOption (NearbyLoc.optionsWithIndex resolved)) eqn:Hclose;
      unfold ret; intros H Hs; inversion H; subst; try discriminate Hs.
    left. split; [reflexivity|]. split; [reflexivity|]. discriminate.
Qed.

Lemma openDoor_success_state_witness :
  exists r s' resolved,
    openDoor None Scenes.doorOpening Sample.start = (Returned r, s')
    /\ success (base r) = true
    /\ resolveLocation None doorPattern Scenes.doorOpening Sample.start
       = (Returned (Some resolved), Sample.start)
    /\ match find (sameDoor (NearbyLoc.x resolved) (NearbyLoc.z resolved))
                  match snapshotAt Scenes.doorOpening (clock s') with
                  | Some st => nearbyLocs st
                  | None => []
                  end with
       | None => True
       | Some doorNow =>
           existsb isCloseOption (NearbyLoc.optionsWithIndex doorNow) = true
       end.
Proof.
  assert (E : openDoor None Scenes.doorOpening Sample.start
              = (Returned {| door_base := succeeded "Opened Door";
                             door := Some (Scenes.doorWith "Close") |},
                 {| clock := 600; sent := [InteractLoc 3210 3216 1530 1] |}))
    by (vm_compute; reflexivity).
  destruct (openDoor_success_state _ _ _ _ _ E eq_refl) as (resolved & Hres & Hstate).
  eexists. eexists. exists resolved. split; [exact E|]. split; [reflexivity|].
  split; [exact Hres|].
  destruct Hstate as [(Hs & _)|Hnow]; [discriminate Hs|exact Hnow].
Defined.

(** ** One command per action *)

(** The amount a numeric sale goes out with. *)
Lemma validAmount_spec (amount : Z) :
  let validAmount := if existsb (Z.eqb amount) [1; 5; 10] then amount else 1 in
  In validAmount [1; 5; 10] /\ (In amount [1; 5; 10] -> validAmount = amount).
Proof.
  cbv zeta. destruct (existsb (Z.eqb amount) [1; 5; 10]) eqn:E.
  - split; [|reflexivity].
    apply existsb_exists in E. destruct E as (v & Hv & Heq).
    apply Z.eqb_eq in Heq. subst v. exact Hv.
  - split; [simpl; auto|].
    intros Hin. exfalso.
    assert (Ht : existsb (Z.eqb amount) [1; 5; 10] = true).
    { apply existsb_exists. exists amount. split; [exact Hin|apply Z.eqb_refl]. }
    rewrite Ht in E. discriminate E.
Qed.

Ltac one_command :=
  let H := fresh "H" in
  intros H; inversion H; subst; clear H; frames;
  first
    [ left; cbn [sent advance record] in *; congruence
    | right; eexists; split;
      [ | cbn [sent advance record] in *; first [reflexivity | eassumption | congruence] ];
      cbn; first [ exact I | reflexivity | solve [repeat eexists]
                 | do 2 eexists; split; [reflexivity|assumption] ] ].

(** X6: picking up, talking, attacking and casting each send one
    command at most.  [pickupItem], [talkTo], [attackNpc] and
    [castSpellOnNpc] either send nothing or send exactly one command, of
    the kind named here and with the caller's spell; while the outcome is
    awaited nothing further is sent. *)
Theorem world_actions_send_one_command :
  (forall target,
      sendsAtMostOne (fun c => exists x z id, c = Pickup x z id) (pickupItem target))
  /\ (forall target,
        sendsAtMostOne (fun c => exists index, c = TalkToNpc index) (talkTo target))
  /\ (forall target timeout,
        sendsAtMostOne (fun c => exists index op, c = InteractNpc index op)
                       (attackNpc target timeout))
  /\ (forall target spellComponent timeout,
        sendsAtMostOne (fun c => exists index, c = SpellOnNpc index spellComponent)
                       (castSpellOnNpc target spellComponent timeout)).
Proof.
  repeat match goal with |- _ /\ _ => split end; intros; intros w s o s'.
  - unfold pickupItem, pickupItemAwait, resolveGroundItem, findGroundItem,
      getInventory, tryCatch, bind, getState, send, ret.
    crunch; one_command.
  - unfold talkTo, talkToAwait, resolveNpc, findNearbyNpc,
      tryCatch, bind, getState, send, ret.
    crunch; one_command.
  - unfold attackNpc, attackNpcAwait, resolveNpc, findNearbyNpc,
      tryCatch, bind, getState, send, ret.
    crunch; one_command.
  - unfold castSpellOnNpc, castSpellOnNpcAwait, resolveNpc, findNearbyNpc,
      tryCatch, bind, getState, send, ret.
    crunch; one_command.
Qed.

(** X7: equipping, unequipping and eating each send one command at
    most.  [equipItem] and [eatFood] send nothing or one [sendUseItem];
    [unequipItem] sends nothing or one [sendUseEquipmentItem] with
    option 1; nothing further is sent while the outcome is awaited. *)
Theorem inventory_actions_send_one_command :
  (forall target,
      sendsAtMostOne (fun c => exists itemSlot op, c = UseItem itemSlot op)
                     (equipItem target))
  /\ (forall target,
        sendsAtMostOne (fun c => exists itemSlot, c = UseEquipmentItem itemSlot 1)
                       (unequipItem target))
  /\ (forall target,
        sendsAtMostOne (fun c => exists itemSlot op, c = UseItem itemSlot op)
                       (eatFood target)).
Proof.
  repeat match goal with |- _ /\ _ => split end; intros; intros w s o s'.
  - unfold equipItem, equipItemAwait, resolveInventoryItem, findInventoryItem,
      getInventory, tryCatch, bind, getState, send, ret.
    crunch; one_command.
  - unfold unequipItem, unequipItemAwait, regExpOf, findEquipmentItem, findInventoryItem,
      getInventory, tryCatch, bind, getState, send, ret.
    crunch; one_command.
  - unfold eatFood, eatFoodAwait, resolveInventoryItem, findInventoryItem, hitpoints,
      getSkill, getInventory, tryCatch, bind, getState, send, ret.
    crunch; one_command.
Qed.

(** X8: the shop actions each send one command at most.  [openShop]
    sends nothing or one [sendInteractNpc]; [buyFromShop] sends nothing or
    one [sendShopBuy] with the caller's amount; [sellToShop] with a number
    sends nothing or one [sendShopSell], for 1, 5 or 10 units and for the
    caller's amount when that is one of the three.  Nothing further is
    sent while the outcome is awaited. *)
Theorem shop_actions_send_one_command :
  (forall target,
      sendsAtMostOne (fun c => exists index op, c = InteractNpc index op)
                     (openShop target))
  /\ (forall target amount,
        sendsAtMostOne (fun c => exists itemSlot, c = ShopBuy itemSlot amount)
                       (buyFromShop target amount))
  /\ (forall target amount,
        sendsAtMostOne (fun c => exists itemSlot sold,
                                   c = ShopSell itemSlot sold
                                   /\ In sold [1; 5; 10]
                                   /\ (In amount [1; 5; 10] -> sold = amount))
                       (sellToShop target (Units amount))).
Proof.
  repeat match goal with |- _ /\ _ => split end; intros; intros w s o s'.
  - unfold openShop, openShopAwait, resolveNpc, findNearbyNpc,
      tryCatch, bind, getState, send, ret.
    crunch; one_command.
  - unfold buyFromShop, buyFromShopAwait, getInventory,
      tryCatch, bind, getState, send, ret.
    crunch; one_command.
  - pose proof (validAmount_spec amount) as Hvalid. cbv zeta in Hvalid.
    unfold sellToShop, sellToShopAwait, tryCatch, bind, getState, send, ret.
    cbv zeta.
    set (validAmount := if existsb (Z.eqb amount) [1; 5; 10] then amount else 1) in *.
    clearbody validAmount.
    crunch; one_command.
Qed.

(** X9: the bank transactions each send one command at most.
    [depositItem] sends nothing or one [sendBankDeposit] and
    [withdrawItem] nothing or one [sendBankWithdraw], with the caller's
    amount (and, for a withdrawal, the caller's bank slot); nothing
    further is sent while the outcome is awaited. *)
Theorem bank_actions_send_one_command :
  (forall target amount,
      sendsAtMostOne (fun c => exists itemSlot, c = BankDeposit itemSlot amount)
                     (depositItem target amount))
  /\ (forall bankSlot amount,
        sendsAtMostOne (fun c => c = BankWithdraw bankSlot amount)
                       (withdrawItem bankSlot amount)).
Proof.
  repeat match goal with |- _ /\ _ => split end; intros; intros w s o s'.
  - unfold depositItem, depositItemAwait, resolveInventoryItem, findInventoryItem,
      getInventory, tryCatch, bind, getState, send, ret.
    crunch; one_command.
  - unfold withdrawItem, withdrawItemAwait, getInventory,
      tryCatch, bind, getState, send, ret.
    crunch; one_command.
Qed.

(** ** What a reported success stands for *)

(** A scan that classifies nothing has seen no newer message the
    classifier reacts to. *)
Lemma scan_none_any {R} (startTick : Z) (classify : string -> option R)
  (p : string -> bool) :
  (forall t, classify t = None -> p t = false) ->
  forall msgs,
    scanMessages startTick classify msgs = None ->
    anyMessage startTick p msgs = false.
Proof.
  intros Hcp. unfold anyMessage. induction msgs as [|m rest IH]; simpl.
  - reflexivity.
  - destruct (newer startTick m); [|exact IH].
    destruct (classify (toLowerCase (msgText m))) eqn:E; [discriminate|].
    intros H. rewrite (Hcp _ E). simpl. apply IH. exact H.
Qed.

(** A scan that answers hands back what the classifier made of some
    newer message. *)
Lemma scan_some_classified {R} (startTick : Z) (classify : string -> option R) :
  forall msgs r,
    scanMessages startTick classify msgs = Some r ->
    exists m, In m msgs /\ newer startTick m = true
              /\ classify (toLowerCase (msgText m)) = Some r.
Proof.
  induction msgs as [|m rest IH]; intros r; simpl.
  - discriminate.
  - destruct (newer startTick m) eqn:En.
    + destruct (classify (toLowerCase (msgText m))) eqn:E.
      * intros H. inversion H. subst. exists m. auto.
      * intros H. destruct (IH r H) as (m' & Hin & Hm). exists m'. auto.
    + intros H. destruct (IH r H) as (m' & Hin & Hm). exists m'. auto.
Qed.

Lemma scan_sellAll_success (sellItem : ShopItem.t) (startTick totalSold : Z) :
  forall msgs r,
    scanMessages startTick (sellAllRejection sellItem totalSold) msgs = Some r ->
    success (base r) = true -> 0 < totalSold.
Proof.
  induction msgs as [|m rest IH]; intros r; simpl.
  - discriminate.
  - destruct (newer startTick m); [|apply IH].
    unfold sellAllRejection at 1.
    destruct (includes _ "can't sell this item to this shop").
    + intros H. inversion H. cbn. intros Hs. apply Z.gtb_lt in Hs. lia.
    + destruct (includes _ "can't sell this item").
      * intros H. inversion H. cbn. discriminate.
      * apply IH.
Qed.

(** A pass of the sell-all loop never lowers the running total, and an
    answer that reports success has a positive total behind it. *)
Lemma sellBatch_total (w : World) (sellItem : ShopItem.t) (startTick totalSold : Z)
  (s s1 : Session) (b : Batch) :
  sellBatch sellItem startTick totalSold w s = (Returned b, s1) ->
  match b with
  | Next t1 => totalSold < t1
  | Break t1 => t1 = totalSold
  | Answer r => amountSold r = Some totalSold /\ (success (base r) = true -> 0 < totalSold)
  end.
Proof.
  unfold sellBatch, afterBatch, tryCatch, bind, getState, send, ret.
  crunch; intros H; inversion H; subst; clear H; try reflexivity.
  - split.
    + eapply scan_sellAll_some. eassumption.
    + eapply scan_sellAll_success. eassumption.
  - match goal with
    | E : waitForCondition _ _ _ _ = (Returned _, _) |- _ =>
        apply waitForCondition_returned in E; destruct E as (_ & Hc & _)
    end.
    match goal with E : (_ =? 0) = true |- _ => apply Z.eqb_eq in E; lia end.
  - match goal with
    | E : waitForCondition _ _ _ _ = (Returned _, _) |- _ =>
        apply waitForCondition_returned in E; destruct E as (_ & Hc & _)
    end.
    unfold sellCondition in Hc.
    match goal with
    | E : scanMessages _ _ _ = None |- _ => apply scan_sellAll_none in E; rewrite E in Hc
    end.
    simpl in Hc. apply N.ltb_lt in Hc. lia.
Qed.

Lemma sellAllLoop_success (w : World) (sellItem : ShopItem.t) (startTick : Z) :
  forall fuel totalSold s r s',
    0 <= totalSold ->
    sellAllLoop fuel sellItem startTick totalSold w s = (Returned r, s') ->
    success (base r) = true ->
    exists k, amountSold r = Some k /\ 0 < k.
Proof.
  induction fuel as [|fuel IH]; intros totalSold s r s' Hpos; simpl.
  - discriminate.
  - unfold bind at 1.
    destruct (sellBatch sellItem startTick totalSold w s) as [o s1] eqn:E.
    destruct o as [b|e|]; try discriminate.
    apply sellBatch_total in E.
    destruct b as [result|t1|t1].
    + unfold ret. intros H Hs. inversion H. subst. destruct E as [Ha Hk].
      exists totalSold. split; [exact Ha|apply Hk; exact Hs].
    + unfold ret, sellAllSummary. subst t1.
      destruct (totalSold =? 0) eqn:Ez.
      * intros H Hs. inversion H. subst. discriminate Hs.
      * intros H Hs. inversion H. subst. cbn.
        exists totalSold. split; [reflexivity|]. apply Z.eqb_neq in Ez. lia.
    + apply IH. lia.
Qed.

(** X10: a sale reported as a success sold something.  Whenever
    [sellToShop] returns [success:true], for a number or for ['all'],
    its [amountSold] is defined and positive. *)
Theorem sellToShop_success_sold (w : World) (s s' : Session) (target : ShopTarget)
  (amount : SellAmount) (r : ShopSellResult) :
  sellToShop target amount w s = (Returned r, s') ->
  success (base r) = true ->
  exists k, amountSold r = Some k /\ 0 < k.
Proof.
  unfold sellToShop. unfold bind at 1. unfold getState at 1. cbv beta iota.
  destruct (snapshotAt w (clock s)) as [st|];
    [|intros H Hs; inversion H; subst; discriminate Hs].
  destruct (Shop.isOpen (shop st));
    [|intros H Hs; inversion H; subst; discriminate Hs].
  destruct (resolveShopItem target (Shop.playerItems (shop st))) as [sellItem|];
    [|intros H Hs; inversion H; subst; discriminate Hs].
  unfold bind at 1. unfold getState at 1. cbv beta iota zeta.
  destruct amount as [amount|].
  - unfold sellToShopAwait, tryCatch, bind, send, ret.
    crunch; intros H Hs; inversion H; subst; clear H; try discriminate Hs;
      try (exfalso;
           match goal with
           | E : scanMessages _ _ _ = Some _ |- _ =>
               apply scan_some_classified in E; destruct E as (m & _ & _ & E);
               unfold sellRejection in E;
               repeat match type of E with
                      | (if ?c then _ else _) = _ => destruct c
                      end;
               inversion E; subst; discriminate Hs
           end);
      match goal with
      | E : waitForCondition _ _ _ _ = (Returned _, _) |- _ =>
          apply waitForCondition_returned in E; destruct E as (_ & Hc & _)
      end;
      unfold sellCondition in Hc;
      match goal with
      | E : scanMessages _ _ _ = None |- _ =>
          apply (scan_none_any _ _ cantSell) in E; [rewrite E in Hc|]
      end.
    all: try (simpl in Hc; apply N.ltb_lt in Hc; eexists; split; [reflexivity|]; lia).
    all: intros t; unfold sellRejection, cantSell;
      destruct (includes t "can't sell this item to this shop"); [discriminate|];
      destruct (includes t "can't sell this item to a shop"); [discriminate|];
      destruct (includes t "can't sell this item"); [discriminate|reflexivity].
  - unfold sellAllToShop, bind, getState. cbv beta iota.
    apply sellAllLoop_success. lia.
Qed.

Lemma sellToShop_success_sold_witness :
  exists r s',
    sellToShop (ShopHandle (Sample.hide 0 12)) All Sample.sellingOut Sample.start
    = (Returned r, s')
    /\ success (base r) = true
    /\ exists k, amountSold r = Some k /\ 0 < k.
Proof.
  assert (E : sellToShop (ShopHandle (Sample.hide 0 12)) All Sample.sellingOut Sample.start
              = (Returned {| sell_base := succeeded "Sold Cowhide x21";
                             amountSold := Some 21; rejected := false |},
                 {| clock := 1800;
                    sent := [ShopSell 1 9; ShopSell 0 2; ShopSell 0 10] |}))
    by (vm_compute; reflexivity).
  eexists. eexists. split; [exact E|]. split; [reflexivity|].
  exact (sellToShop_success_sold _ _ _ _ _ _ E eq_refl).
Defined.

(** Reads off what the wait that returned has seen. *)
Ltac observed :=
  match goal with
  | E : waitForCondition _ _ _ _ = (Returned _, _) |- _ =>
      apply waitForCondition_returned in E;
      let Hst := fresh "Hst" in
      let Hc := fresh "Hc" in
      let Hsent := fresh "Hsent" in
      destruct E as (Hst & Hc & Hsent)
  end.

Ltac tidy :=
  repeat match goal with
         | H : Some _ = Some _ |- _ => inversion H; subst; clear H
         | H : Some _ = None |- _ => discriminate H
         | H : None = Some _ |- _ => discriminate H
         end.

Ltac witnessed :=
  match goal with
  | E : waitForCondition _ _ _ _ = (Returned ?st, _) |- _ =>
      apply waitForCondition_returned in E;
      let Hst := fresh "Hst" in
      let Hc := fresh "Hc" in
      let Hsent := fresh "Hsent" in
      destruct E as (Hst & Hc & Hsent);
      exists st; split; [exact Hst|]
  end.

Ltac classified classifier Hs :=
  match goal with
  | E : scanMessages _ _ _ = Some _ |- _ =>
      apply scan_some_classified in E;
      let m := fresh "m" in
      destruct E as (m & _ & _ & E);
      unfold classifier in E;
      repeat match type of E with
             | (if ?c then _ else _) = _ => destruct c
             end;
      inversion E; subst; discriminate Hs
  end.

(** X11: a pickup reported as a success was seen in the inventory.
    Whenever [pickupItem] returns [success:true], the snapshot at its
    return lists more inventory entries than the inventory did at the
    call and carries no message newer than the call's tick about reach
    or a full inventory. *)
Theorem pickupItem_success_observed (w : World) (s s' : Session)
  (target : Target GroundItem.t) (r : PickupResult) :
  pickupItem target w s = (Returned r, s') ->
  success (base r) = true ->
  exists st,
    snapshotAt w (clock s') = Some st
    /\ (List.length (match snapshotAt w (clock s) with
                     | Some before => inventory before
                     | None => []
                     end) < List.length (inventory st))%nat
    /\ anyMessage (tickOf (snapshotAt w (clock s)))
                  (fun t => cantReach t || inventoryFull t) (gameMessages st) = false.
Proof.
  unfold pickupItem, pickupItemAwait, resolveGroundItem, findGroundItem,
    getInventory, tryCatch, bind, getState, send, ret.
  crunch; intros H Hs; inversion H; subst; clear H; try discriminate Hs;
    try (exfalso; classified pickupFailure Hs);
    tidy; witnessed;
    match goal with
    | Hc : pickupCondition _ _ _ = true, E : scanMessages _ _ _ = None |- _ =>
        unfold pickupCondition in Hc;
        apply (scan_none_any _ _ (fun t => cantReach t || inventoryFull t)) in E;
        [ rewrite E in Hc; cbn [orb] in Hc; apply Nat.ltb_lt in Hc; split; assumption | ]
    end.
  all: intros text; unfold pickupFailure;
    destruct (cantReach text); [discriminate|];
    destruct (inventoryFull text); [discriminate|reflexivity].
Qed.

Lemma pickupItem_success_observed_witness :
  let w := Scenes.receiving [] [Scenes.carried 0 526 "Bones" 1 []] in
  exists r s',
    pickupItem (Handle Scenes.bones) w Sample.start = (Returned r, s')
    /\ success (base r) = true
    /\ exists st,
         snapshotAt w (clock s') = Some st
         /\ (List.length (match snapshotAt w (clock Sample.start) with
                          | Some before => inventory before
                          | None => []
                          end) < List.length (inventory st))%nat
         /\ anyMessage (tickOf (snapshotAt w (clock Sample.start)))
                       (fun t => cantReach t || inventoryFull t) (gameMessages st) = false.
Proof.
  intros w.
  assert (E : pickupItem (Handle Scenes.bones) w Sample.start
              = (Returned {| pickup_base := succeeded "Picked up Bones";
                             pickup_item := Some (Scenes.carried 0 526 "Bones" 1 []) |},
                 {| clock := 600; sent := [Pickup 3222 3219 526] |}))
    by (vm_compute; reflexivity).
  eexists. eexists. split; [exact E|]. split; [reflexivity|].
  exact (pickupItem_success_observed _ _ _ _ _ E eq_refl).
Defined.

(** X12: a purchase reported as a success carries the bought stack.
    Whenever [buyFromShop] returns [success:true], its [item] is defined:
    it is an inventory entry with the id of the shop item the target
    resolved to, and its count is above the count held at the call (zero
    when none was held). *)
Theorem buyFromShop_success_item (w : World) (s s' : Session) (target : ShopTarget)
  (amount : Z) (r : ShopResult) :
  buyFromShop target amount w s = (Returned r, s') ->
  success (base r) = true ->
  exists st shopItem bought,
    snapshotAt w (clock s) = Some st
    /\ resolveShopItem target (Shop.shopItems (shop st)) = Some shopItem
    /\ buy_item r = Some bought
    /\ InventoryItem.id bought = ShopItem.id shopItem
    /\ N.lt match find (fun i => InventoryItem.id i =? ShopItem.id shopItem)
                        (inventory st) with
            | Some had => InventoryItem.count had
            | None => 0%N
            end
            (InventoryItem.count bought).
Proof.
  unfold buyFromShop, buyFromShopAwait, getInventory, tryCatch, bind, getState, send, ret.
  crunch; intros H Hs; inversion H; subst; clear H; try discriminate Hs; tidy;
    match goal with
    | E : waitForCondition _ _ _ _ = (Returned _, _) |- _ =>
        apply waitForCondition_returned in E; destruct E as (Hst & Hc & _)
    end;
    unfold buyCondition in Hc;
    repeat match goal with
           | E1 : snapshotAt w ?t = _, E2 : snapshotAt w ?t = _ |- _ =>
               rewrite E1 in E2; inversion E2; subst; clear E2
           end;
    match type of Hc with
    | match find ?f ?l with _ => _ end = true =>
        destruct (find f l) as [bought|] eqn:Ef; [|discriminate Hc]
    end;
    apply N.ltb_lt in Hc;
    do 3 eexists; cbn [buy_item];
    (split; [reflexivity|]); (split; [eassumption|]); (split; [reflexivity|]);
    (split;
     [ apply find_some in Ef; destruct Ef as [_ Ef]; apply Z.eqb_eq in Ef; exact Ef
     | repeat match goal with
              | E : find _ (inventory _) = _ |- _ => rewrite E; clear E
              end;
       exact Hc ]).
Qed.

Lemma buyFromShop_success_item_witness :
  let w := Scenes.receiving [] [Scenes.carried 0 2347 "Hammer" 1 []] in
  exists r s',
    buyFromShop (ShopHandle Scenes.hammer) 1 w Sample.start = (Returned r, s')
    /\ success (base r) = true
    /\ exists st shopItem bought,
         snapshotAt w (clock Sample.start) = Some st
         /\ resolveShopItem (ShopHandle Scenes.hammer) (Shop.shopItems (shop st))
            = Some shopItem
         /\ buy_item r = Some bought
         /\ InventoryItem.id bought = ShopItem.id shopItem
         /\ N.lt match find (fun i => InventoryItem.id i =? ShopItem.id shopItem)
                             (inventory st) with
                 | Some had => InventoryItem.count had
                 | None => 0%N
                 end
                 (InventoryItem.count bought).
Proof.
  intros w.
  assert (E : buyFromShop (ShopHandle Scenes.hammer) 1 w Sample.start
              = (Returned {| buy_base := succeeded "Bought Hammer x1";
                             buy_item := Some (Scenes.carried 0 2347 "Hammer" 1 []) |},
                 {| clock := 600; sent := [ShopBuy 2 1] |}))
    by (vm_compute; reflexivity).
  eexists. eexists. split; [exact E|]. split; [reflexivity|].
  exact (buyFromShop_success_item _ _ _ _ _ _ E eq_refl).
Defined.

(** X13: an attack reported as a success was seen to engage.  Whenever
    [attackNpc] returns [success:true], the snapshot at its return
    either no longer lists the target's index among the nearby NPCs or
    lists it within two tiles, and carries no message newer than the
    call's tick about reach or about the target being in combat. *)
Theorem attackNpc_success_observed (w : World) (s s' : Session)
  (target : Target NearbyNpc.t) (timeout : Z) (r : AttackResult) :
  attackNpc target timeout w s = (Returned r, s') ->
  success (base r) = true ->
  exists npc st,
    resolveNpc target w s = (Returned (Some npc), s)
    /\ snapshotAt w (clock s') = Some st
    /\ match find (fun n => NearbyNpc.index n =? NearbyNpc.index npc) (nearbyNpcs st) with
       | None => True
       | Some seen => NearbyNpc.distance seen <= 2
       end
    /\ anyMessage (tickOf (snapshotAt w (clock s)))
                  (fun t => cantReach t || inCombat t) (gameMessages st) = false.
Proof.
  unfold attackNpc, attackNpcAwait, attackVerdict, resolveNpc, findNearbyNpc,
    tryCatch, bind, getState, send, ret.
  crunch; intros H Hs; inversion H; subst; clear H; try discriminate Hs;
    try (exfalso; classified attackFailure Hs);
    tidy; eexists;
    match goal with
    | E : waitForCondition _ _ _ _ = (Returned ?st, _) |- _ =>
        apply waitForCondition_returned in E; destruct E as (Hst & Hc & _);
        exists st
    end;
    (split; [reflexivity|]); (split; [exact Hst|]);
    match goal with
    | E : scanMessages _ _ _ = None |- _ => rename E into Hscan
    end;
    unfold attackCondition in Hc;
    apply (scan_none_any _ _ (fun t => cantReach t || inCombat t)) in Hscan.
  all: try (intros text; unfold attackFailure;
            destruct (cantReach text); [discriminate|];
            destruct (inCombat text); [discriminate|reflexivity]).
  all: rewrite Hscan in Hc; cbn [orb] in Hc; split;
    [|first [ exact Hscan
            | match goal with
              | E : snapshotAt _ _ = Some _ |- _ => rewrite <- E; exact Hscan
              end ]];
    revert Hc;
    match goal with
    | |- match find ?f ?l with _ => _ end = true -> _ =>
        destruct (find f l); intros Hc; [apply Z.leb_le in Hc; exact Hc|exact I]
    end.
Qed.

Lemma attackNpc_success_observed_witness :
  let w := Sample.scripted 600 (Sample.scene 10 [] []) [Sample.standing 3222 3218] in
  exists r s',
    attackNpc (Handle Sample.goblin) 5000 w Sample.start = (Returned r, s')
    /\ success (base r) = true
    /\ exists npc st,
         resolveNpc (Handle Sample.goblin) w Sample.start
         = (Returned (Some npc), Sample.start)
         /\ snapshotAt w (clock s') = Some st
         /\ match find (fun n => NearbyNpc.index n =? NearbyNpc.index npc)
                       (nearbyNpcs st) with
            | None => True
            | Some seen => NearbyNpc.distance seen <= 2
            end
         /\ anyMessage (tickOf (snapshotAt w (clock Sample.start)))
                       (fun t => cantReach t || inCombat t) (gameMessages st) = false.
Proof.
  intros w.
  assert (E : attackNpc (Handle Sample.goblin) 5000 w Sample.start
              = (Returned {| attack_base := succeeded "Attacking Goblin" |},
                 {| clock := 600; sent := [InteractNpc 7 2] |}))
    by (vm_compute; reflexivity).
  eexists. eexists. split; [exact E|]. split; [reflexivity|].
  exact (attackNpc_success_observed _ _ _ _ _ _ E eq_refl).
Defined.

(** X14: the fields of a [castSpellOnNpc] result agree with each other.
    A failure carries neither [hit] nor [xpGained]; a success carries
    both, [xpGained] is never negative, and [hit] is true exactly when
    [xpGained] is positive. *)
Theorem castSpellOnNpc_result_consistent (w : World) (s s' : Session)
  (target : Target NearbyNpc.t) (spellComponent timeout : Z) (r : CastSpellResult) :
  castSpellOnNpc target spellComponent timeout w s = (Returned r, s') ->
  if success (base r)
  then exists gained,
         cast_xpGained r = Some gained /\ 0 <= gained /\ hit r = Some (gained >? 0)
  else cast_xpGained r = None /\ hit r = None.
Proof.
  intros H. destruct (success (base r)) eqn:Hs; revert H Hs;
    unfold castSpellOnNpc, castSpellOnNpcAwait, resolveNpc, findNearbyNpc,
      tryCatch, bind, getState, send, ret;
    crunch; intros H Hs; inversion H; subst; clear H;
    try (match goal with
         | E : scanMessages _ _ _ = Some _ |- _ =>
             apply scan_some_classified in E; destruct E as (m & _ & _ & E);
             unfold castFailure in E;
             repeat match type of E with
                    | (if ?c then _ else _) = _ => destruct c
                    end;
             inversion E; subst
         end);
    cbn in Hs; try discriminate Hs; cbn;
    try (split; reflexivity);
    try (exists 0; repeat split; reflexivity || lia);
    match goal with
    | E : (?x >? 0) = true |- _ =>
        exists x; rewrite E; repeat split; try reflexivity;
        apply Z.gtb_lt in E; lia
    end.
Qed.

Lemma castSpellOnNpc_result_consistent_witness :
  let w := Sample.scripted 600 (Sample.scene 10 [Scenes.magic 100] [])
             [Sample.scene 11 [Scenes.magic 122] []] in
  exists r s',
    castSpellOnNpc (Handle Sample.goblin) 51 5000 w Sample.start = (Returned r, s')
    /\ if success (base r)
       then exists gained,
              cast_xpGained r = Some gained /\ 0 <= gained /\ hit r = Some (gained >? 0)
       else cast_xpGained r = None /\ hit r = None.
Proof.
  intros w.
  assert (E : castSpellOnNpc (Handle Sample.goblin) 51 5000 w Sample.start
              = (Returned {| cast_base := succeeded "Hit Goblin for 22 Magic XP";
                             hit := Some true; cast_xpGained := Some 22 |},
                 {| clock := 600; sent := [SpellOnNpc 7 51] |}))
    by (vm_compute; reflexivity).
  eexists. eexists. split; [exact E|].
  exact (castSpellOnNpc_result_consistent _ _ _ _ _ _ _ E).
Defined.

(** ** The modal interfaces *)

Lemma openBankLoop_success (w : World) (startTime timeout : Z) :
  forall fuel s r s',
    openBankLoop fuel startTime timeout w s = (Returned r, s') ->
    success r = true ->
    interfaceIsOpen (snapshotAt w (clock s')) = true.
Proof.
  induction fuel as [|fuel IH]; intros s r s'; simpl;
    unfold bind, now, tryCatch, getState, send, sleep, ret;
    crunch; try discriminate; try (apply IH);
    intros H Hs; inversion H; subst; clear H; try discriminate Hs; assumption.
Qed.

(** X15: after a reported success the modal interface is in the state
    asked for.  In the snapshot current when the call returns, a
    successful [openBank] finds the interface open, a successful
    [closeBank] finds it not open, a successful [openShop] finds the shop
    open, and a successful [closeShop] finds neither the shop nor the
    interface open. *)
Theorem modal_state_after_success (w : World) (s s' : Session) (r : ActionResult) :
  (forall timeout,
      openBank timeout w s = (Returned r, s') -> success r = true ->
      interfaceIsOpen (snapshotAt w (clock s')) = true)
  /\ (forall timeout,
        closeBank timeout w s = (Returned r, s') -> success r = true ->
        interfaceIsOpen (snapshotAt w (clock s')) = false)
  /\ (forall target,
        openShop target w s = (Returned r, s') -> success r = true ->
        shopIsOpen (snapshotAt w (clock s')) = true)
  /\ (forall timeout,
        closeShop timeout w s = (Returned r, s') -> success r = true ->
        shopIsOpen (snapshotAt w (clock s')) = false
        /\ interfaceIsOpen (snapshotAt w (clock s')) = false).
Proof.
  repeat match goal with |- _ /\ _ => split end.
  - intros timeout.
    unfold openBank. unfold bind at 1. unfold getState at 1. cbv beta iota.
    destruct (interfaceIsOpen (snapshotAt w (clock s))) eqn:Hopen.
    + unfold ret. intros H _. inversion H. subst. exact Hopen.
    + unfold bind at 1.
      destruct (dismissBlockingUI w s) as [o1 s1].
      destruct o1 as [[]|e|]; try discriminate.
      unfold findNearbyNpc, findNearbyLoc, getNearbyLocs, bind, getState, send, now, ret.
      crunch; try discriminate;
        try (intros H Hs; inversion H; subst; discriminate Hs);
        apply openBankLoop_success.
  - intros timeout.
    unfold closeBank, tryCatch, bind, getState, send, sleep, ret.
    crunch; intros H Hs; inversion H; subst; clear H; try discriminate Hs;
      try (apply negb_true_iff; assumption);
      match goal with
      | E : waitForCondition _ _ _ _ = (Returned _, _) |- _ =>
          apply waitForCondition_returned in E; destruct E as (Hst & Hc & _);
          rewrite Hst; apply negb_true_iff; exact Hc
      end.
  - intros target.
    unfold openShop, openShopAwait, resolveNpc, findNearbyNpc,
      tryCatch, bind, getState, send, ret.
    crunch; intros H Hs; inversion H; subst; clear H; try discriminate Hs;
      try (match goal with
           | E : negb (success ?x) = true |- _ =>
               apply negb_true_iff in E; rewrite E in Hs; discriminate Hs
           end);
      match goal with
      | E : waitForCondition _ _ _ _ = (Returned _, _) |- _ =>
          apply waitForCondition_returned in E; destruct E as (Hst & Hc & _);
          rewrite Hst; exact Hc
      end.
  - intros timeout.
    unfold closeShop, tryCatch, bind, getState, send, sleep, ret.
    crunch; intros H Hs; inversion H; subst; clear H; try discriminate Hs;
      try (match goal with
           | E : negb _ && negb _ = true |- _ =>
               apply andb_true_iff in E; destruct E as [E1 E2];
               apply negb_true_iff in E1; apply negb_true_iff in E2;
               split; assumption
           end);
      match goal with
      | E : waitForCondition _ _ _ _ = (Returned _, _) |- _ =>
          apply waitForCondition_returned in E; destruct E as (Hst & Hc & _);
          rewrite Hst; unfold closedCondition in Hc;
          apply andb_true_iff in Hc; destruct Hc as [E1 E2];
          apply negb_true_iff in E1; apply negb_true_iff in E2;
          split; assumption
      end.
Qed.

Lemma modal_state_after_success_witness :
  let w := Sample.scripted 600 (Sample.atBank true []) [Sample.atBank false []] in
  exists r s',
    closeBank 5000 w Sample.start = (Returned r, s')
    /\ success r = true
    /\ interfaceIsOpen (snapshotAt w (clock s')) = false.
Proof.
  intros w.
  assert (E : closeBank 5000 w Sample.start
              = (Returned (succeeded "Bank closed"),
                 {| clock := 600; sent := [CloseModal] |}))
    by (vm_compute; reflexivity).
  eexists. eexists. split; [exact E|]. split; [reflexivity|].
  exact (proj1 (proj2 (modal_state_after_success w _ _ _)) 5000 E eq_refl).
Defined.

(** ** Dialogs *)

Lemma dismissLoop_clicks (w : World) :
  forall attempts s o s',
    dismissLoop attempts w s = (o, s') ->
    exists n,
      (n <= attempts)%nat
      /\ sent s' = repeat (ClickDialog 0) n ++ sent s
      /\ ((n < attempts)%nat ->
          match snapshotAt w (clock s') with
          | Some st => Dialog.isOpen (dialog st) = false
          | None => True
          end).
Proof.
  induction attempts as [|attempts IH]; intros s o s'; simpl.
  - unfold ret. intros H. inversion H. subst. exists 0%nat.
    split; [lia|]. split; [reflexivity|]. lia.
  - unfold bind at 1. unfold getState at 1. cbv beta iota.
    destruct (snapshotAt w (clock s)) as [st|] eqn:Hst.
    + destruct (Dialog.isOpen (dialog st)) eqn:Hopen.
      * unfold bind at 1. unfold send at 1. cbv beta iota.
        unfold bind at 1. unfold tryCatch, waitForStateChange, ret.
        destruct (Z.of_N (pollMs w) <=? 2000); cbv beta iota;
          intros H; apply IH in H; destruct H as (n & Hn & Hs & Hclosed);
          exists (S n); (split; [lia|]);
          (split; [rewrite Hs; cbn [sent advance record repeat];
                   rewrite repeat_cons, <- app_assoc; reflexivity
                  |intros Hlt; apply Hclosed; lia]).
      * unfold ret. intros H. inversion H. subst. exists 0%nat.
        split; [lia|]. split; [reflexivity|]. intros _. rewrite Hst. exact Hopen.
    + unfold ret. intros H. inversion H. subst. exists 0%nat.
      split; [lia|]. split; [reflexivity|]. intros _. rewrite Hst. exact I.
Qed.

(** X16: [dismissBlockingUI] clicks at most ten times.  All it ever
    sends is [sendClickDialog(0)], ten times at most; and when it stops
    short of ten clicks, the snapshot current at its return shows no open
    dialog (or there is no snapshot). *)
Theorem dismissBlockingUI_bounded (w : World) (s s' : Session) (o : Outcome unit) :
  dismissBlockingUI w s = (o, s') ->
  exists n,
    (n <= 10)%nat
    /\ sent s' = repeat (ClickDialog 0) n ++ sent s
    /\ ((n < 10)%nat ->
        match snapshotAt w (clock s') with
        | Some st => Dialog.isOpen (dialog st) = false
        | None => True
        end).
Proof. apply dismissLoop_clicks. Qed.

Lemma dismissBlockingUI_bounded_witness :
  exists o s',
    dismissBlockingUI Scenes.twoPages Sample.start = (o, s')
    /\ exists n,
         (n <= 10)%nat
         /\ sent s' = repeat (ClickDialog 0) n ++ sent Sample.start
         /\ ((n < 10)%nat ->
             match snapshotAt Scenes.twoPages (clock s') with
             | Some st => Dialog.isOpen (dialog st) = false
             | None => True
             end).
Proof.
  assert (E : dismissBlockingUI Scenes.twoPages Sample.start
              = (Returned tt, {| clock := 1200; sent := [ClickDialog 0; ClickDialog 0] |}))
    by (vm_compute; reflexivity).
  eexists. eexists. split; [exact E|].
  exact (dismissBlockingUI_bounded _ _ _ _ E).
Defined.



(** ** Condition helpers *)

(** X18: the condition helpers hand back what they waited for.
    [waitForSkillLevel] either fails as its wait did or returns a
    skill of the snapshot current at its return whose name is the one
    asked for (case-insensitively) and whose base level has reached the
    target; [waitForDialogClose] returns only with a snapshot whose
    dialog is not open.  Neither returns [undefined], and neither sends a
    command. *)
Theorem condition_helpers_return_a_match (w : World) (s s' : Session) :
  (forall skillName targetLevel timeout o,
      waitForSkillLevel skillName targetLevel timeout w s = (o, s') ->
      sent s' = sent s
      /\ match o with
         | Returned found =>
             exists st skill,
               found = Some skill
               /\ snapshotAt w (clock s') = Some st
               /\ In skill (skills st)
               /\ toLowerCase (Skill.name skill) = toLowerCase skillName
               /\ targetLevel <= Skill.baseLevel skill
         | Thrown _ => True
         | Unfinished => False
         end)
  /\ (forall timeout o,
        waitForDialogClose timeout w s = (o, s') ->
        sent s' = sent s
        /\ match o with
           | Returned _ =>
               exists st,
                 snapshotAt w (clock s') = Some st
                 /\ Dialog.isOpen (dialog st) = false
           | Thrown _ => True
           | Unfinished => False
           end).
Proof.
  repeat match goal with |- _ /\ _ => split end.
  - intros skillName targetLevel timeout o.
    unfold waitForSkillLevel, bind, ret.
    destruct (waitForCondition _ timeout w s) as [o1 s1] eqn:E.
    pose proof (waitForCondition_sent _ _ _ _ _ _ E) as Hsent.
    destruct o1 as [st|e|]; intros H; inversion H; subst; clear H;
      (split; [exact Hsent|]).
    + apply waitForCondition_returned in E. destruct E as (Hst & Hc & _).
      unfold skillLevelCondition in Hc.
      destruct (find (skillNamed skillName) (skills st)) as [skill|] eqn:Ef;
        [|discriminate Hc].
      apply find_some in Ef. destruct Ef as [Hin Hname].
      exists st, skill. repeat split; try assumption.
      * apply String.eqb_eq. exact Hname.
      * apply Z.leb_le. exact Hc.
    + exact I.
    + eapply waitForCondition_finishes. rewrite E. reflexivity.
  - intros timeout o.
    unfold waitForDialogClose, bind, ret.
    destruct (waitForCondition _ timeout w s) as [o1 s1] eqn:E.
    pose proof (waitForCondition_sent _ _ _ _ _ _ E) as Hsent.
    destruct o1 as [st|e|]; intros H; inversion H; subst; clear H;
      (split; [exact Hsent|]).
    + apply waitForCondition_returned in E. destruct E as (Hst & Hc & _).
      exists st. split; [exact Hst|].
      unfold dialogClosedCondition in Hc. apply negb_true_iff. exact Hc.
    + exact I.
    + eapply waitForCondition_finishes. rewrite E. reflexivity.
Qed.

Lemma condition_helpers_return_a_match_witness :
  let w := Scenes.lighting in
  waitForSkillLevel "firemaking" 1 60000 w Sample.start
  = (Returned (Some (Scenes.firemaking 0)), Sample.start)
  /\ exists st skill,
       Some (Scenes.firemaking 0) = Some skill
       /\ snapshotAt w 0 = Some st
       /\ In skill (skills st)
       /\ toLowerCase (Skill.name skill) = toLowerCase "firemaking"
       /\ 1 <= Skill.baseLevel skill.
Proof.
  intros w.
  assert (E : waitForSkillLevel "firemaking" 1 60000 w Sample.start
              = (Returned (Some (Scenes.firemaking 0)), Sample.start))
    by (vm_compute; reflexivity).
  split; [exact E|].
  exact (proj2 (proj1 (condition_helpers_return_a_match w Sample.start _)
                  "firemaking"%string 1 60000 _ E)).
Defined.

(** ** A pattern that remembers where it matched *)

Lemma pollUntilSt_spec {A} (polls : nat)
  (predicate : A -> BotWorldState -> bool * A) (w : World) :
  forall a s o s',
    pollUntilSt polls predicate a w s = (o, s') ->
    sent s' = sent s /\
    match o with
    | Returned (st, a') =>
        snapshotAt w (clock s') = Some st
        /\ exists a0, predicate a0 st = (true, a')
    | Thrown e => e = ConditionTimeout
    | Unfinished => False
    end.
Proof.
  induction polls as [|n IH]; intros a s o s' H; simpl in H.
  - destruct (snapshotAt w (clock s)) as [st|] eqn:E.
    + destruct (predicate a st) as [holds a'] eqn:Ep.
      destruct holds; inversion H; subst; eauto.
    + inversion H; subst; auto.
  - destruct (snapshotAt w (clock s)) as [st|] eqn:E.
    + destruct (predicate a st) as [holds a'] eqn:Ep.
      destruct holds.
      * inversion H; subst; eauto.
      * apply IH in H. exact H.
    + apply IH in H. exact H.
Qed.

(** Without the flags the two passes over the inventory are the pure
    [some] and [find], and [lastIndex] stays where it was. *)
Lemma someTest_unflagged (regex : RegExpObject) (items : list InventoryItem.t) :
  flagged regex = false ->
  forall index,
    someTest regex index items
    = (existsb (fun i => match search regex 0 (InventoryItem.name i) with
                         | Some _ => true
                         | None => false
                         end) items, index).
Proof.
  intros Hf. induction items as [|i rest IH]; intros index; simpl.
  - reflexivity.
  - unfold testAt. rewrite Hf.
    destruct (search regex 0 (InventoryItem.name i)); simpl.
    + reflexivity.
    + apply IH.
Qed.

Lemma findTest_unflagged (regex : RegExpObject) (items : list InventoryItem.t) :
  flagged regex = false ->
  forall index,
    findTest regex index items
    = (find (fun i => match search regex 0 (InventoryItem.name i) with
                      | Some _ => true
                      | None => false
                      end) items, index).
Proof.
  intros Hf. induction items as [|i rest IH]; intros index; simpl.
  - reflexivity.
  - unfold testAt. rewrite Hf.
    destruct (search regex 0 (InventoryItem.name i)); simpl.
    + reflexivity.
    + apply IH.
Qed.

(** The wait of [waitForInventoryItem] with an object that has neither
    flag. *)
Lemma waitForInventoryItem_unflagged (regex : RegExpObject) (timeout : Z)
  (w : World) (s s' : Session) (o : Outcome (option InventoryItem.t)) :
  flagged regex = false ->
  (found <- waitForConditionSt
              (fun index st => someTest regex index (inventory st))
              (lastIndex regex) timeout ;;
   ret (fst (findTest regex (snd found) (inventory (fst found))))) w s = (o, s') ->
  sent s' = sent s
  /\ match o with
     | Returned found =>
         exists st item,
           found = Some item
           /\ snapshotAt w (clock s') = Some st
           /\ In item (inventory st)
           /\ search regex 0 (InventoryItem.name item) <> None
     | Thrown e => e = ConditionTimeout /\ s' = advance (Z.max 0 timeout) s
     | Unfinished => False
     end.
Proof.
  intros Hf. unfold bind, ret, waitForConditionSt.
  destruct (pollUntilSt _ _ (lastIndex regex) w s) as [o1 s1] eqn:E.
  apply pollUntilSt_spec in E. destruct E as [Hsent Ho].
  destruct o1 as [[st index]|e|]; intros H; inversion H; subst; clear H.
  - split; [exact Hsent|]. destruct Ho as (Hst & a0 & Hp).
    rewrite (someTest_unflagged _ _ Hf) in Hp. inversion Hp as [[Hany Hindex]].
    apply existsb_exists in Hany. destruct Hany as (i & Hi & Hti).
    cbn [fst snd]. rewrite (findTest_unflagged _ _ Hf). cbn [fst].
    destruct (find _ (inventory st)) as [item|] eqn:Ef.
    + apply find_some in Ef. destruct Ef as [Hin Ht].
      exists st, item. repeat split; try assumption.
      destruct (search regex 0 (InventoryItem.name item)); [discriminate|discriminate Ht].
    + exfalso. pose proof (find_none _ _ Ef i Hi) as Hn. cbv beta in Hn.
      rewrite Hti in Hn. discriminate Hn.
  - split; [reflexivity|]. split; reflexivity.
  - destruct Ho.
Qed.

(** X28: with a string pattern, or a regular expression that has neither
    the [g] nor the [y] flag, [waitForInventoryItem] sends nothing and,
    when it returns, returns an inventory entry of the snapshot current at
    its return whose name the pattern matches, never [undefined].  It
    throws only the timeout of its wait, [timeout] milliseconds after the
    call, or at once the SyntaxError of a string that is no regular
    expression. *)
Theorem waitForInventoryItem_returns_a_match (w : World) (s s' : Session)
  (pattern : PatternArg) (timeout : Z) (o : Outcome (option InventoryItem.t)) :
  stateless pattern ->
  waitForInventoryItem pattern timeout w s = (o, s') ->
  sent s' = sent s
  /\ match o with
     | Returned found =>
         exists st item,
           found = Some item
           /\ snapshotAt w (clock s') = Some st
           /\ In item (inventory st)
           /\ matchedBy w pattern (InventoryItem.name item)
     | Thrown ConditionTimeout => s' = advance (Z.max 0 timeout) s
     | Thrown SyntaxError =>
         s' = s /\ exists source, pattern = OfSource source
                                  /\ newRegExp w source = None
     | Unfinished => False
     end.
Proof.
  intros Hp. unfold waitForInventoryItem.
  destruct pattern as [source|regex]; cbn [patternRegex stateless matchedBy] in *.
  - unfold bind at 1 2. unfold regExpOf, ret at 1.
    destruct (newRegExp w source) as [regex|] eqn:En.
    + intros H.
      apply (waitForInventoryItem_unflagged (unflagged regex)) in H; [|reflexivity].
      destruct H as [Hsent Ho]. split; [exact Hsent|].
      destruct o as [found|e|]; [| |exact Ho].
      * destruct Ho as (st & item & Hf & Hst & Hin & Hm).
        exists st, item. repeat split; try assumption.
        exists regex. split; [reflexivity|].
        cbn [unflagged search] in Hm.
        destruct (test regex (InventoryItem.name item)); [reflexivity|].
        exfalso. apply Hm. reflexivity.
      * destruct Ho as [He Hs]. subst e. exact Hs.
    + intros H. inversion H; subst. split; [reflexivity|].
      split; [reflexivity|]. exists source. split; [reflexivity|exact En].
  - unfold bind at 1. unfold ret at 1. intros H.
    apply (waitForInventoryItem_unflagged regex) in H; [|exact Hp].
    destruct H as [Hsent Ho]. split; [exact Hsent|].
    destruct o as [found|e|]; [exact Ho| |exact Ho].
    destruct Ho as [He Hs]. subst e. exact Hs.
Qed.

Lemma waitForInventoryItem_returns_a_match_witness :
  let w := Scenes.receiving [] [Scenes.carried 0 526 "Bones" 1 []] in
  stateless (OfSource "bones")
  /\ waitForInventoryItem (OfSource "bones") 30000 w Sample.start
     = (Returned (Some (Scenes.carried 0 526 "Bones" 1 [])),
        {| clock := 600; sent := [] |})
  /\ exists st item,
       Some (Scenes.carried 0 526 "Bones" 1 []) = Some item
       /\ snapshotAt w 600 = Some st
       /\ In item (inventory st)
       /\ matchedBy w (OfSource "bones") (InventoryItem.name item).
Proof.
  intros w.
  assert (E : waitForInventoryItem (OfSource "bones") 30000 w Sample.start
              = (Returned (Some (Scenes.carried 0 526 "Bones" 1 [])),
                 {| clock := 600; sent := [] |}))
    by (vm_compute; reflexivity).
  split; [exact I|]. split; [exact E|].
  exact (proj2 (waitForInventoryItem_returns_a_match
                  w Sample.start _ (OfSource "bones") 30000 _ I E)).
Defined.

(** With the [g] flag the wait's own [test] leaves [lastIndex] behind the
    match, the final [find] starts there and finds nothing: for [/bones/gi]
    and the one item Bones the result is [undefined]. *)
Example waitForInventoryItem_global_flag_undefined :
  waitForInventoryItem (OfRegExp Scenes.bonesGlobal) 30000
    (Scenes.receiving [] [Scenes.carried 0 526 "Bones" 1 []]) Sample.start
  = (Returned None, {| clock := 600; sent := [] |}).
Proof. vm_compute. reflexivity. Qed.

(** ** Results that agree with themselves *)

(** X19: [burnLogs] reports success exactly when it reports experience
    gained.  In every result it returns, [success] is true if and only if
    [xpGained] is positive: a run that ends on a failure message, on a
    rejected command or on the timeout carries no experience, and a wait
    that ends without a Firemaking gain is a failure. *)
Theorem burnLogs_success_iff_xp (w : World) (s s' : Session)
  (logsTarget : option (Target InventoryItem.t)) (r : BurnLogsResult) :
  burnLogs logsTarget w s = (Returned r, s') ->
  success (base r) = (burn_xpGained r >? 0).
Proof.
  unfold burnLogs, burnLogsAwait, skillExperience, getSkill, resolveInventoryItem,
    findInventoryItem, getInventory, tryCatch, bind, getState, send, ret.
  crunch; intros H; inversion H; subst; clear H; cbn in *;
    first [reflexivity | congruence].
Qed.

Lemma burnLogs_success_iff_xp_witness :
  exists r s',
    burnLogs None Scenes.lighting Sample.start = (Returned r, s')
    /\ success (base r) = (burn_xpGained r >? 0).
Proof.
  assert (E : burnLogs None Scenes.lighting Sample.start
              = (Returned {| burn_base := succeeded "Burned logs"; burn_xpGained := 40 |},
                 {| clock := 600; sent := [UseItemOnItem 0 1] |}))
    by (vm_compute; reflexivity).
  eexists. eexists. split; [exact E|].
  exact (burnLogs_success_iff_xp _ _ _ _ _ E).
Defined.

(** ** withdrawItem *)

(** With distinct slots, an inventory that satisfies the wait of
    [withdrawItem] has an entry that is new or has grown. *)
Lemma withdrawCondition_finds (before : list InventoryItem.t) (st : BotWorldState) :
  NoDup (map InventoryItem.slot (inventory st)) ->
  withdrawCondition before st = true ->
  exists item,
    find (fun i => match grewSince before i with Some b => b | None => true end)
         (inventory st)
    = Some item.
Proof.
  intros Hnd Hc. unfold withdrawCondition in Hc.
  remember (inventory st) as now eqn:Hnow. clear Hnow.
  destruct (find (fun i => match grewSince before i with Some b => b | None => true end) now)
    as [item|] eqn:Ef; [exists item; reflexivity|].
  exfalso.
  assert (Hall : forall i, In i now -> grewSince before i = Some false).
  { intros i Hi. pose proof (find_none _ _ Ef i Hi) as Hn. cbv beta in Hn.
    destruct (grewSince before i) as [[|]|]; try discriminate Hn. reflexivity. }
  apply orb_true_iff in Hc. destruct Hc as [Hlen|Hgrew].
  - apply Nat.ltb_lt in Hlen.
    assert (Hincl : incl (map InventoryItem.slot now) (map InventoryItem.slot before)).
    { intros sl Hsl. apply in_map_iff in Hsl. destruct Hsl as (i & Hsl & Hi).
      specialize (Hall i Hi). unfold grewSince in Hall.
      destruct (find (fun bi => InventoryItem.slot bi =? InventoryItem.slot i) before)
        as [b|] eqn:Eb; [|discriminate Hall].
      apply find_some in Eb. destruct Eb as [Hb Heq]. apply Z.eqb_eq in Heq.
      apply in_map_iff. exists b. split; [congruence|exact Hb]. }
    pose proof (NoDup_incl_length Hnd Hincl) as Hle.
    rewrite !length_map in Hle. lia.
  - apply existsb_exists in Hgrew. destruct Hgrew as (i & Hi & Hg).
    rewrite (Hall i Hi) in Hg. discriminate Hg.
Qed.

(** X20: a withdrawal reported as a success names the item, as long as
    inventory slots are distinct.  When [withdrawItem] returns
    [success:true] and no two entries of the inventory at its return share
    a slot, its [item] is defined: it is an entry of that inventory which
    either sits in a slot that was empty at the call or counts more than
    the entry which had that slot. *)
Theorem withdrawItem_success_item (w : World) (s s' : Session)
  (bankSlot amount : Z) (r : BankWithdrawResult) :
  withdrawItem bankSlot amount w s = (Returned r, s') ->
  success (base r) = true ->
  (forall st, snapshotAt w (clock s') = Some st ->
              NoDup (map InventoryItem.slot (inventory st))) ->
  exists before st item,
    snapshotAt w (clock s) = Some before
    /\ snapshotAt w (clock s') = Some st
    /\ withdraw_item r = Some item
    /\ In item (inventory st)
    /\ match find (fun bi => InventoryItem.slot bi =? InventoryItem.slot item)
                  (inventory before) with
       | Some had => (InventoryItem.count had < InventoryItem.count item)%N
       | None => True
       end.
Proof.
  unfold withdrawItem, withdrawItemAwait, getInventory, tryCatch, bind, getState, send, ret.
  crunch; intros H Hs Hslots; inversion H; subst; clear H; try discriminate Hs;
    match goal with
    | E : waitForCondition _ _ _ _ = (Returned ?st, _) |- _ =>
        apply waitForCondition_returned in E; destruct E as (Hnow & Hc & _)
    end;
    match goal with
    | E1 : snapshotAt w ?t = Some _, E2 : snapshotAt w ?t = _ |- _ =>
        rewrite E1 in E2; first [discriminate E2 | inversion E2; subst; clear E2]
    end;
    match goal with
    | Hst : snapshotAt w (clock s') = Some _ |- _ =>
        destruct (withdrawCondition_finds _ _ (Hslots _ Hst) Hc) as (item & Ef);
        do 3 eexists; cbn [withdraw_item];
        (split; [reflexivity|]); (split; [exact Hst|]); (split; [exact Ef|])
    end;
    apply find_some in Ef; destruct Ef as [Hin Hg]; (split; [exact Hin|]);
    unfold grewSince in Hg;
    match type of Hg with
    | context [find ?f ?l] => destruct (find f l); [apply N.ltb_lt in Hg; exact Hg|exact I]
    end.
Qed.

Lemma withdrawItem_success_item_witness :
  let w := Sample.scripted 600 (Sample.atBank true [Sample.cowhides 0 3])
             [Sample.atBank true [Sample.cowhides 0 5]] in
  exists r s',
    withdrawItem 4 2 w Sample.start = (Returned r, s')
    /\ success (base r) = true
    /\ (forall st, snapshotAt w (clock s') = Some st ->
                   NoDup (map InventoryItem.slot (inventory st)))
    /\ exists before st item,
         snapshotAt w (clock Sample.start) = Some before
         /\ snapshotAt w (clock s') = Some st
         /\ withdraw_item r = Some item
         /\ In item (inventory st)
         /\ match find (fun bi => InventoryItem.slot bi =? InventoryItem.slot item)
                       (inventory before) with
            | Some had => (InventoryItem.count had < InventoryItem.count item)%N
            | None => True
            end.
Proof.
  intros w.
  assert (E : withdrawItem 4 2 w Sample.start
              = (Returned {| withdraw_base := succeeded "Withdrew item from bank slot 4";
                             withdraw_item := Some (Sample.cowhides 0 5) |},
                 {| clock := 600; sent := [BankWithdraw 4 2] |}))
    by (vm_compute; reflexivity).
  assert (Hslots : forall st, snapshotAt w 600 = Some st ->
                              NoDup (map InventoryItem.slot (inventory st))).
  { intros st Hst. inversion Hst. subst st. cbn.
    constructor; [intros []|constructor]. }
  eexists. eexists. split; [exact E|]. split; [reflexivity|]. split; [exact Hslots|].
  exact (withdrawItem_success_item _ _ _ _ _ _ E eq_refl Hslots).
Defined.

(** ** Dialog housekeeping *)

Lemma repeat_clicks (n : nat) (i : Z) : Forall dialogClick (repeat (ClickDialog i) n).
Proof. induction n; simpl; constructor; [exact I|assumption]. Qed.

Lemma dismissBlockingUI_clicks (w : World) (s s' : Session) (o : Outcome unit) :
  dismissBlockingUI w s = (o, s') ->
  exists clicks, sent s' = clicks ++ sent s /\ Forall dialogClick clicks.
Proof.
  intros H. apply dismissLoop_clicks in H. destruct H as (n & _ & Hs & _).
  exists (repeat (ClickDialog 0) n). split; [exact Hs|apply repeat_clicks].
Qed.

Lemma record_all (fired : list Command) :
  forall s, sent (fold_left (fun acc c => record c acc) fired s) = rev fired ++ sent s.
Proof.
  induction fired as [|c fired IH]; intros s; simpl.
  - reflexivity.
  - rewrite IH. cbn [sent record]. rewrite <- app_assoc. reflexivity.
Qed.

(** A wait whose predicate fires only commands in [P] leaves only such
    commands behind. *)
Lemma pollUntilFx_fired {A} (predicate : A -> BotWorldState -> bool * A * list Command)
  (P : Command -> Prop) (w : World) :
  (forall a st, Forall P (snd (predicate a st))) ->
  forall polls a s o s',
    pollUntilFx polls predicate a w s = (o, s') ->
    exists new, sent s' = new ++ sent s /\ Forall P new.
Proof.
  intros HP. induction polls as [|polls IH]; intros a s o s'; simpl;
    destruct (snapshotAt w (clock s)) as [st|];
    try (specialize (HP a st); destruct (predicate a st) as [[holds a'] fired];
         cbn [snd] in HP; destruct holds);
    intros H;
    try (inversion H; subst; clear H;
         first [ exists []; split; [reflexivity|constructor]
               | exists (rev fired); split;
                 [apply record_all|apply Forall_rev; exact HP] ]).
  - apply IH in H. destruct H as (new & Hs & Hnew).
    exists (new ++ rev fired). split.
    + rewrite Hs. rewrite sent_advance, record_all, app_assoc. reflexivity.
    + apply Forall_app. split; [exact Hnew|apply Forall_rev; exact HP].
  - apply IH in H. destruct H as (new & Hs & Hnew).
    exists new. split; [rewrite Hs, sent_advance; reflexivity|exact Hnew].
Qed.

Lemma waitForConditionFx_fired {A}
  (predicate : A -> BotWorldState -> bool * A * list Command)
  (P : Command -> Prop) (a : A) (timeout : Z) (w : World) (s s' : Session)
  (o : Outcome BotWorldState) :
  (forall a st, Forall P (snd (predicate a st))) ->
  waitForConditionFx predicate a timeout w s = (o, s') ->
  exists new, sent s' = new ++ sent s /\ Forall P new.
Proof.
  intros HP. unfold waitForConditionFx.
  destruct (pollUntilFx _ predicate a w s) as [o1 s1] eqn:E.
  apply (pollUntilFx_fired _ P w HP) in E.
  destruct o1; intros H; inversion H; subst; exact E.
Qed.

Lemma burnCondition_clicks (fmBefore startTick last : Z) (st : BotWorldState) :
  Forall dialogClick (snd (burnCondition fmBefore startTick last st)).
Proof.
  unfold burnCondition.
  destruct (experienceOf "Firemaking" (skills st) >? fmBefore); cbn [snd];
    [constructor|].
  destruct (Dialog.isOpen (dialog st) && (tick st - last >=? 3));
    [constructor; [exact I|constructor]|constructor].
Qed.

Lemma openBankLoop_clicks (w : World) (startTime timeout : Z) :
  forall fuel s o s',
    openBankLoop fuel startTime timeout w s = (o, s') ->
    exists clicks, sent s' = clicks ++ sent s /\ Forall dialogClick clicks.
Proof.
  induction fuel as [|fuel IH]; intros s o s'; simpl;
    unfold bind, now, tryCatch, getState, send, sleep, ret;
    crunch; intros H;
    frames;
    try (apply IH in H; destruct H as (clicks & Hs & Hc));
    try (inversion H; subst; clear H);
    cbn [sent advance record] in *;
    first
      [ exists []; split; [cbn [app]; congruence|constructor]
      | exists clicks; split; [congruence|exact Hc]
      | eexists (clicks ++ [_]); split;
        [ rewrite <- app_assoc; cbn [app]; rewrite Hs;
          repeat match goal with E : sent _ = sent _ |- _ => rewrite E end;
          reflexivity
        | apply Forall_app; split; [exact Hc|constructor; [exact I|constructor]] ] ].
Qed.

Ltac chase :=
  repeat match goal with
         | E : sent _ = _ |- _ => rewrite E; clear E
         end;
  cbn [sent advance record];
  rewrite ?app_assoc; reflexivity.

Ltac amid_clicks before after :=
  cbn [sent advance record] in *;
  first
    [ exists before, [], after; cbn [app];
      split; [solve [chase]|];
      split; [assumption|]; split; [first [assumption|constructor]|left; reflexivity]
    | exists before; eexists [_]; exists after; cbn [app];
      split; [solve [chase]|];
      split; [assumption|]; split; [first [assumption|constructor]|];
      right; eexists; split; [|reflexivity];
      first [solve [repeat eexists] | left; solve [repeat eexists]
            | right; solve [repeat eexists]] ].

(** X21: [chopTree], [burnLogs] and [openBank] interact once and
    otherwise only click through dialogs.  The commands each sends are
    dialog clicks, then at most one interaction (the tree's first option,
    the tinderbox used on the logs, the banker or the booth), then dialog
    clicks again; they never walk. *)
Theorem housekeeping_sends_only_clicks :
  (forall target,
      sendsOneAmidClicks (fun c => exists x z id, c = InteractLoc x z id 1)
                         (chopTree target))
  /\ (forall logsTarget,
        sendsOneAmidClicks (fun c => exists tinderboxSlot logsSlot,
                                       c = UseItemOnItem tinderboxSlot logsSlot)
                           (burnLogs logsTarget))
  /\ (forall timeout,
        sendsOneAmidClicks (fun c => (exists index op, c = InteractNpc index op)
                                     \/ (exists x z id op, c = InteractLoc x z id op))
                           (openBank timeout)).
Proof.
  repeat match goal with |- _ /\ _ => split end; intros arg w s o s'.
  - unfold chopTree. unfold bind at 1.
    destruct (dismissBlockingUI w s) as [o1 s1] eqn:Ed.
    apply dismissBlockingUI_clicks in Ed. destruct Ed as (clicks & Hd & Hclicks).
    unfold chopTreeAwait, resolveLocation, findNearbyLoc, findInventoryItem,
      getNearbyLocs, getInventory, tryCatch, bind, getState, send, ret.
    crunch; intros H; inversion H; subst; clear H; frames;
      amid_clicks clicks (@nil Command).
  - unfold burnLogs. unfold bind at 1.
    destruct (dismissBlockingUI w s) as [o1 s1] eqn:Ed.
    apply dismissBlockingUI_clicks in Ed. destruct Ed as (clicks & Hd & Hclicks).
    unfold burnLogsAwait, skillExperience, getSkill, resolveInventoryItem,
      findInventoryItem, getInventory, tryCatch, bind, getState, send, ret.
    crunch; intros H; inversion H; subst; clear H;
      first
        [ match goal with
          | E : waitForConditionFx _ _ _ _ _ = (_, _) |- _ =>
              apply (waitForConditionFx_fired _ dialogClick) in E;
              [ destruct E as (after & Hafter & Hac); amid_clicks clicks after
              | intros last st; apply burnCondition_clicks ]
          end
        | amid_clicks clicks (@nil Command) ].
  - unfold openBank. unfold bind at 1. unfold getState at 1. cbv beta iota.
    destruct (interfaceIsOpen (snapshotAt w (clock s)));
      [unfold ret; intros H; inversion H; subst;
       exists [], [], []; repeat split; try constructor; reflexivity|].
    unfold bind at 1.
    destruct (dismissBlockingUI w s) as [o1 s1] eqn:Ed.
    apply dismissBlockingUI_clicks in Ed. destruct Ed as (clicks & Hd & Hclicks).
    unfold findNearbyNpc, findNearbyLoc, getNearbyLocs, bind, getState, send, now, ret.
    crunch; intros H;
      first
        [ apply openBankLoop_clicks in H; destruct H as (after & Hafter & Hac);
          amid_clicks clicks after
        | inversion H; subst; clear H; amid_clicks clicks (@nil Command) ].
Qed.

(** ** The waypoint strides of walkTo *)

Lemma stridesFrom_spec (length : nat) :
  forall fuel wpIndex i,
    (length <= wpIndex + WAYPOINT_STEP * fuel)%nat ->
    In i (stridesFrom fuel wpIndex length)
    <-> (i < length)%nat /\ exists k, i = (wpIndex + WAYPOINT_STEP * k)%nat.
Proof.
  induction fuel as [|fuel IH]; intros wpIndex i Hfuel; cbn [stridesFrom];
    unfold WAYPOINT_STEP in *.
  - split; [contradiction|]. intros (Hlt & k & Hk). lia.
  - destruct (wpIndex <? length)%nat eqn:E.
    + apply Nat.ltb_lt in E. cbn [In]. rewrite IH by lia. split.
      * intros [Heq|(Hlt & k & Hk)].
        -- subst i. split; [exact E|]. exists 0%nat. lia.
        -- split; [exact Hlt|]. exists (S k). lia.
      * intros (Hlt & k & Hk). destruct k as [|k].
        -- left. lia.
        -- right. split; [exact Hlt|]. exists k. lia.
    + apply Nat.ltb_ge in E. split; [contradiction|].
      intros (Hlt & k & Hk). lia.
Qed.

(** X22: the stride loop of [walkTo] visits exactly the waypoints it
    should and never an index out of range.  Over a non-empty path (the
    loop is reached with no other) of [length] waypoints it visits the
    indices [min(4, length - 1) + 5k] below [length], all of them and no
    others, so every waypoint it looks up exists and its
    [if (!wp) continue] never fires. *)
Theorem strideIndices_in_range (wps : list Waypoint) (i : nat) :
  wps <> [] ->
  (In i (strideIndices (List.length wps))
   <-> (i < List.length wps)%nat
       /\ exists k, i = (Nat.min 4 (List.length wps - 1) + 5 * k)%nat)
  /\ (In i (strideIndices (List.length wps)) -> nth_error wps i <> None).
Proof.
  intros _.
  assert (H : In i (strideIndices (List.length wps))
              <-> (i < List.length wps)%nat
                  /\ exists k, i = (Nat.min 4 (List.length wps - 1) + 5 * k)%nat).
  { unfold strideIndices. apply stridesFrom_spec. unfold WAYPOINT_STEP. lia. }
  split; [exact H|].
  intros Hin. apply H in Hin. destruct Hin as [Hlt _].
  apply nth_error_Some. exact Hlt.
Qed.

Lemma strideIndices_in_range_witness :
  let wps := map (fun k => {| wpX := k; wpZ := 0 |}) [1; 2; 3; 4; 5; 6; 7; 8; 9; 10; 11; 12] in
  wps <> []
  /\ In 9%nat (strideIndices (List.length wps))
  /\ nth_error wps 9 <> None.
Proof.
  intros wps.
  assert (Hne : wps <> []) by discriminate.
  destruct (strideIndices_in_range wps 9 Hne) as [Hiff Hnth].
  assert (Hin : In 9%nat (strideIndices (List.length wps))).
  { apply Hiff. split; [cbn; lia|]. exists 1%nat. reflexivity. }
  split; [exact Hne|]. split; [exact Hin|exact (Hnth Hin)].
Defined.

(** ** Further successes *)

Lemma hitpoints_reads (w : World) (s : Session) :
  hitpoints w s
  = (Returned match snapshotAt w (clock s) with
              | Some st => hitpointsOf (skills st)
              | None => 10
              end, s).
Proof.
  unfold hitpoints, getSkill, hitpointsOf, bind, getState, ret.
  destruct (snapshotAt w (clock s)) as [st|]; [|reflexivity].
  destruct (find _ (skills st)); reflexivity.
Qed.

Lemma resolveInventoryItem_reads (target : option (Target InventoryItem.t))
  (defaultPattern : RegExp) (w : World) (s : Session) :
  exists found, resolveInventoryItem target defaultPattern w s = (Returned found, s).
Proof.
  unfold resolveInventoryItem, findInventoryItem, getInventory, bind, getState, ret.
  destruct target as [[item|r]|]; eexists; reflexivity.
Qed.

(** X23: a success of [talkTo], [equipItem] or [eatFood] was observed.
    In the snapshot current when the call returns with [success:true]:
    for [talkTo] a dialog is open, and it is the dialog returned; for
    [equipItem] the inventory no longer holds an entry with the item's
    slot and id; for [eatFood] the Hitpoints level is above the level at
    the call or fewer entries with the food's id are held, and [hpGained]
    is the difference of the two levels (10 standing for a missing
    Hitpoints skill). *)
Theorem success_was_observed (w : World) (s s' : Session) :
  (forall target r,
      talkTo target w s = (Returned r, s') -> success (base r) = true ->
      exists st,
        snapshotAt w (clock s') = Some st
        /\ Dialog.isOpen (dialog st) = true
        /\ talk_dialog r = Some (dialog st))
  /\ (forall target r,
        equipItem target w s = (Returned r, s') -> success (base r) = true ->
        exists item st,
          resolveInventoryItem (Some target) anyChar w s = (Returned (Some item), s)
          /\ snapshotAt w (clock s') = Some st
          /\ forall i, In i (inventory st) ->
                       InventoryItem.slot i = InventoryItem.slot item ->
                       InventoryItem.id i <> InventoryItem.id item)
  /\ (forall target r,
        eatFood target w s = (Returned r, s') -> success (base r) = true ->
        exists food st,
          resolveInventoryItem (Some target) anyChar w s = (Returned (Some food), s)
          /\ snapshotAt w (clock s') = Some st
          /\ let hpBefore := match snapshotAt w (clock s) with
                             | Some before => hitpointsOf (skills before)
                             | None => 10
                             end in
             let held state := match state with
                               | Some st => foodCount (InventoryItem.id food) (inventory st)
                               | None => 0%nat
                               end in
             hpGained r = hitpointsOf (skills st) - hpBefore
             /\ (0 < hpGained r
                 \/ (held (Some st) < held (snapshotAt w (clock s)))%nat)).
Proof.
  repeat match goal with |- _ /\ _ => split end; intros target r.
  - unfold talkTo, talkToAwait, resolveNpc, findNearbyNpc,
      tryCatch, bind, getState, send, ret.
    crunch; intros H Hs; inversion H; subst; clear H; try discriminate Hs;
      witnessed; (split; [exact Hc|reflexivity]).
  - unfold equipItem, equipItemAwait, resolveInventoryItem, findInventoryItem,
      getInventory, tryCatch, bind, getState, send, ret.
    crunch; intros H Hs; inversion H; subst; clear H; try discriminate Hs;
      observed; do 2 eexists; (split; [reflexivity|]); (split; [eassumption|]);
      intros i Hi Hslot Hid;
      match goal with
      | Hc : equipCondition _ _ = true |- _ =>
          unfold equipCondition in Hc;
          match type of Hc with
          | match find ?f ?l with _ => _ end = true =>
              destruct (find f l) eqn:Ef; [discriminate Hc|];
              pose proof (find_none _ _ Ef i Hi) as Hn; cbv beta in Hn;
              rewrite Hslot, Hid, !Z.eqb_refl in Hn; discriminate Hn
          end
      end.
  - unfold eatFood. unfold bind at 1.
    destruct (resolveInventoryItem_reads (Some target) anyChar w s) as (found & Er).
    rewrite Er. cbv beta iota.
    destruct found as [food|];
      [|unfold ret; intros H Hs; inversion H; subst; discriminate Hs].
    destruct (find _ (InventoryItem.optionsWithIndex food)) as [eatOpt|];
      [|unfold ret; intros H Hs; inversion H; subst; discriminate Hs].
    unfold bind at 1. rewrite hitpoints_reads. cbv beta iota.
    unfold bind at 1. unfold getInventory at 1. unfold bind at 1.
    unfold getState at 1. unfold ret at 1. cbv beta iota zeta.
    unfold bind at 1. unfold send at 1. cbv beta iota.
    destruct (negb (success _));
      [unfold ret; intros H Hs; inversion H; subst; discriminate Hs|].
    unfold eatFoodAwait, tryCatch. unfold bind at 1.
    destruct (waitForCondition _ 5000 w _) as [o1 s1] eqn:Ew.
    destruct o1 as [st|e|];
      [|unfold ret; intros H Hs; inversion H; subst; discriminate Hs
       |intros H; discriminate H].
    apply waitForCondition_returned in Ew. destruct Ew as (Hst & Hc & _).
    unfold bind at 1. rewrite hitpoints_reads. rewrite Hst. unfold ret.
    intros H _. inversion H. subst. clear H.
    exists food, st. split; [reflexivity|]. split; [exact Hst|].
    cbv zeta. cbn [hpGained]. split; [reflexivity|].
    unfold eatCondition in Hc. apply orb_true_iff in Hc.
    destruct Hc as [Hhp|Hfood].
    + left. apply Z.gtb_lt in Hhp.
      destruct (snapshotAt w (clock s)); lia.
    + right. apply Nat.ltb_lt in Hfood.
      destruct (snapshotAt w (clock s)); exact Hfood.
Qed.

Lemma success_was_observed_witness :
  let w := Sample.scripted 600 (Sample.scene 10 [] [])
             [Scenes.chatting true Scenes.yesNo] in
  exists r s',
    talkTo (Handle Sample.goblin) w Sample.start = (Returned r, s')
    /\ success (base r) = true
    /\ exists st,
         snapshotAt w (clock s') = Some st
         /\ Dialog.isOpen (dialog st) = true
         /\ talk_dialog r = Some (dialog st).
Proof.
  intros w.
  assert (E : talkTo (Handle Sample.goblin) w Sample.start
              = (Returned {| talk_base := succeeded "Talking to Goblin";
                             talk_dialog :=
                               Some {| Dialog.isOpen := true;
                                       Dialog.options := Scenes.yesNo |} |},
                 {| clock := 600; sent := [TalkToNpc 7] |}))
    by (vm_compute; reflexivity).
  eexists. eexists. split; [exact E|]. split; [reflexivity|].
  exact (proj1 (success_was_observed w _ _) _ _ E eq_refl).
Defined.

(** ** Bounds on what a sale reports *)

Lemma sellAllLoop_bound (w : World) (sellItem : ShopItem.t) (startTick : Z) :
  forall fuel totalSold s r s' k,
    sellAllLoop fuel sellItem startTick totalSold w s = (Returned r, s') ->
    amountSold r = Some k ->
    totalSold <= k <= totalSold + Z.of_N (held w (ShopItem.id sellItem) s).
Proof.
  induction fuel as [|fuel IH]; intros totalSold s r s' k; simpl.
  - discriminate.
  - unfold bind at 1.
    destruct (sellBatch_spec w sellItem startTick totalSold s) as (b & s1 & E & _ & Hb).
    rewrite E. cbv beta iota.
    destruct b as [result|t1|t1].
    + unfold ret. intros H Hk. inversion H. subst. destruct Hb as (_ & Ha & _).
      rewrite Ha in Hk. inversion Hk. lia.
    + unfold ret, sellAllSummary. subst t1.
      destruct (totalSold =? 0); intros H Hk; inversion H; subst;
        [discriminate Hk|]. cbn in Hk. inversion Hk. lia.
    + destruct Hb as [Hless Ht1]. intros H Hk.
      pose proof (IH _ _ _ _ _ H Hk) as Hb. lia.
Qed.

(** X25: [sellToShop(item, 'all')] never reports more than was held.
    Whenever its result carries an [amountSold], that amount lies between
    zero and the units of the item (over all its stacks) that the shop
    interface showed in the player's inventory at the call. *)
Theorem sellAll_reports_at_most_held (w : World) (s s' : Session)
  (target : ShopTarget) (r : ShopSellResult) (k : Z) :
  sellToShop target All w s = (Returned r, s') ->
  amountSold r = Some k ->
  exists st sellItem,
    snapshotAt w (clock s) = Some st
    /\ resolveShopItem target (Shop.playerItems (shop st)) = Some sellItem
    /\ 0 <= k <= Z.of_N (getTotalCount (ShopItem.id sellItem)
                                       (Shop.playerItems (shop st))).
Proof.
  unfold sellToShop. unfold bind at 1. unfold getState at 1. cbv beta iota.
  destruct (snapshotAt w (clock s)) as [st|] eqn:Hst;
    [|intros H Hk; inversion H; subst; discriminate Hk].
  destruct (Shop.isOpen (shop st));
    [|intros H Hk; inversion H; subst; discriminate Hk].
  destruct (resolveShopItem target (Shop.playerItems (shop st))) as [sellItem|] eqn:Hres;
    [|intros H Hk; inversion H; subst; discriminate Hk].
  unfold bind at 1. unfold getState at 1. cbv beta iota zeta.
  unfold sellAllToShop, bind, getState. cbv beta iota.
  intros H Hk. pose proof (sellAllLoop_bound _ _ _ _ _ _ _ _ _ H Hk) as Hb.
  exists st, sellItem. split; [reflexivity|]. split; [exact Hres|].
  unfold held, unitsHeld in Hb. rewrite Hst in Hb. lia.
Qed.

Lemma sellAll_reports_at_most_held_witness :
  exists r s' k,
    sellToShop (ShopHandle (Sample.hide 0 12)) All Sample.sellingOut Sample.start
    = (Returned r, s')
    /\ amountSold r = Some k
    /\ exists st sellItem,
         snapshotAt Sample.sellingOut (clock Sample.start) = Some st
         /\ resolveShopItem (ShopHandle (Sample.hide 0 12)) (Shop.playerItems (shop st))
            = Some sellItem
         /\ 0 <= k <= Z.of_N (getTotalCount (ShopItem.id sellItem)
                                            (Shop.playerItems (shop st))).
Proof.
  assert (E : sellToShop (ShopHandle (Sample.hide 0 12)) All Sample.sellingOut Sample.start
              = (Returned {| sell_base := succeeded "Sold Cowhide x21";
                             amountSold := Some 21; rejected := false |},
                 {| clock := 1800;
                    sent := [ShopSell 1 9; ShopSell 0 2; ShopSell 0 10] |}))
    by (vm_compute; reflexivity).
  eexists. eexists. eexists. split; [exact E|]. split; [reflexivity|].
  exact (sellAll_reports_at_most_held _ _ _ _ _ _ E eq_refl).
Defined.

(** ** Closing *)

(** X26: closing retries once and sends nothing else.  [closeBank]
    sends [sendCloseModal] and [closeShop] sends [sendCloseShop] at most
    twice; the second goes out only after the wait for the interface to
    close has failed, a success after it comes with the message of the
    second attempt, and a failure is reported only after both. *)
Theorem close_retries_once (w : World) (s s' : Session) (timeout : Z) (r : ActionResult) :
  (closeBank timeout w s = (Returned r, s') ->
   (sent s' = sent s /\ success r = true)
   \/ (sent s' = CloseModal :: sent s /\ success r = true)
   \/ (sent s' = CloseModal :: CloseModal :: sent s
       /\ clock s + Z.max 0 timeout + 500 <= clock s'
       /\ (success r = true -> message r = "Bank closed (second attempt)"%string)))
  /\ (closeShop timeout w s = (Returned r, s') ->
      (sent s' = sent s /\ success r = true)
      \/ (sent s' = CloseShop :: sent s /\ success r = true)
      \/ (sent s' = CloseShop :: CloseShop :: sent s
          /\ clock s + Z.max 0 timeout + 500 <= clock s'
          /\ (success r = true -> message r = "Shop closed (second attempt)"%string))).
Proof.
  split.
  - unfold closeBank, tryCatch, bind, getState, send, sleep, ret.
    crunch; intros H; inversion H; subst; clear H;
      try match goal with
          | E : waitForCondition _ _ _ _ = (Thrown _, _) |- _ =>
              apply waitForCondition_thrown in E; subst
          end;
      frames;
      first
        [ left; split; [assumption || reflexivity|reflexivity]
        | right; left; split; [assumption|reflexivity]
        | right; right; cbn [clock sent advance record];
          split; [reflexivity|]; split; [pose proof (N2Z.is_nonneg (rtt w)); lia|];
          first [intros _; reflexivity | intros Hs; discriminate Hs] ].
  - unfold closeShop, tryCatch, bind, getState, send, sleep, ret.
    crunch; intros H; inversion H; subst; clear H;
      try match goal with
          | E : waitForCondition _ _ _ _ = (Thrown _, _) |- _ =>
              apply waitForCondition_thrown in E; subst
          end;
      frames;
      first
        [ left; split; [assumption || reflexivity|reflexivity]
        | right; left; split; [assumption|reflexivity]
        | right; right; cbn [clock sent advance record];
          split; [reflexivity|]; split; [pose proof (N2Z.is_nonneg (rtt w)); lia|];
          first [intros _; reflexivity | intros Hs; discriminate Hs] ].
Qed.

Lemma close_retries_once_witness :
  let w := Sample.still (Sample.atBank true []) [] in
  exists r s',
    closeBank 5000 w Sample.start = (Returned r, s')
    /\ success r = false
    /\ sent s' = CloseModal :: CloseModal :: sent Sample.start
    /\ clock Sample.start + Z.max 0 5000 + 500 <= clock s'.
Proof.
  intros w.
  assert (E : closeBank 5000 w Sample.start
              = (Returned (failure "Bank close timeout - interface.isOpen=true"),
                 {| clock := 5600; sent := [CloseModal; CloseModal] |}))
    by (vm_compute; reflexivity).
  eexists. eexists. split; [exact E|]. split; [reflexivity|].
  destruct (proj1 (close_retries_once w _ _ 5000 _) E)
    as [[_ Hs]|[[_ Hs]|(Hsent & Hclock & _)]];
    [discriminate Hs|discriminate Hs|].
  split; [exact Hsent|exact Hclock].
Defined.
